(** * IMaD: cyclic registration, orientation matching and patch stitching

    A shallow embedding of [src/main_DiffeoMappingNet.py] and the properties
    of its orientation matcher, its training loop, its inference driver and
    its patch stitcher.

    Conventions.
    - A torch tensor of shape [B, C, H, W] is a nested list, outermost axis
      first.  The shape is read off the lists; the width of a plane is the
      length of its first row.
    - A Python exception is a value of [exn]; a function that can raise
      returns a [result]. *)

From stdpp Require Import gmap strings list sorting pretty.
From Stdlib Require Import Ascii ZArith QArith Lia.

Local Open Scope Z_scope.

(** ** Exceptions *)

Inductive exn : Type :=
  | AssertionError
  | NameError (name : string)
  | AttributeError (name : string)
  | ValueError (msg : string)
  | TypeError
  | RuntimeError
  | IndexError
  | ZeroDivisionError
  | UnboundLocalError (name : string)
  | FileNotFoundError
  | KeyError (key : string)
  | BdbQuit.

Inductive result (A : Type) : Type :=
  | Ok (a : A)
  | Raise (e : exn).
Arguments Ok {A} a.
Arguments Raise {A} e.

#[global] Instance result_ret : MRet result := @Ok.
#[global] Instance result_bind : MBind result :=
  fun A B (k : A -> result B) (r : result A) =>
    match r with
    | Ok a => k a
    | Raise e => Raise e
    end.

(** [assert cond] *)
Definition py_assert (cond : bool) : result unit :=
  if cond then Ok tt else Raise AssertionError.

(** A loop that builds a list and stops at the first exception. *)
Fixpoint mapM {X Y : Type} (f : X -> result Y) (l : list X) : result (list Y) :=
  match l with
  | [] => Ok []
  | x :: l' => y ← f x; ys ← mapM f l'; Ok (y :: ys)
  end.

(** A computation on a state [S] that can raise; the state reached when
    the exception is raised is kept. *)
Definition ST (S A : Type) : Type := S -> S * result A.

#[global] Instance ST_ret (S : Type) : MRet (ST S) := fun A a s => (s, Ok a).
#[global] Instance ST_bind (S : Type) : MBind (ST S) :=
  fun A B (k : A -> ST S B) (c : ST S A) s =>
    match c s with
    | (s', Ok a) => k a s'
    | (s', Raise e) => (s', Raise e)
    end.

Definition lift {S A : Type} (r : result A) : ST S A := fun s => (s, r).

Fixpoint forM {S X Y : Type} (l : list X) (f : X -> ST S Y) : ST S (list Y) :=
  match l with
  | [] => mret []
  | x :: l' => y ← f x; ys ← forM l' f; mret (y :: ys)
  end.

(** ** The orientation matcher: [flip_rot] and [predict_flipping_rotation] *)

Module FlipRot.

Section Planes.
Context {A : Type}.

(** One [H, W] plane: a list of rows. *)
Definition plane : Type := list (list A).
(** A [B, C, H, W] tensor. *)
Definition tensor : Type := list (list plane).

Definition width (m : plane) : nat := length (hd [] m).

(** The first column of a plane, and the plane without it. *)
Definition heads (m : plane) : list A := flat_map (take 1) m.
Definition tails (m : plane) : plane := map (drop 1) m.

(** [w] columns of [m], each as a row. *)
Fixpoint transpose (w : nat) (m : plane) : plane :=
  match w with
  | O => []
  | S w' => heads m :: transpose w' (tails m)
  end.

(** [torch.flip(image, dims=(2,))]: the order of the rows is reversed. *)
Definition flip_dim2 (image : tensor) : tensor := map (map (@rev (list A))) image.
(** [torch.flip(image, dims=(3,))]: every row is reversed. *)
Definition flip_dim3 (image : tensor) : tensor := map (map (map (@rev A))) image.
(** [image.transpose(2, 3)] *)
Definition transpose_2_3 (image : tensor) : tensor :=
  map (map (fun m => transpose (width m) m)) image.

(** [torch.rot90(image, k, dims=(2, 3))], as torch computes it:
    k = 1 is [flip(3)] then [transpose(2, 3)], k = 2 is [flip((2, 3))],
    k = 3 is [flip(2)] then [transpose(2, 3)], k = 0 is a copy. *)
Definition rot90 (k : Z) (image : tensor) : tensor :=
  let k := (4 + k mod 4) mod 4 in
  if k =? 1 then transpose_2_3 (flip_dim3 image)
  else if k =? 2 then flip_dim3 (flip_dim2 image)
  else if k =? 3 then transpose_2_3 (flip_dim2 image)
  else image.

Definition flip_rot (image : tensor) (fliplr : bool) (rot_angle : Z) : result tensor :=
  let image := if fliplr then flip_dim2 image else image in
  if rot_angle =? 90 then Ok (rot90 1 image)
  else if rot_angle =? 180 then Ok (rot90 2 image)
  else if rot_angle =? 270 then Ok (rot90 3 image)
  else py_assert (rot_angle =? 0) ;; Ok image.

(** A transform is [partial(flip_rot, fliplr=.., rot_angle=..)]. *)
Definition transform : Type := (bool * Z)%type.
Definition apply_transform (t : transform) (image : tensor) : result tensor :=
  flip_rot image (fst t) (snd t).

(** The forward and reverse transforms, in the order of the two nested
    [zip] loops. *)
Definition candidates : list (transform * transform) :=
  flat_map
    (fun fl : bool * bool =>
       map (fun rt : Z * Z => ((fst fl, fst rt), (snd fl, snd rt)))
           (zip [0; 90; 180; 270] [0; 270; 180; 90]))
    (zip [false; true] [false; true]).




(** The shape of a tensor, as far as the lists record it. *)
Definition shape (image : tensor) : list nat :=
  [ length image;
    length (hd [] image);
    length (hd [] (hd [] image));
    length (hd [] (hd [] (hd [] image))) ].

Section Matcher.
(** [utils.ncc.NCC] is outside this file: [cross_corr_max fixed moved]
    stands for
    [torch.max(torch.max(NCC(fixed)(moved), dim=1)[0], dim=1)[0]],
    one score per batch element, and [score_ltb] for the order of the
    scores. *)
Variable Score : Type.
Variable score_ltb : Score -> Score -> bool.
Variable cross_corr_max : tensor -> tensor -> list Score.





End Matcher.

(** Every plane of the image is [n] by [n]. *)
Definition rect (h w : nat) (m : plane) : Prop :=
  length m = h /\ Forall (fun r => length r = w) m.
Definition square_image (n : nat) (image : tensor) : Prop :=
  Forall (Forall (rect n n)) image.

(** The shape of one sample, [C, H, W]. *)
Definition sample_shape (s : list plane) : list nat :=
  [ length s; length (hd [] s); length (hd [] (hd [] s)) ].

(** [torch.zeros_like(image)] *)
Definition zeros_like (zero : A) (image : tensor) : tensor :=
  map (map (map (map (fun _ => zero)))) image.

(** [t(sample.unsqueeze(0)).squeeze(0)], as it is assigned to a sample of the
    output: the assignment needs the shape of its target. *)
Definition transform_sample (t : transform) (s : list plane) : result (list plane) :=
  out ← apply_transform t [s];
  match out with
  | [s'] => if bool_decide (sample_shape s' = sample_shape s) then Ok s' else Raise RuntimeError
  | _ => Raise RuntimeError
  end.

(** The loop of [apply_flipping_rotation] from [batch_idx] on. *)
Fixpoint apply_from (transform : list transform) (batch_idx : nat)
    (image transformed_image : tensor) : result tensor :=
  match transform with
  | [] => Ok transformed_image
  | t :: rest =>
      s ← match image !! batch_idx with
          | Some s => Ok s
          | None => Raise IndexError
          end;
      s' ← transform_sample t s;
      apply_from rest (S batch_idx) image (<[batch_idx := s']> transformed_image)
  end.

Definition apply_flipping_rotation (zero : A) (transform : list transform) (image : tensor)
  : result tensor :=
  apply_from transform 0 image (zeros_like zero image).
End Planes.

End FlipRot.

(** ** Patch offsets in file names: [extract_h_w] *)

Module ExtractHW.

Local Open Scope char_scope.

(** A path is a string of 8-bit characters; among these, the class [\d]
    is exactly the characters 0 to 9. *)
Definition is_digit (c : ascii) : bool :=
  (48 <=? nat_of_ascii c)%nat && (nat_of_ascii c <=? 57)%nat.

(** [\d*], greedy: the longest run of digits and what follows it. *)
Fixpoint span_digits (s : list ascii) : list ascii * list ascii :=
  match s with
  | c :: s' =>
      if is_digit c
      then let '(d, r) := span_digits s' in (c :: d, r)
      else ([], s)
  | [] => ([], [])
  end.

(** [-?\d+] at the start of [s]: the text of the group and the rest. *)
Definition match_int (s : list ascii) : option (list ascii * list ascii) :=
  let '(sign, s1) :=
    match s with
    | c :: s' => if (c =? "-")%char then ([c], s') else ([], s)
    | [] => ([], s)
    end in
  let '(d, r) := span_digits s1 in
  match d with
  | [] => None
  | _ :: _ => Some (sign ++ d, r)
  end.

(** [H(-?\d+)_W(-?\d+)] at the start of [s]: the two groups and the number
    of characters of the match. *)
Definition match_here (s : list ascii) : option ((list ascii * list ascii) * nat) :=
  match s with
  | c :: s1 =>
      if (c =? "H")%char then
        match match_int s1 with
        | Some (g1, c1 :: c2 :: s2) =>
            if (c1 =? "_")%char && (c2 =? "W")%char then
              match match_int s2 with
              | Some (g2, _) => Some ((g1, g2), (1 + length g1 + 2 + length g2)%nat)
              | None => None
              end
            else None
        | _ => None
        end
      else None
  | [] => None
  end.

(** [re.findall]: the matches from left to right, none overlapping; the
    scan resumes after the end of a match, [skip] characters further. *)
Fixpoint findall_from (skip : nat) (s : list ascii) : list (list ascii * list ascii) :=
  match s with
  | [] => []
  | _ :: s' =>
      match skip with
      | S k => findall_from k s'
      | O =>
          match match_here s with
          | Some (g, n) => g :: findall_from (n - 1) s'
          | None => findall_from 0 s'
          end
      end
  end.

Definition findall (s : list ascii) : list (list ascii * list ascii) :=
  findall_from 0 s.

(** [int(text)] for a text [-?\d+]. *)
Definition digit_value (c : ascii) : Z := Z.of_nat (nat_of_ascii c) - 48.
Definition digits_value (d : list ascii) : Z :=
  fold_left (fun acc c => 10 * acc + digit_value c) d 0.
Definition py_int (t : list ascii) : Z :=
  match t with
  | c :: d => if (c =? "-")%char then - digits_value d else digits_value t
  | [] => 0
  end.

Definition extract_h_w (file_path : string) : result (Z * Z) :=
  let h_w := findall (String.list_ascii_of_string file_path) in
  py_assert (length h_w =? 1)%nat ;;
  match h_w with
  | g :: _ => Ok (py_int (fst g), py_int (snd g))
  | [] => Raise AssertionError
  end.

(** The match at every position of [s], from left to right. *)
Fixpoint all_matches (s : list ascii) : list (list ascii * list ascii) :=
  match s with
  | [] => []
  | _ :: s' =>
      match match_here s with
      | Some (g, _) => g :: all_matches s'
      | None => all_matches s'
      end
  end.

(** What the pattern means.  [int_text t]: [t] is an optional minus sign
    and one or more digits. *)
Definition int_text (t : list ascii) : Prop :=
  exists d, d <> [] /\ forallb is_digit d = true /\ (t = d \/ t = "-" :: d).

Definition no_digit_ahead (post : list ascii) : Prop :=
  match post with
  | c :: _ => is_digit c = false
  | [] => True
  end.

(** The number that a digit stands for, and the number that digits write in
    base ten, the most significant digit first: a digit with [k] digits
    after it counts [10 ^ k] times. *)
Definition digit_number (c : ascii) : Z :=
  match c with
  | "0" => 0 | "1" => 1 | "2" => 2 | "3" => 3 | "4" => 4
  | "5" => 5 | "6" => 6 | "7" => 7 | "8" => 8 | "9" => 9
  | _ => 0
  end.

Fixpoint base_ten (d : list ascii) : Z :=
  match d with
  | [] => 0
  | c :: d' => digit_number c * 10 ^ Z.of_nat (length d') + base_ten d'
  end.

(** The signed integer that a text [-?\d+] writes. *)
Definition signed_integer (t : list ascii) : Z :=
  match t with
  | "-" :: d => - base_ten d
  | _ => base_ten t
  end.

(** [occurrence s i h w]: at position [i] of [s] starts a substring
    [H<t1>_W<t2>] that no further digit extends, [t1] writing the signed
    integer [h] and [t2] the signed integer [w]. *)
Definition occurrence (s : list ascii) (i : nat) (h w : Z) : Prop :=
  exists pre t1 t2 post,
    s = pre ++ "H" :: t1 ++ "_" :: "W" :: t2 ++ post /\
    length pre = i /\
    int_text t1 /\ int_text t2 /\ no_digit_ahead post /\
    h = signed_integer t1 /\ w = signed_integer t2.

(** The path holds exactly one such substring, and its numbers are
    [h] and [w]. *)
Definition exactly_one_match (file_path : string) (h w : Z) : Prop :=
  exists i,
    occurrence (String.list_ascii_of_string file_path) i h w /\
    forall j h' w', occurrence (String.list_ascii_of_string file_path) j h' w' -> j = i.

End ExtractHW.

(** ** Python strings *)

Module PyStr.

(** [s.find(sub)] *)
Definition find (s sub : string) : Z :=
  match String.index 0 sub s with
  | Some n => Z.of_nat n
  | None => -1
  end.

(** [sub in s] *)
Definition contains (sub s : string) : bool :=
  match String.index 0 sub s with
  | Some _ => true
  | None => false
  end.

(** A slice bound [i] of a sequence of length [n], as [slice.indices]
    clamps it. *)
Definition clamp (n i : Z) : Z :=
  if i <? 0 then Z.max (i + n) 0 else Z.min i n.

(** [s[:stop]] *)
Definition slice_to (s : string) (stop : Z) : string :=
  String.substring 0 (Z.to_nat (clamp (Z.of_nat (String.length s)) stop)) s.

(** [s.replace(old, new)]: every occurrence of [old] from left to right,
    none overlapping; an empty [old] matches between the characters. *)
Fixpoint replace_from (old new : string) (skip : nat) (s : string) : string :=
  match s with
  | EmptyString => EmptyString
  | String c s' =>
      match skip with
      | S k => replace_from old new k s'
      | O =>
          if String.prefix old s
          then new +:+ replace_from old new (String.length old - 1) s'
          else String c (replace_from old new 0 s')
      end
  end.

Fixpoint interleave (new s : string) : string :=
  match s with
  | EmptyString => new
  | String c s' => new +:+ String c (interleave new s')
  end.

Definition replace (s old new : string) : string :=
  match old with
  | EmptyString => interleave new s
  | String _ _ => replace_from old new 0 s
  end.

(** [str(n)] for an integer, as an f-string prints it. *)
Definition of_int (n : Z) : string := pretty n.

(** [sorted(paths)]: strings compare character by character. *)
Definition le (a b : string) : Prop := String.leb a b = true.
#[global] Instance le_dec a b : Decision (le a b).
Proof. unfold le. apply _. Defined.
Definition sorted (paths : list string) : list string := merge_sort le paths.

(** [os.path.join(a, b)] *)
Definition path_join (a b : string) : string :=
  if String.prefix "/" b then b
  else if String.eqb a EmptyString then b
  else if String.eqb (String.substring (String.length a - 1) 1 a) "/" then a +:+ b
  else a +:+ "/" +:+ b.

(** [os.path.basename(p)]: what follows the last [/]; [acc] is what
    follows the last one seen. *)
Fixpoint basename_from (acc p : string) : string :=
  match p with
  | EmptyString => acc
  | String c rest =>
      if Ascii.eqb c "/" then basename_from EmptyString rest
      else basename_from (acc +:+ String c EmptyString) rest
  end.

Definition basename (p : string) : string := basename_from EmptyString p.

Fixpoint zeros (n : nat) : string :=
  match n with
  | O => EmptyString
  | S k => String "0" (zeros k)
  end.

(** [s.zfill(width)]: the zeros go after a leading sign. *)
Definition zfill (width : nat) (s : string) : string :=
  match s with
  | String c rest =>
      if Ascii.eqb c "-" || Ascii.eqb c "+"
      then String c (zeros (width - String.length s) +:+ rest)
      else zeros (width - String.length s) +:+ s
  | EmptyString => zeros width
  end.

(** The line feed. *)
Definition nl : string := String (ascii_of_nat 10) EmptyString.

End PyStr.

(** ** Arrays, files and effects *)

(** A two-dimensional [uint8] array: its shape and its elements by row and
    column. *)
Record ndarray : Type := mk_ndarray {
  nrows : Z;
  ncols : Z;
  at_ : Z -> Z -> Z
}.

(** A three-channel image. *)
Record ndarray3 : Type := mk_ndarray3 {
  nrows3 : Z;
  ncols3 : Z;
  at3 : Z -> Z -> Z * Z * Z
}.

Inductive image : Type :=
  | Gray (a : ndarray)
  | Color (a : ndarray3).

Inductive event : Type :=
  | Print (msg : string)
  | Log (msg : string) (filepath : option string)
  | Makedirs (path : string)
  | Rmtree (path : string)
  | SavedFigure (path : string).

(** What a run touches outside the process: the image files by path, and the
    lines it prints and logs, oldest first. *)
Record world : Type := mk_world {
  files : gmap string image;
  events : list event
}.

(** A computation with effects on the world that can raise. *)
Abbreviation IO := (ST world).

Definition emit (e : event) : IO unit :=
  fun w => (mk_world (files w) (events w ++ [e]), Ok tt).
Definition imwrite (path : string) (img : image) : IO unit :=
  fun w => (mk_world (<[path := img]> (files w)) (events w), Ok tt).

(** ** The patch stitcher: [stitch_patches] *)

Module Stitch.
Import ExtractHW.

Definition imsize : Z := 32.

(** [np.zeros((h, w), dtype=np.uint8)] *)
Definition np_zeros (h w : Z) : result ndarray :=
  if (h <? 0) || (w <? 0) then Raise (ValueError "negative dimensions are not allowed")
  else Ok (mk_ndarray h w (fun _ _ => 0)).

(** [a[r0:r1, c0:c1]] *)
Definition slice2 (a : ndarray) (r0 r1 c0 c1 : Z) : ndarray :=
  let r0' := PyStr.clamp (nrows a) r0 in
  let r1' := PyStr.clamp (nrows a) r1 in
  let c0' := PyStr.clamp (ncols a) c0 in
  let c1' := PyStr.clamp (ncols a) c1 in
  mk_ndarray (Z.max 0 (r1' - r0')) (Z.max 0 (c1' - c0'))
             (fun i j => at_ a (r0' + i) (c0' + j)).

(** One axis of numpy broadcasting of two operands. *)
Definition broadcast_dim (d1 d2 : Z) : result Z :=
  if d1 =? d2 then Ok d1
  else if d1 =? 1 then Ok d2
  else if d2 =? 1 then Ok d1
  else Raise (ValueError "operands could not be broadcast together").

(** [np.maximum(a, b)] *)
Definition np_maximum (a b : ndarray) : result ndarray :=
  h ← broadcast_dim (nrows a) (nrows b);
  w ← broadcast_dim (ncols a) (ncols b);
  Ok (mk_ndarray h w
        (fun i j =>
           Z.max (at_ a (if nrows a =? 1 then 0 else i) (if ncols a =? 1 then 0 else j))
                 (at_ b (if nrows b =? 1 then 0 else i) (if ncols b =? 1 then 0 else j)))).

(** [a[r0:r1, c0:c1] = src]: [src] is broadcast to the shape of the
    target region. *)
Definition set_slice2 (a : ndarray) (r0 r1 c0 c1 : Z) (src : ndarray) : result ndarray :=
  let r0' := PyStr.clamp (nrows a) r0 in
  let r1' := PyStr.clamp (nrows a) r1 in
  let c0' := PyStr.clamp (ncols a) c0 in
  let c1' := PyStr.clamp (ncols a) c1 in
  let th := Z.max 0 (r1' - r0') in
  let tw := Z.max 0 (c1' - c0') in
  if ((nrows src =? th) || (nrows src =? 1)) && ((ncols src =? tw) || (ncols src =? 1))
  then Ok (mk_ndarray (nrows a) (ncols a)
             (fun r c =>
                if (r0' <=? r) && (r <? r1') && (c0' <=? c) && (c <? c1')
                then at_ src (if nrows src =? 1 then 0 else r - r0')
                             (if ncols src =? 1 then 0 else c - c0')
                else at_ a r c))
  else Raise (ValueError "could not broadcast input array").

(** The placement of a patch with offsets [h], [w]. *)
Record placement : Type := mk_placement {
  offset_h : Z; offset_w : Z;
  start_h : Z; start_w : Z;
  end_h : Z; end_w : Z;
  actual_height : Z; actual_width : Z
}.

Definition place (stitched_size : Z * Z) (h w : Z) : placement :=
  let offset_h := Z.min 0 h in
  let offset_w := Z.min 0 w in
  let start_h := Z.max 0 h in
  let start_w := Z.max 0 w in
  let end_h := Z.min (start_h + imsize + offset_h) (fst stitched_size) in
  let end_w := Z.min (start_w + imsize + offset_w) (snd stitched_size) in
  let actual_height := end_h - start_h in
  let actual_width := end_w - start_w in
  mk_placement offset_h offset_w start_h start_w end_h end_w actual_height actual_width.

(** [cv2.imread(path, cv2.IMREAD_GRAYSCALE)]: [None] for a path that holds
    no image.  [bgr2gray] is OpenCV's conversion of a colour pixel. *)
Section Stitcher.
Variable bgr2gray : Z * Z * Z -> Z.
(** [glob(pattern)] on the files of the world. *)
Variable glob : gmap string image -> string -> list string.

Definition imread_grayscale (fs : gmap string image) (path : string) : option ndarray :=
  match fs !! path with
  | Some (Gray a) => Some a
  | Some (Color a) =>
      Some (mk_ndarray (nrows3 a) (ncols3 a) (fun i j => bgr2gray (at3 a i j)))
  | None => None
  end.

(** The sub-region of the patch that goes on the canvas. *)
Definition crop (p : placement) (label_patch : ndarray) : ndarray :=
  slice2 label_patch
         (- offset_h p) (- offset_h p + actual_height p)
         (- offset_w p) (- offset_w p + actual_width p).

(** The body of the loop over the patches of one base identifier. *)
Definition stitch_one (fs : gmap string image) (stitched_size : Z * Z)
    (label_stitched : ndarray) (label_patch_path : string) : result ndarray :=
  hw ← extract_h_w label_patch_path;
  let p := place stitched_size (fst hw) (snd hw) in
  label_patch ←
    match imread_grayscale fs label_patch_path with
    | Some a => Ok a
    | None => Raise TypeError
    end;
  let new_patch := crop p label_patch in
  let old_patch := slice2 label_stitched (start_h p) (end_h p) (start_w p) (end_w p) in
  updated_patch ← np_maximum old_patch new_patch;
  set_slice2 label_stitched (start_h p) (end_h p) (start_w p) (end_w p) new_patch.

Fixpoint stitch_loop (fs : gmap string image) (stitched_size : Z * Z)
    (label_stitched : ndarray) (label_patch_list : list string) : result ndarray :=
  match label_patch_list with
  | [] => Ok label_stitched
  | label_patch_path :: rest =>
      label_stitched' ← stitch_one fs stitched_size label_stitched label_patch_path;
      stitch_loop fs stitched_size label_stitched' rest
  end.

(** The patches of one base identifier, in the order of [label_list]. *)
Definition label_patch_list (label_list : list string) (base_label_path : string)
  : list string :=
  filter (fun item => PyStr.contains (PyStr.replace base_label_path ".png" "") item = true)
         label_list.

(** The canvas of one base identifier. *)
Definition stitch_base (fs : gmap string image) (stitched_size : Z * Z)
    (label_list : list string) (base_label_path : string) : result ndarray :=
  label_stitched ← np_zeros (fst stitched_size) (snd stitched_size);
  stitch_loop fs stitched_size label_stitched (label_patch_list label_list base_label_path).

(** The first loop: the base identifiers in order of first appearance. *)
Fixpoint base_labels (base_label_list : list string) (label_list : list string)
  : result (list string) :=
  match label_list with
  | [] => Ok base_label_list
  | label_path :: rest =>
      hw ← extract_h_w label_path;
      let h_w_string := "_H" +:+ PyStr.of_int (fst hw) +:+ "_W" +:+ PyStr.of_int (snd hw) in
      let h_w_string_idx := PyStr.find label_path h_w_string in
      let base_label_path := PyStr.slice_to label_path h_w_string_idx +:+ ".png" in
      if bool_decide (base_label_path ∈ base_label_list)
      then base_labels base_label_list rest
      else base_labels (base_label_list ++ [base_label_path]) rest
  end.

Definition colored (label_stitched : ndarray) : ndarray3 :=
  mk_ndarray3 (nrows label_stitched) (ncols label_stitched)
              (fun i j => if at_ label_stitched i j =? 1 then (0, 255, 0) else (0, 0, 0)).

Definition stitch_patches (pred_label_folder : string) (stitched_size : Z * Z)
  : IO (list ndarray * string) :=
  let stitched_folder := PyStr.replace pred_label_folder "pred_patches" "stitched_labels" in
  let colored_stitched_folder :=
    PyStr.replace pred_label_folder "pred_patches" "colored_stitched_labels" in
  emit (Makedirs stitched_folder) ;;
  emit (Makedirs colored_stitched_folder) ;;
  emit (Print ("pred_label_folder:  " +:+ pred_label_folder +:+
               "  stitched_folder:  " +:+ stitched_folder)) ;;
  label_list ← (fun w => (w, Ok (PyStr.sorted (glob (files w) (pred_label_folder +:+ "/*.png")))));
  base_label_list ← lift (base_labels [] label_list);
  stitched_label_list ←
    forM base_label_list (fun base_label_path =>
      label_stitched ← (fun w => (w, stitch_base (files w) stitched_size label_list base_label_path));
      let save_path := PyStr.replace base_label_path pred_label_folder stitched_folder in
      imwrite save_path (Gray label_stitched) ;;
      let color_save_path :=
        PyStr.replace base_label_path pred_label_folder colored_stitched_folder in
      imwrite color_save_path (Color (colored label_stitched)) ;;
      mret label_stitched);
  emit (Log ("Done stitching " +:+ PyStr.of_int (Z.of_nat (length label_list)) +:+
             " patches. Stitched: " +:+
             PyStr.of_int (Z.of_nat (length stitched_label_list)) +:+ ".") None) ;;
  mret (stitched_label_list, stitched_folder).
End Stitcher.

(** The canvas pixels a patch with offsets [h], [w] is placed on, and the
    value it puts there. *)
Definition covers (stitched_size : Z * Z) (h w r c : Z) : bool :=
  let p := place stitched_size h w in
  (start_h p <=? r) && (r <? end_h p) && (start_w p <=? c) && (c <? end_w p).

Definition written (stitched_size : Z * Z) (h w : Z) (label_patch : ndarray) (r c : Z) : Z :=
  let p := place stitched_size h w in
  let new_patch := crop p label_patch in
  at_ new_patch (if nrows new_patch =? 1 then 0 else r - start_h p)
                (if ncols new_patch =? 1 then 0 else c - start_w p).

(** The same for a patch file, by its path. *)
Definition path_covers (stitched_size : Z * Z) (label_patch_path : string) (r c : Z) : bool :=
  match extract_h_w label_patch_path with
  | Ok hw => covers stitched_size (fst hw) (snd hw) r c
  | Raise _ => false
  end.

Definition path_written (bgr2gray : Z * Z * Z -> Z) (fs : gmap string image)
    (stitched_size : Z * Z) (label_patch_path : string) (r c : Z) : Z :=
  match extract_h_w label_patch_path, imread_grayscale bgr2gray fs label_patch_path with
  | Ok hw, Some label_patch => written stitched_size (fst hw) (snd hw) label_patch r c
  | _, _ => 0
  end.


(** The loop body with the unused [np.maximum] line left out. *)
Definition overwrite_one (bgr2gray : Z * Z * Z -> Z) (fs : gmap string image)
    (stitched_size : Z * Z) (label_stitched : ndarray) (label_patch_path : string)
  : result ndarray :=
  hw ← extract_h_w label_patch_path;
  let p := place stitched_size (fst hw) (snd hw) in
  label_patch ←
    match imread_grayscale bgr2gray fs label_patch_path with
    | Some a => Ok a
    | None => Raise TypeError
    end;
  set_slice2 label_stitched (start_h p) (end_h p) (start_w p) (end_w p) (crop p label_patch).


End Stitch.

(** ** Floating-point numbers *)

Module PyFloat.

(** A float is a rational, an infinity or NaN.  The arithmetic of floats is
    kept out of this type: sums, products and quotients are parameters of
    the code that uses them. *)
Inductive float : Type :=
  | FNum (q : Q)
  | FPosInf
  | FNegInf
  | FNaN.

(** [tensor.float()] on an integer: exact up to 2^24 in absolute value;
    beyond, the rounding to the nearest float keeps the order with 0, 0.5
    and 1. *)
Definition of_int (z : Z) : float := FNum (inject_Z z).

Definition zero : float := FNum (inject_Z 0).
Definition one : float := FNum (inject_Z 1).
Definition half : float := FNum (Qmake 1 2).
(** [np.inf] *)
Definition inf : float := FPosInf.

(** [a < b]: false as soon as one side is NaN. *)
Definition ltb (a b : float) : bool :=
  match a, b with
  | FNaN, _ | _, FNaN => false
  | FNum p, FNum q => negb (Qle_bool q p)
  | FNegInf, FNum _ | FNegInf, FPosInf | FNum _, FPosInf => true
  | _, _ => false
  end.

(** [a == b] *)
Definition eqb (a b : float) : bool :=
  match a, b with
  | FNum p, FNum q => Qeq_bool p q
  | FPosInf, FPosInf | FNegInf, FNegInf => true
  | _, _ => false
  end.

(** [a > b] *)
Definition gtb (a b : float) : bool := ltb b a.

Definition is_nan (a : float) : bool :=
  match a with
  | FNaN => true
  | _ => false
  end.

(** The greater of two elements as [torch.max] reduces them: NaN wins. *)
Definition max (a b : float) : float :=
  match a, b with
  | FNaN, _ | _, FNaN => FNaN
  | _, _ => if ltb a b then b else a
  end.

End PyFloat.

(** ** Float tensors *)

Module Tensor.
Import PyFloat.

Abbreviation plane := (@FlipRot.plane).
Abbreviation tensor := (@FlipRot.tensor).

(** One sample, of shape [C, H, W]. *)
Definition sample (A : Type) : Type := list (plane A).

Definition tmap {A B : Type} (f : A -> B) (t : tensor A) : tensor B :=
  map (map (map (map f))) t.

Definition elements {A : Type} (t : tensor A) : list A :=
  concat (concat (concat t)).

(** [t.max()]: an empty tensor has no maximum. *)
Definition tensor_max (t : tensor float) : result float :=
  match elements t with
  | [] => Raise RuntimeError
  | x :: l => Ok (fold_left PyFloat.max l x)
  end.

(** [(t > 0.5).float()] *)
Definition threshold (t : tensor float) : tensor float :=
  tmap (fun x => if gtb x half then one else zero) t.

(** [torch.cat([a, b], dim=1)]: the sizes must agree outside dimension 1. *)
Definition cat_dim1 {A : Type} (a b : tensor A) : result (tensor A) :=
  match FlipRot.shape a, FlipRot.shape b with
  | [ba; _; ha; wa], [bb; _; hb; wb] =>
      if ((ba =? bb) && (ha =? hb) && (wa =? wb))%nat
      then Ok (zip_with app a b)
      else Raise RuntimeError
  | _, _ => Raise RuntimeError
  end.

(** [t[:, :2, ...]] and [t[:, 2:, ...]] *)
Definition channels_upto_2 {A : Type} (t : tensor A) : tensor A := map (take 2) t.
Definition channels_from_2 {A : Type} (t : tensor A) : tensor A := map (drop 2) t.

(** [t[:, k, ...]] of a tensor of views [B, n_views, ...]. *)
Definition select_view {X : Type} (k : nat) (t : list (list X)) : list X :=
  flat_map (fun views => take 1 (drop k views)) t.

(** [t.shape[1]] *)
Definition shape_1 {X : Type} (t : list (list X)) : nat := length (hd [] t).

(** [t[idx]] for a list of indices. *)
Definition index_rows {X : Type} (t : list X) (idx : list nat) : result (list X) :=
  mapM (fun i => match t !! i with
                 | Some x => Ok x
                 | None => Raise IndexError
                 end) idx.

(** [t[i]] *)
Definition index_row {X : Type} (t : list X) (i : nat) : result X :=
  match t !! i with
  | Some x => Ok x
  | None => Raise IndexError
  end.

(** Labels come with an integer or a floating-point element type. *)
Inductive labels : Type :=
  | LInt (t : tensor Z)
  | LFloat (t : tensor float).

Definition is_floating_point (l : labels) : bool :=
  match l with
  | LInt _ => false
  | LFloat _ => true
  end.

(** [labels.float()] *)
Definition to_float (l : labels) : tensor float :=
  match l with
  | LInt t => tmap of_int t
  | LFloat t => t
  end.

(** The two views of the labels of a batch, [B, 2, C, H, W].  Labels that
    the loader gives without a channel axis are held with one channel, which
    is what [labels[:, None, ...]] makes of them. *)
Inductive label_views : Type :=
  | VInt (t : list (list (sample Z)))
  | VFloat (t : list (list (sample float))).

Definition label_select_view (k : nat) (l : label_views) : labels :=
  match l with
  | VInt t => LInt (select_view k t)
  | VFloat t => LFloat (select_view k t)
  end.

Definition label_index_rows (l : label_views) (idx : list nat) : result label_views :=
  match l with
  | VInt t => t' ← index_rows t idx; Ok (VInt t')
  | VFloat t => t' ← index_rows t idx; Ok (VFloat t')
  end.

End Tensor.

(** ** The trainer: [train] and [test] *)

Module Train.
Import PyFloat Tensor.

Record config : Type := mk_config {
  strong : bool;
  max_epochs : Z;
  n_plot_per_epoch : Z;
  patience : Z;
  DiffeoMappingNet_model : string;
  DiffeoMappingNet_model_save_path : string
}.

(** A batch of the train or validation loader: the two views of the images,
    [B, 2, C, H, W], and of the labels. *)
Record batch : Type := mk_batch {
  image_n_view : list (list (sample float));
  label_n_view : label_views
}.

(** A batch of the test set. *)
Record test_batch : Type := mk_test_batch {
  test_unannotated_images : tensor float;
  test_unannotated_labels : labels;
  test_annotated_images : tensor float;
  test_annotated_labels : labels
}.

Inductive phase : Type := TrainPhase | ValPhase | TestPhase.

(** What the user answers at a [pdb] prompt. *)
Inductive dbg_command : Type := Continue | Quit.

(** What happens within one batch, in order: the calls of the collaborators,
    the breakpoint, and the thresholding of the projected labels. *)
Inductive bevent : Type :=
  | PredictedField
  | Warped
  | Breakpoint
  | ThresholdedProjectedLabels
  | MetricComputed
  | Plotted
  | LossComputed
  | OptimizerStepped.

(** [(i % plot_freq) == plot_freq - 1] *)
Definition shall_plot_at (iter_idx plot_freq : Z) : result bool :=
  if plot_freq =? 0 then Raise ZeroDivisionError
  else Ok (iter_idx mod plot_freq =? plot_freq - 1).

(** [int(a // b)] *)
Definition floordiv (a b : Z) : result Z :=
  if b =? 0 then Raise ZeroDivisionError else Ok (a / b).

(** The unannotated and the annotated images and labels of a batch: the two
    views of a sample in weak mode, view 1 of the permuted batch as the
    annotated side in strong mode. *)
Record pair : Type := mk_pair {
  unannotated_images : tensor float;
  unannotated_labels : labels;
  annotated_images : tensor float;
  annotated_labels : labels
}.

Definition select_pair (strong : bool) (permuted_idx : list nat) (b : batch) : result pair :=
  if negb strong then
    Ok (mk_pair (select_view 0 (image_n_view b))
                (label_select_view 0 (label_n_view b))
                (select_view 1 (image_n_view b))
                (label_select_view 1 (label_n_view b)))
  else
    permuted_images ← index_rows (image_n_view b) permuted_idx;
    permuted_labels ← label_index_rows (label_n_view b) permuted_idx;
    Ok (mk_pair (select_view 0 (image_n_view b))
                (label_select_view 0 (label_n_view b))
                (select_view 1 permuted_images)
                (label_select_view 1 permuted_labels)).

(** The labels as floats; binary labels are checked and thresholded. *)
Definition binarize (label_is_binary : bool) (annotated_labels unannotated_labels : tensor float)
  : result (tensor float * tensor float) :=
  if label_is_binary then
    m ← tensor_max annotated_labels;
    py_assert (eqb m zero || eqb m one) ;;
    Ok (threshold annotated_labels, threshold unannotated_labels)
  else Ok (annotated_labels, unannotated_labels).

Record iteration_result : Type := mk_iteration_result {
  loss : float;
  loss_forward : float;
  loss_cyclic : float;
  metric_ref : list float;
  metric_seg : list float;
  metric_name : string;
  curr_batch_size : nat
}.

(** The running sums of an epoch phase. *)
Record totals : Type := mk_totals {
  total_loss : float;
  total_forward : float;
  total_cyclic : float;
  metric_ref_list : list float;
  metric_seg_list : list float;
  last_metric_name : option string
}.

(** What the validation phase of an epoch computes. *)
Record validation : Type := mk_validation {
  val_loss : float;
  val_loss_forward : float;
  val_loss_cyclic : float;
  val_metric_name : string;
  val_totals : totals
}.

Section Trainer.
(** The model with its optimizer and scheduler, its saved form, and the
    state of the early stopper. *)
Variable TS : Type.
Variable Weights : Type.
Variable ES : Type.

(** What [train] and [test] call outside this file. *)
Record collaborators : Type := mk_collaborators {
  state_dict : TS -> Weights;
  load_state_dict : TS -> Weights -> TS;
  (** [globals()[config.DiffeoMappingNet_model](...)]: [None] when the name
      or the constructor fails. *)
  init_model : config -> option TS;
  (** The forward pass, in training or in evaluation mode. *)
  warp_predictor : bool -> TS -> tensor float -> result (tensor float);
  warper : tensor float -> tensor float -> result (tensor float);
  mse_loss : tensor float -> tensor float -> result float;
  dice_coeff : sample float -> sample float -> result float;
  l1 : sample float -> sample float -> result float;
  plot_side_by_side :
    phase -> Z -> Z -> bool -> list (tensor float) -> string -> result unit;
  (** [optimizer.zero_grad(); loss.backward(); optimizer.step()] for the
      loss of the annotated and unannotated images. *)
  optimizer_step : TS -> tensor float -> tensor float -> TS;
  scheduler_step : TS -> TS;
  (** The sum of two float32 losses, and Python's float arithmetic. *)
  tensor_add : float -> float -> float;
  fadd : float -> float -> float;
  fmul : float -> float -> float;
  fdiv : float -> float -> float;
  (** [utils.early_stop.EarlyStopping] *)
  EarlyStopping : string -> Z -> bool -> ES;
  es_step : ES -> float -> ES * bool;
  (** The loaders of [prepare_dataset], by epoch, and the sizes of their
      datasets. *)
  train_loader : Z -> list batch;
  val_loader : Z -> list batch;
  train_dataset_len : Z;
  val_dataset_len : Z;
  test_set : list test_batch;
  (** [np.random.permutation(n)] in a phase, epoch and iteration. *)
  np_random_permutation : phase -> Z -> Z -> nat -> list nat
}.

Variable env : collaborators.

(** The state within a batch. *)
Record bstate : Type := mk_bstate {
  ts : TS;
  dbg : list dbg_command;
  btrace : list bevent
}.

Abbreviation B := (ST bstate).

Definition bemit (e : bevent) : B unit :=
  fun s => (mk_bstate (ts s) (dbg s) (btrace s ++ [e]), Ok tt).

(** A call of a collaborator. *)
Definition call {A : Type} (e : bevent) (r : result A) : B A :=
  bemit e ;; lift r.

Definition get_ts : B TS := fun s => (s, Ok (ts s)).
Definition set_ts (m : TS) : B unit :=
  fun s => (mk_bstate m (dbg s) (btrace s), Ok tt).

(** [import pdb; pdb.set_trace()]: the run goes on when the user continues;
    it ends with [BdbQuit] when the user quits or the input is at its end. *)
Definition pdb_set_trace : B unit :=
  fun s =>
    match dbg s with
    | Continue :: rest => (mk_bstate (ts s) rest (btrace s ++ [Breakpoint]), Ok tt)
    | Quit :: rest => (mk_bstate (ts s) rest (btrace s ++ [Breakpoint]), Raise BdbQuit)
    | [] => (mk_bstate (ts s) [] (btrace s ++ [Breakpoint]), Raise BdbQuit)
    end.

(** The field of the pair and the three warps. *)
Record warps : Type := mk_warps {
  images_U2A : tensor float;
  images_U2A_A2U : tensor float;
  labels_A2U : tensor float
}.

Definition predict_and_warp (training : bool)
    (annotated_images unannotated_images annotated_labels : tensor float) : B warps :=
  x ← lift (cat_dim1 annotated_images unannotated_images);
  m ← get_ts;
  warp_predicted ← call PredictedField (warp_predictor env training m x);
  let warp_field_forward := channels_upto_2 warp_predicted in
  let warp_field_reverse := channels_from_2 warp_predicted in
  images_U2A ← call Warped (warper env unannotated_images warp_field_forward);
  images_U2A_A2U ← call Warped (warper env images_U2A warp_field_reverse);
  labels_A2U ← call Warped (warper env annotated_labels warp_field_reverse);
  mret (mk_warps images_U2A images_U2A_A2U labels_A2U).

(** The reference and the registered metric of every sample. *)
Definition compute_metrics (metric : sample float -> sample float -> result float)
    (annotated_labels unannotated_labels labels_A2U : tensor float)
  : B (list (float * float)) :=
  forM (seq 0 (length labels_A2U))
       (fun i =>
          a ← lift (index_row annotated_labels i);
          u ← lift (index_row unannotated_labels i);
          ref ← call MetricComputed (metric a u);
          p ← lift (index_row labels_A2U i);
          u' ← lift (index_row unannotated_labels i);
          seg ← call MetricComputed (metric p u');
          mret (ref, seg)).

Definition compute_loss (annotated_images unannotated_images images_U2A images_U2A_A2U
                         : tensor float) : B (float * float * float) :=
  loss_forward ← call LossComputed (mse_loss env annotated_images images_U2A);
  loss_cyclic ← call LossComputed (mse_loss env unannotated_images images_U2A_A2U);
  mret (tensor_add env loss_forward loss_cyclic, loss_forward, loss_cyclic).

(** One iteration of the training loop. *)
Definition train_iteration (cfg : config) (plot_freq epoch_idx iter_idx : Z)
    (permuted_idx : list nat) (b : batch) : B iteration_result :=
  lift (py_assert (shape_1 (image_n_view b) =? 2)%nat) ;;
  let curr_batch_size := length (image_n_view b) in
  shall_plot ← lift (shall_plot_at iter_idx plot_freq);
  p ← lift (select_pair (strong cfg) permuted_idx b);
  let label_is_binary := negb (is_floating_point (annotated_labels p)) in
  lab ← lift (binarize label_is_binary (to_float (annotated_labels p))
                       (to_float (unannotated_labels p)));
  let annotated_labels := fst lab in
  let unannotated_labels := snd lab in
  w ← predict_and_warp true (annotated_images p) (unannotated_images p) annotated_labels;
  pdb_set_trace ;;
  labels_A2U ←
    (if label_is_binary
     then bemit ThresholdedProjectedLabels ;; mret (threshold (labels_A2U w))
     else mret (labels_A2U w));
  let metric_name := if label_is_binary then "DSC" else "L1" in
  let metric := if label_is_binary then dice_coeff env else l1 env in
  metrics ← compute_metrics metric annotated_labels unannotated_labels labels_A2U;
  (if (shall_plot : bool)
   then call Plotted
          (plot_side_by_side env TrainPhase epoch_idx iter_idx label_is_binary
             [unannotated_images p; annotated_images p; images_U2A_A2U w; images_U2A w;
              unannotated_labels; annotated_labels; labels_A2U]
             (if label_is_binary then "DSC" else "L1"))
   else mret tt) ;;
  l ← compute_loss (annotated_images p) (unannotated_images p)
                   (images_U2A w) (images_U2A_A2U w);
  m ← get_ts;
  bemit OptimizerStepped ;;
  set_ts (optimizer_step env m (annotated_images p) (unannotated_images p)) ;;
  mret (mk_iteration_result (fst (fst l)) (snd (fst l)) (snd l)
          (map fst metrics) (map snd metrics) metric_name curr_batch_size).

(** One iteration of the validation loop. *)
Definition val_iteration (cfg : config) (plot_freq epoch_idx iter_idx : Z)
    (permuted_idx : list nat) (b : batch) : B iteration_result :=
  lift (py_assert (shape_1 (image_n_view b) =? 2)%nat) ;;
  let curr_batch_size := length (image_n_view b) in
  shall_plot ← lift (shall_plot_at iter_idx plot_freq);
  p ← lift (select_pair (strong cfg) permuted_idx b);
  let label_is_binary := negb (is_floating_point (annotated_labels p)) in
  lab ← lift (binarize label_is_binary (to_float (annotated_labels p))
                       (to_float (unannotated_labels p)));
  let annotated_labels := fst lab in
  let unannotated_labels := snd lab in
  w ← predict_and_warp false (annotated_images p) (unannotated_images p) annotated_labels;
  labels_A2U ←
    (if label_is_binary
     then bemit ThresholdedProjectedLabels ;; mret (threshold (labels_A2U w))
     else mret (labels_A2U w));
  let metric_name := if label_is_binary then "DSC" else "L1" in
  let metric := if label_is_binary then dice_coeff env else l1 env in
  metrics ← compute_metrics metric annotated_labels unannotated_labels labels_A2U;
  (if (shall_plot : bool)
   then call Plotted
          (plot_side_by_side env ValPhase epoch_idx iter_idx label_is_binary
             [unannotated_images p; annotated_images p; images_U2A_A2U w; images_U2A w;
              unannotated_labels; annotated_labels; labels_A2U]
             (if label_is_binary then "IoU" else "L1"))
   else mret tt) ;;
  l ← compute_loss (annotated_images p) (unannotated_images p)
                   (images_U2A w) (images_U2A_A2U w);
  mret (mk_iteration_result (fst (fst l)) (snd (fst l)) (snd l)
          (map fst metrics) (map snd metrics) metric_name curr_batch_size).

(** One iteration of the loop of [test]: the name [label_is_binary] is
    bound nowhere in [test]. *)
Definition test_iteration (plot_freq iter_idx : Z) (b : test_batch)
  : B (float * float * float * list (float * float)) :=
  shall_plot ← lift (shall_plot_at iter_idx plot_freq);
  let annotated_labels := threshold (to_float (test_annotated_labels b)) in
  let unannotated_labels := threshold (to_float (test_unannotated_labels b)) in
  w ← predict_and_warp false (test_annotated_images b) (test_unannotated_images b)
                       annotated_labels;
  metrics ← compute_metrics (dice_coeff env) annotated_labels unannotated_labels (labels_A2U w);
  (if (shall_plot : bool) then lift (Raise (NameError "label_is_binary")) else mret tt) ;;
  l ← compute_loss (test_annotated_images b) (test_unannotated_images b)
                   (images_U2A w) (images_U2A_A2U w);
  mret (l, metrics).

(** The loss in the words of the specification: the predictor on the
    concatenation of the annotated and the unannotated images, sample by
    sample the channels of the annotated image and after them those of the
    unannotated one; channels 0-1 of its output as the forward field and
    channels 2-3 as the reverse field; and the sum of the two mean squared
    errors. *)
Definition cyclic_loss (training : bool) (m : TS)
    (annotated_images unannotated_images : tensor float) : result float :=
  let concatenated :=
    zip_with (fun annotated_channels unannotated_channels =>
                annotated_channels ++ unannotated_channels)
             annotated_images unannotated_images in
  warp_predicted ← warp_predictor env training m concatenated;
  let forward_field := map (take 2) warp_predicted in
  let reverse_field := map (drop 2) warp_predicted in
  U2A ← warper env unannotated_images forward_field;
  U2A2U ← warper env U2A reverse_field;
  forward ← mse_loss env annotated_images U2A;
  cyclic ← mse_loss env unannotated_images U2A2U;
  Ok (tensor_add env forward cyclic).

(** What [train] and [test] leave behind, in order. *)
Inductive tevent : Type :=
  | InBatch (ph : phase) (epoch_idx iter_idx : Z) (e : bevent)
  | SchedulerStepped
  | LogTrain (epoch : Z) (loss forward cyclic : float) (metric_name : string)
             (refs segs : list float)
  | LogValidation (epoch : Z) (loss forward cyclic : float) (metric_name : string)
                  (refs segs : list float)
  | SavedWeights (path : string) (w : Weights)
  | LogSaved
  | LogEarlyStop
  | LogTest (loss forward cyclic : float) (refs segs : list float).

(** The state of a run: the model, the pending debugger input, the trace,
    and the checkpoint files by path. *)
Record estate : Type := mk_estate {
  model : TS;
  debugger : list dbg_command;
  trace : list tevent;
  checkpoints : gmap string Weights
}.

Abbreviation E := (ST estate).

Definition eemit (e : tevent) : E unit :=
  fun s => (mk_estate (model s) (debugger s) (trace s ++ [e]) (checkpoints s), Ok tt).

(** A batch within a run. *)
Definition run_batch {A : Type} (ph : phase) (epoch_idx iter_idx : Z) (c : B A) : E A :=
  fun s =>
    let '(bs, r) := c (mk_bstate (model s) (debugger s) []) in
    (mk_estate (ts bs) (dbg bs)
               (trace s ++ map (InBatch ph epoch_idx iter_idx) (btrace bs))
               (checkpoints s), r).

(** [warp_predictor.save_weights(path)] *)
Definition save_weights (path : string) : E unit :=
  fun s =>
    (mk_estate (model s) (debugger s)
               (trace s ++ [SavedWeights path (state_dict env (model s))])
               (<[path := state_dict env (model s)]> (checkpoints s)), Ok tt).

(** [lr_scheduler.step()] *)
Definition lr_scheduler_step : E unit :=
  fun s =>
    (mk_estate (scheduler_step env (model s)) (debugger s)
               (trace s ++ [SchedulerStepped]) (checkpoints s), Ok tt).

Definition zero_totals (name : option string) : totals :=
  mk_totals zero zero zero [] [] name.

(** [total += loss.item() * curr_batch_size] and the growth of the lists. *)
Definition accumulate (acc : totals) (r : iteration_result) : totals :=
  let n := of_int (Z.of_nat (curr_batch_size r)) in
  mk_totals (fadd env (total_loss acc) (fmul env (loss r) n))
            (fadd env (total_forward acc) (fmul env (loss_forward r) n))
            (fadd env (total_cyclic acc) (fmul env (loss_cyclic r) n))
            (metric_ref_list acc ++ metric_ref r)
            (metric_seg_list acc ++ metric_seg r)
            (Some (metric_name r)).

(** [total /= n] *)
Definition divide (x : float) (n : Z) : result float :=
  if n =? 0 then Raise ZeroDivisionError else Ok (fdiv env x (of_int n)).

Fixpoint train_batches (cfg : config) (plot_freq epoch_idx iter_idx : Z)
    (batches : list batch) (acc : totals) : E totals :=
  match batches with
  | [] => mret acc
  | b :: rest =>
      r ← run_batch TrainPhase epoch_idx iter_idx
            (train_iteration cfg plot_freq epoch_idx iter_idx
               (np_random_permutation env TrainPhase epoch_idx iter_idx (length (image_n_view b)))
               b);
      train_batches cfg plot_freq epoch_idx (iter_idx + 1) rest (accumulate acc r)
  end.

Fixpoint val_batches (cfg : config) (plot_freq epoch_idx iter_idx : Z)
    (batches : list batch) (acc : totals) : E totals :=
  match batches with
  | [] => mret acc
  | b :: rest =>
      r ← run_batch ValPhase epoch_idx iter_idx
            (val_iteration cfg plot_freq epoch_idx iter_idx
               (np_random_permutation env ValPhase epoch_idx iter_idx (length (image_n_view b)))
               b);
      val_batches cfg plot_freq epoch_idx (iter_idx + 1) rest (accumulate acc r)
  end.

Definition bound_name (name : option string) : result string :=
  match name with
  | Some n => Ok n
  | None => Raise (UnboundLocalError "metric_name")
  end.

(** The training phase of an epoch, with its log line. *)
Definition train_phase (cfg : config) (epoch_idx : Z) (name : option string) : E totals :=
  plot_freq ← lift (floordiv (Z.of_nat (length (train_loader env epoch_idx)))
                             (n_plot_per_epoch cfg));
  tot ← train_batches cfg plot_freq epoch_idx 0 (train_loader env epoch_idx) (zero_totals name);
  train_loss ← lift (divide (total_loss tot) (train_dataset_len env));
  train_loss_forward ← lift (divide (total_forward tot) (train_dataset_len env));
  train_loss_cyclic ← lift (divide (total_cyclic tot) (train_dataset_len env));
  lr_scheduler_step ;;
  metric_name ← lift (bound_name (last_metric_name tot));
  eemit (LogTrain (epoch_idx + 1) train_loss train_loss_forward train_loss_cyclic metric_name
                  (metric_ref_list tot) (metric_seg_list tot)) ;;
  mret tot.

(** The validation phase of an epoch, up to its log line. *)
Definition val_phase (cfg : config) (epoch_idx : Z) (name : option string) : E validation :=
  plot_freq ← lift (floordiv (Z.of_nat (length (val_loader env epoch_idx)))
                             (n_plot_per_epoch cfg));
  vtot ← val_batches cfg plot_freq epoch_idx 0 (val_loader env epoch_idx) (zero_totals name);
  val_loss ← lift (divide (total_loss vtot) (val_dataset_len env));
  val_loss_forward ← lift (divide (total_forward vtot) (val_dataset_len env));
  val_loss_cyclic ← lift (divide (total_cyclic vtot) (val_dataset_len env));
  metric_name ← lift (bound_name (last_metric_name vtot));
  mret (mk_validation val_loss val_loss_forward val_loss_cyclic metric_name vtot).

(** The body of the epoch loop up to the validation log: the validation loss
    and the metric name left in scope. *)
Definition run_epoch (cfg : config) (epoch_idx : Z) (name : option string)
  : E (float * option string) :=
  tot ← train_phase cfg epoch_idx name;
  v ← val_phase cfg epoch_idx (last_metric_name tot);
  eemit (LogValidation (epoch_idx + 1) (val_loss v) (val_loss_forward v) (val_loss_cyclic v)
                       (val_metric_name v)
                       (metric_ref_list (val_totals v)) (metric_seg_list (val_totals v))) ;;
  mret (val_loss v, last_metric_name (val_totals v)).

(** The epoch loop. *)
Fixpoint train_epochs (cfg : config) (epochs : list Z) (best_val_loss : float)
    (early_stopper : ES) (name : option string) : E unit :=
  match epochs with
  | [] => mret tt
  | epoch_idx :: rest =>
      r ← run_epoch cfg epoch_idx name;
      let val_loss := fst r in
      best_val_loss' ←
        (if ltb val_loss best_val_loss
         then save_weights (DiffeoMappingNet_model_save_path cfg) ;;
              eemit LogSaved ;;
              mret val_loss
         else mret best_val_loss);
      let stepped := es_step env early_stopper val_loss in
      if snd stepped
      then eemit LogEarlyStop
      else train_epochs cfg rest best_val_loss' (fst stepped) (snd r)
  end.

(** [range(n)] *)
Definition range (n : Z) : list Z := map Z.of_nat (seq 0 (Z.to_nat n)).

Definition build_model (cfg : config) : E unit :=
  fun s =>
    match init_model env cfg with
    | Some m => (mk_estate m (debugger s) (trace s) (checkpoints s), Ok tt)
    | None => (s, Raise (ValueError "`config.DiffeoMappingNet_model` not supported."))
    end.

Definition train (cfg : config) : E unit :=
  build_model cfg ;;
  train_epochs cfg (range (max_epochs cfg)) inf
               (EarlyStopping env "min" (patience cfg) false) None.

(** [warp_predictor.load_weights(path)] *)
Definition load_weights (path : string) : E unit :=
  fun s =>
    match checkpoints s !! path with
    | Some w => (mk_estate (load_state_dict env (model s) w) (debugger s) (trace s) (checkpoints s),
                 Ok tt)
    | None => (s, Raise FileNotFoundError)
    end.

Fixpoint test_batches (plot_freq iter_idx : Z) (batches : list test_batch)
    (acc : float * float * float * list (float * float))
  : E (float * float * float * list (float * float)) :=
  match batches with
  | [] => mret acc
  | b :: rest =>
      r ← run_batch TestPhase 0 iter_idx (test_iteration plot_freq iter_idx b);
      let l := fst r in
      test_batches plot_freq (iter_idx + 1) rest
        (fadd env (fst (fst (fst acc))) (fst (fst l)),
         fadd env (snd (fst (fst acc))) (snd (fst l)),
         fadd env (snd (fst acc)) (snd l),
         snd acc ++ snd r)
  end.

Definition test (cfg : config) (n_plot_per_epoch : option Z) : E unit :=
  build_model cfg ;;
  load_weights (DiffeoMappingNet_model_save_path cfg) ;;
  plot_freq ←
    match n_plot_per_epoch with
    | Some n => lift (floordiv (Z.of_nat (length (test_set env))) n)
    | None => mret 1
    end;
  tot ← test_batches plot_freq 0 (test_set env) (zero, zero, zero, []);
  match test_set env with
  | [] => lift (Raise (UnboundLocalError "iter_idx"))
  | _ :: _ => mret tt
  end ;;
  let n := Z.of_nat (length (test_set env)) in
  test_loss ← lift (divide (fst (fst (fst tot))) n);
  test_loss_forward ← lift (divide (snd (fst (fst tot))) n);
  test_loss_cyclic ← lift (divide (snd (fst tot)) n);
  eemit (LogTest test_loss test_loss_forward test_loss_cyclic
                 (map fst (snd tot)) (map snd (snd tot))).

End Trainer.

Arguments mk_collaborators {TS Weights ES}.
Arguments state_dict {TS Weights ES}.
Arguments load_state_dict {TS Weights ES}.
Arguments init_model {TS Weights ES}.
Arguments warp_predictor {TS Weights ES}.
Arguments warper {TS Weights ES}.
Arguments mse_loss {TS Weights ES}.
Arguments dice_coeff {TS Weights ES}.
Arguments l1 {TS Weights ES}.
Arguments plot_side_by_side {TS Weights ES}.
Arguments optimizer_step {TS Weights ES}.
Arguments scheduler_step {TS Weights ES}.
Arguments tensor_add {TS Weights ES}.
Arguments fadd {TS Weights ES}.
Arguments fmul {TS Weights ES}.
Arguments fdiv {TS Weights ES}.
Arguments EarlyStopping {TS Weights ES}.
Arguments es_step {TS Weights ES}.
Arguments train_loader {TS Weights ES}.
Arguments val_loader {TS Weights ES}.
Arguments train_dataset_len {TS Weights ES}.
Arguments val_dataset_len {TS Weights ES}.
Arguments test_set {TS Weights ES}.
Arguments np_random_permutation {TS Weights ES}.
Arguments mk_bstate {TS}.
Arguments ts {TS}.
Arguments dbg {TS}.
Arguments btrace {TS}.
Arguments bemit {TS}.
Arguments call {TS A}.
Arguments get_ts {TS}.
Arguments set_ts {TS}.
Arguments pdb_set_trace {TS}.
Arguments predict_and_warp {TS Weights ES}.
Arguments compute_metrics {TS}.
Arguments compute_loss {TS Weights ES}.
Arguments train_iteration {TS Weights ES}.
Arguments val_iteration {TS Weights ES}.
Arguments test_iteration {TS Weights ES}.
Arguments cyclic_loss {TS Weights ES}.
Arguments InBatch {Weights}.
Arguments SchedulerStepped {Weights}.
Arguments LogTrain {Weights}.
Arguments LogValidation {Weights}.
Arguments SavedWeights {Weights}.
Arguments LogSaved {Weights}.
Arguments LogEarlyStop {Weights}.
Arguments LogTest {Weights}.
Arguments mk_estate {TS Weights}.
Arguments model {TS Weights}.
Arguments debugger {TS Weights}.
Arguments trace {TS Weights}.
Arguments checkpoints {TS Weights}.
Arguments eemit {TS Weights}.
Arguments run_batch {TS Weights A}.
Arguments save_weights {TS Weights ES}.
Arguments lr_scheduler_step {TS Weights ES}.
Arguments accumulate {TS Weights ES}.
Arguments divide {TS Weights ES}.
Arguments train_batches {TS Weights ES}.
Arguments val_batches {TS Weights ES}.
Arguments run_epoch {TS Weights ES}.
Arguments train_epochs {TS Weights ES}.
Arguments build_model {TS Weights ES}.
Arguments train {TS Weights ES}.
Arguments load_weights {TS Weights ES}.
Arguments test_batches {TS Weights ES}.
Arguments test {TS Weights ES}.

Arguments train_phase {TS Weights ES}.
Arguments val_phase {TS Weights ES}.

(** The events of an epoch before its validation log. *)
Definition in_epoch_body {Weights : Type} (e : tevent Weights) : Prop :=
  match e with
  | InBatch _ _ _ _ | SchedulerStepped | LogTrain _ _ _ _ _ _ _ => True
  | _ => False
  end.

(** The least validation loss so far, as the loop keeps it: infinity before
    the first epoch. *)
Definition running_best (prev : list float) : float :=
  fold_left (fun best v => if ltb v best then v else best) prev inf.

(** The epoch loop in the words of the specification.  [prev] holds the
    validation losses of the epochs before; the trace of an epoch is the
    events of its two phases, its validation log with the loss [v], the save
    of the weights and its log line if [v] is below the running best, and the
    line of the early stop if the early stopper, fed [v], says so, which ends
    the loop.  The checkpoint files change at a save and nowhere else. *)
Inductive epoch_runs {Weights ES : Type} (path : string) (es_step : ES -> float -> ES * bool)
  : list float -> ES -> list Z -> list (tevent Weights) ->
    gmap string Weights -> gmap string Weights -> result unit -> Prop :=
  | loop_ends prev es ck :
      epoch_runs path es_step prev es [] [] ck ck (Ok tt)
  | epoch_raises prev es epoch_idx rest body e ck :
      Forall in_epoch_body body ->
      epoch_runs path es_step prev es (epoch_idx :: rest) body ck ck (Raise e)
  | epoch_stops prev es epoch_idx rest body v vf vc name refs segs w ck :
      Forall in_epoch_body body ->
      snd (es_step es v) = true ->
      epoch_runs path es_step prev es (epoch_idx :: rest)
        (body ++ [LogValidation (epoch_idx + 1) v vf vc name refs segs]
              ++ (if ltb v (running_best prev) then [SavedWeights path w; LogSaved] else [])
              ++ [LogEarlyStop])
        ck (if ltb v (running_best prev) then <[path := w]> ck else ck) (Ok tt)
  | epoch_goes_on prev es epoch_idx rest body v vf vc name refs segs w tr ck ck' r :
      Forall in_epoch_body body ->
      snd (es_step es v) = false ->
      epoch_runs path es_step (prev ++ [v]) (fst (es_step es v)) rest tr
        (if ltb v (running_best prev) then <[path := w]> ck else ck) ck' r ->
      epoch_runs path es_step prev es (epoch_idx :: rest)
        (body ++ [LogValidation (epoch_idx + 1) v vf vc name refs segs]
              ++ (if ltb v (running_best prev) then [SavedWeights path w; LogSaved] else [])
              ++ tr)
        ck ck' r.

(** A computation of a run that writes no checkpoint and whose events all
    satisfy [P], whether it returns or raises. *)
Definition logs_only {TS Weights A : Type} (P : tevent Weights -> Prop)
    (c : ST (estate TS Weights) A) : Prop :=
  forall s s' r, c s = (s', r) ->
    checkpoints s' = checkpoints s /\
    exists evs, trace s' = trace s ++ evs /\ Forall P evs.

Definition field_or_warp (e : bevent) : Prop := e = PredictedField \/ e = Warped.

(** A stretch of a batch that adds [evs] to the trace and leaves the
    debugger input as it is. *)
Definition steps {TS : Type} (s s' : bstate TS) (evs : list bevent) : Prop :=
  dbg s' = dbg s /\ btrace s' = btrace s ++ evs.

(** A batch computation that never reads the debugger input and whose events
    all satisfy [P], whether it returns or raises. *)
Definition emits_only {TS A : Type} (P : bevent -> Prop) (c : ST (bstate TS) A) : Prop :=
  forall s s' r, c s = (s', r) -> exists evs, steps s s' evs /\ Forall P evs.

(** A computation within a batch that leaves the model as it is, whether it
    returns or raises. *)
Definition keeps_model {TS A : Type} (c : ST (bstate TS) A) : Prop :=
  forall s s' r, c s = (s', r) -> ts s' = ts s.

(** The events between the warps and the losses of an iteration. *)
Definition label_work (e : bevent) : Prop :=
  e = ThresholdedProjectedLabels \/ e = MetricComputed \/ e = Plotted.

(** The events after the breakpoint of a training iteration. *)
Definition after_breakpoint (e : bevent) : Prop :=
  e = ThresholdedProjectedLabels \/ e = MetricComputed \/ e = Plotted \/
  e = LossComputed \/ e = OptimizerStepped.

(** A small instance of the collaborators, for the examples: a warper that
    returns its image, a predictor that returns its input as the field, a
    loss that reads the first element of its first argument, rational
    arithmetic, and an early stopper that stops in the third epoch. *)
Definition rational_op (f : Q -> Q -> Q) (a b : float) : float :=
  match a, b with
  | FNum p, FNum q => FNum (f p q)
  | _, _ => FNaN
  end.

Definition example_env (train_batches val_batches : Z -> list batch)
  : collaborators nat nat nat :=
  {| state_dict := fun m => m;
     load_state_dict := fun _ w => w;
     init_model := fun _ => Some O;
     warp_predictor := fun _ _ x => Ok x;
     warper := fun img _ => Ok img;
     mse_loss := fun a _ => Ok (hd zero (elements a));
     dice_coeff := fun _ _ => Ok one;
     l1 := fun _ _ => Ok zero;
     plot_side_by_side := fun _ _ _ _ _ _ => Ok tt;
     optimizer_step := fun m _ _ => S m;
     scheduler_step := fun m => m;
     tensor_add := rational_op Qplus;
     fadd := rational_op Qplus;
     fmul := rational_op Qmult;
     fdiv := rational_op Qdiv;
     EarlyStopping := fun _ _ _ => O;
     es_step := fun n _ => (S n, (2 <=? n)%nat);
     train_loader := train_batches;
     val_loader := val_batches;
     train_dataset_len := 1;
     val_dataset_len := 1;
     test_set := [];
     np_random_permutation := fun _ _ _ n => seq 0 n |}.

(** A batch of one sample with one channel of one row: the images and the
    integer labels of its two views. *)
Definition example_batch (image0 image1 : list float) (label0 label1 : list Z) : batch :=
  mk_batch [[ [[image0]]; [[image1]] ]] (VInt [[ [[label0]]; [[label1]] ]]).

Definition example_config : config :=
  mk_config false 3 1 50 "UNet" "checkpoints/DiffeoMappingNet.ckpt".

(** A second instance, whose loss tells the two images of the concatenation
    and the two halves of the field apart.  Its predictor takes two
    channels [a] and [u] and returns the four channels [a], [u], [a + u]
    and [a * u]; its warper adds to every channel of the image the first
    channel of the field and twice the second; its loss is the mean of the
    squared differences. *)
Definition plane_op (f : Q -> Q -> Q) (p q : plane float) : plane float :=
  zip_with (zip_with (rational_op (fun x y => Qred (f x y)))) p q.

Definition arithmetic_predictor (x : tensor float) : result (tensor float) :=
  mapM (fun channels : sample float =>
          match channels with
          | [a; u] => Ok [a; u; plane_op Qplus a u; plane_op Qmult a u]
          | _ => Raise RuntimeError
          end) x.

Definition additive_warper (img field : tensor float) : result (tensor float) :=
  if (length img =? length field)%nat
  then Ok (zip_with
             (fun (s f : sample float) =>
                let f0 := nth 0 f [] in
                let f1 := nth 1 f [] in
                map (fun c => plane_op Qplus (plane_op Qplus c f0) (plane_op Qplus f1 f1)) s)
             img field)
  else Raise RuntimeError.

Definition mean_squared_error (a b : tensor float) : result float :=
  let squares :=
    zip_with (fun x y => rational_op (fun p q => Qred ((p - q) * (p - q))) x y)
             (elements a) (elements b) in
  if (length (elements a) =? length (elements b))%nat
  then Ok (rational_op (fun p q => Qred (p / q))
                       (fold_left (rational_op Qplus) squares zero)
                       (of_int (Z.of_nat (length squares))))
  else Raise RuntimeError.

Definition arithmetic_env : collaborators nat nat nat :=
  {| state_dict := fun m => m;
     load_state_dict := fun _ w => w;
     init_model := fun _ => Some O;
     warp_predictor := fun _ _ x => arithmetic_predictor x;
     warper := additive_warper;
     mse_loss := mean_squared_error;
     dice_coeff := fun _ _ => Ok one;
     l1 := fun _ _ => Ok zero;
     plot_side_by_side := fun _ _ _ _ _ _ => Ok tt;
     optimizer_step := fun m _ _ => S m;
     scheduler_step := fun m => m;
     tensor_add := rational_op (fun p q => Qred (p + q));
     fadd := rational_op Qplus;
     fmul := rational_op Qmult;
     fdiv := rational_op Qdiv;
     EarlyStopping := fun _ _ _ => O;
     es_step := fun n _ => (S n, (2 <=? n)%nat);
     train_loader := fun _ => [];
     val_loader := fun _ => [];
     train_dataset_len := 1;
     val_dataset_len := 1;
     test_set := [];
     np_random_permutation := fun _ _ _ n => seq 0 n |}.

End Train.

(** ** Inference: [eval_stitched] and [infer] *)

Module Infer.
Import PyFloat Tensor.

(** An attribute of an object that may lack it. *)
Inductive attribute (A : Type) : Type :=
  | Has (a : A)
  | Lacks.
Arguments Has {A} a.
Arguments Lacks {A}.

Definition getattr {A : Type} (name : string) (a : attribute A) : result A :=
  match a with
  | Has x => Ok x
  | Lacks => Raise (AttributeError name)
  end.

(** The configuration as [infer] reads it.  What the argument parser and the
    entry point of the module set is there, [organ] with [None] for its
    default; the three attributes that they do not set may be lacking. *)
Record config : Type := mk_config {
  DiffeoMappingNet_model : string;
  DiffeoMappingNet_model_save_path : string;
  num_filters : Z;
  batch_size : Z;
  organ : option string;
  log_path : string;
  output_save_root : attribute string;
  matched_pair_path_root : attribute string;
  groudtruth_folder : attribute string
}.

(** What [load_match_pairs] returns: images [N, C, H, W], the labels of the
    test images [N, H, W] if there are any, the labels of the closest images
    held with their channel axis, and the paths of the test images. *)
Record match_pairs : Type := mk_match_pairs {
  test_images : tensor float;
  test_labels : option (list (plane float));
  closest_images : tensor float;
  closest_labels : tensor float;
  test_image_paths : list string
}.

(** One element of the [TensorDataset]. *)
Record row : Type := mk_row {
  closest_image : sample float;
  test_image : sample float;
  closest_label : sample float;
  test_label : option (plane float)
}.

(** [TensorDataset] of the tensors: they must agree on their first size. *)
Definition TensorDataset (mp : match_pairs) : result (list row) :=
  let n := length (closest_images mp) in
  py_assert ((length (test_images mp) =? n)%nat && (length (closest_labels mp) =? n)%nat &&
             match test_labels mp with
             | Some tl => (length tl =? n)%nat
             | None => true
             end) ;;
  Ok (zip_with (fun it lt => mk_row (fst it) (snd it) (fst lt) (snd lt))
        (zip (closest_images mp) (test_images mp))
        (zip (closest_labels mp)
             match test_labels mp with
             | Some tl => map Some tl
             | None => replicate n None
             end)).

Fixpoint chunks {X : Type} (fuel n : nat) (l : list X) : list (list X) :=
  match fuel, l with
  | O, _ | _, [] => []
  | S fuel', _ :: _ => take n l :: chunks fuel' n (drop n l)
  end.

(** [DataLoader(dataset, batch_size=n, shuffle=False)] *)
Definition DataLoader (dataset : list row) (n : Z) : result (list (list row)) :=
  if n <=? 0
  then Raise (ValueError "batch_size should be a positive integer value")
  else Ok (chunks (length dataset) (Z.to_nat n) dataset).

(** [(x > 0.5).astype(np.uint8)] *)
Definition binarize (x : sample float) : sample Z :=
  map (map (map (fun v => if gtb v half then 1 else 0))) x.

(** [d[key]] *)
Fixpoint dict_get (d : list (string * float)) (key : string) : result float :=
  match d with
  | [] => Raise (KeyError key)
  | (k, v) :: d' => if String.eqb k key then Ok v else dict_get d' key
  end.

(** The line of a stitched metric in the log. *)
Definition is_stitched_metric_log (e : event) : bool :=
  match e with
  | Log msg _ => String.prefix "[Eval] Stitched " msg
  | _ => false
  end.

(** [os.rmtree(folder)]: the files below the folder go. *)
Definition rmtree (folder : string) : IO unit :=
  fun w => (mk_world (filter (fun kv => String.prefix (folder +:+ "/") (fst kv) = false) (files w))
                     (events w ++ [Rmtree folder]), Ok tt).

(** A value that depends on the world. *)
Definition read {A : Type} (f : world -> result A) : IO A := fun w => (w, f w).

(** The sign of [plus or minus], in UTF-8. *)
Definition plus_minus : string :=
  String (ascii_of_nat 194) (String (ascii_of_nat 177) EmptyString).

Section Inference.
(** A network with its weights. *)
Variable Model : Type.

(** What a name of the global namespace of the module is bound to: a string,
    a class of networks, a loader of matched pairs, or another object, known
    by what [str] makes of it. *)
Inductive gvalue : Type :=
  | GStr (s : string)
  | GNet (build : Z -> Z -> Z -> result Model)
  | GLoadMatchPairs (load : string -> config -> result match_pairs)
  | GObject (str_ : string).

Definition namespace : Type := gmap string gvalue.

(** [v == s] for a string literal [s] *)
Definition is_str (v : gvalue) (s : string) : bool :=
  match v with
  | GStr s' => String.eqb s' s
  | _ => false
  end.

(** What the code leaves to its libraries and to the modules of the
    repository that it imports. *)
Record collaborators : Type := mk_collaborators {
  prepare_dataset : config -> result unit;
  path_exists : world -> string -> bool;
  load_weights : Model -> string -> result Model;
  warp_predictor : Model -> tensor float -> result (tensor float);
  warper : tensor float -> tensor float -> result (tensor float);
  (* what [cv2.imwrite] writes for the squeezed array *)
  as_image : sample Z -> result image;
  bgr2gray : Z * Z * Z -> Z;
  glob : gmap string image -> string -> list string;
  str_object : gvalue -> string;
  repr_paths : list string -> string;
  str_float : float -> string;
  format_3f : float -> string;
  Organ2FileID : option string -> result (list string);
  GLySAC_Organ2FileID : option string -> result (list string);
  compute_metrics : ndarray -> ndarray -> result (list (string * float));
  dice_coeff : sample Z -> sample Z -> result float;
  IoU : sample Z -> sample Z -> result float;
  np_mean : list float -> float;
  np_std : list float -> float;
  fadd : float -> float -> float;
  fdiv : float -> float -> float
}.

Variable env : collaborators.
(** The global namespace of the module when [infer] runs. *)
Variable g : namespace.

(** The value of a global name; none of the names looked up below is a
    built-in. *)
Definition lookup_global (name : string) : result gvalue :=
  match g !! name with
  | Some v => Ok v
  | None => Raise (NameError name)
  end.

(** [str(v)] *)
Definition str (v : gvalue) : string :=
  match v with
  | GStr s => s
  | _ => str_object env v
  end.

(** [cv2.imread(path, cv2.IMREAD_GRAYSCALE).shape]: the read gives [None]
    where there is no image. *)
Definition with_shape (a : option ndarray) : result ndarray :=
  match a with
  | Some x => Ok x
  | None => Raise (AttributeError "shape")
  end.

Definition eval_stitched (pred_folder true_folder : string) (organ : option string)
    (dataset_name : gvalue) : IO (list (string * float)) :=
  pred_list ← read (fun w => Ok (PyStr.sorted (glob env (files w) (pred_folder +:+ "/*.png"))));
  true_list ← read (fun w => Ok (PyStr.sorted (glob env (files w) (true_folder +:+ "/*.png"))));
  file_ids ← lift (if is_str dataset_name "MoNuSeg"
                   then ids ← Organ2FileID env organ; Ok (Some ids)
                   else if is_str dataset_name "GLySAC"
                   then ids ← GLySAC_Organ2FileID env organ; Ok (Some ids)
                   else Ok None);
  (* [file_ids] is read once per element of [true_list]; it is a
     [NameError] up to Python 3.11, its subclass [UnboundLocalError] after *)
  true_list ← lift (match true_list, file_ids with
                    | [], _ => Ok []
                    | _ :: _, None => Raise (NameError "file_ids")
                    | _ :: _, Some ids =>
                        Ok (List.filter
                              (fun x => existsb (fun file_id => PyStr.contains file_id x) ids)
                              true_list)
                    end);
  emit (Print ("pred_folder:  " +:+ pred_folder +:+ " " +:+ PyStr.nl +:+
               "true_folder:  " +:+ true_folder)) ;;
  emit (Print (PyStr.of_int (Z.of_nat (length pred_list)) +:+ " " +:+
               PyStr.of_int (Z.of_nat (length true_list)))) ;;
  lift (py_assert (length pred_list =? length true_list)%nat) ;;
  metric_list ←
    forM (zip pred_list true_list) (fun paths =>
      read (fun w =>
        let pred_label := Stitch.imread_grayscale (bgr2gray env) (files w) (fst paths) in
        let true_label := Stitch.imread_grayscale (bgr2gray env) (files w) (snd paths) in
        p ← with_shape pred_label;
        t ← with_shape true_label;
        py_assert ((nrows p =? nrows t) && (ncols p =? ncols t)) ;;
        compute_metrics env p t));
  first ← lift (index_row metric_list 0);
  forM (map fst first) (fun key =>
    values ← lift (mapM (fun i => dict_get i key) metric_list);
    mret (key, fdiv env (fold_left (fadd env) values zero)
                        (of_int (Z.of_nat (length metric_list))))).

(** [globals()[config.DiffeoMappingNet_model](...)] within its [try]. *)
Definition build_model (cfg : config) : result Model :=
  let unsupported :=
    ValueError ("`config.DiffeoMappingNet_model`: " +:+ DiffeoMappingNet_model cfg +:+
                " not supported.") in
  match g !! DiffeoMappingNet_model cfg with
  | Some (GNet build) =>
      match build (num_filters cfg) 6 4 with
      | Ok m => Ok m
      | Raise _ => Raise unsupported
      end
  | _ => Raise unsupported
  end.

(** The plot of a batch: [plot_side_by_side] takes ten arguments and is
    given eight. *)
Definition plot_batch (iter_idx : Z) (btest_images bclosest_images images_U2A_A2U images_U2A
    bclosest_labels pred_labels : tensor float) (btest_labels : list (option (plane float)))
  : result unit :=
  save_folder ← lookup_global "save_folder";
  let save_path_fig_sbs :=
    str save_folder +:+ "/infer/figure_sample" +:+
    PyStr.zfill 5 (PyStr.of_int iter_idx) +:+ ".png" in
  index_row btest_images 0 ;;
  index_row bclosest_images 0 ;;
  index_row images_U2A_A2U 0 ;;
  index_row images_U2A 0 ;;
  index_row btest_labels 0 ;;
  index_row bclosest_labels 0 ;;
  index_row pred_labels 0 ;;
  Raise TypeError.

(** The body of the inference loop: the predicted labels of a batch. *)
Definition infer_batch (m : Model) (has_test_labels : bool) (iter_idx : Z) (batch : list row)
  : result (list (sample float)) :=
  let bclosest_images := map closest_image batch in
  let btest_images := map test_image batch in
  let bclosest_labels := map closest_label batch in
  x ← cat_dim1 bclosest_images btest_images;
  warp_predicted ← warp_predictor env m x;
  let warp_field_forward := channels_upto_2 warp_predicted in
  let warp_field_reverse := channels_from_2 warp_predicted in
  images_U2A ← warper env btest_images warp_field_forward;
  images_U2A_A2U ← warper env images_U2A warp_field_reverse;
  pred_labels ← warper env bclosest_labels warp_field_reverse;
  let plot_freq := 10 in
  let shall_plot := iter_idx mod plot_freq =? 0 in
  (if shall_plot && has_test_labels
   then plot_batch iter_idx btest_images bclosest_images images_U2A_A2U images_U2A
                   bclosest_labels pred_labels (map test_label batch)
   else Ok tt) ;;
  Ok pred_labels.

Fixpoint infer_batches (m : Model) (has_test_labels : bool) (iter_idx : Z)
    (batches : list (list row)) (pred_label_list : list (sample float))
  : result (list (sample float)) :=
  match batches with
  | [] => Ok pred_label_list
  | batch :: rest =>
      bpred_label_list ← infer_batch m has_test_labels iter_idx batch;
      infer_batches m has_test_labels (iter_idx + 1) rest (pred_label_list ++ bpred_label_list)
  end.

(** What [infer] holds when it has predicted the labels. *)
Record predicted : Type := mk_predicted {
  pred_label_folder : string;
  pairs : match_pairs;
  pred_label_list : list (sample float)
}.

(** [infer] up to the end of its inference loop. *)
Definition predict (cfg : config) : IO predicted :=
  lift (prepare_dataset env cfg) ;;
  root ← lift (getattr "output_save_root" (output_save_root cfg));
  model_name ← lift (lookup_global "model_name");
  pred_label_folder ← lift (match model_name with
                            | GStr s => Ok (PyStr.path_join (PyStr.path_join root s) "pred_patches")
                            | _ => Raise TypeError
                            end);
  there ← read (fun w => Ok (path_exists env w pred_label_folder));
  (if (there : bool)
   then rmtree pred_label_folder ;; emit (Makedirs pred_label_folder)
   else emit (Makedirs pred_label_folder)) ;;
  m ← lift (build_model cfg);
  m ← lift (load_weights env m (DiffeoMappingNet_model_save_path cfg));
  load_match_pairs ← lift (lookup_global "load_match_pairs");
  pair_root ← lift (getattr "matched_pair_path_root" (matched_pair_path_root cfg));
  mp ← lift (match load_match_pairs with
             | GLoadMatchPairs load => load pair_root cfg
             | _ => Raise TypeError
             end);
  emit (Print ("=====test_image_path====:  " +:+ repr_paths env (take 10 (test_image_paths mp)))) ;;
  dataset ← lift (TensorDataset mp);
  dataloader ← lift (DataLoader dataset (batch_size cfg));
  emit (Print ("Starting inference for " +:+
               PyStr.of_int (Z.of_nat (length (test_images mp))) +:+ " test images ...")) ;;
  pred_label_list ←
    lift (infer_batches m (bool_decide (is_Some (test_labels mp))) 0 dataloader []);
  emit (Print "Completed inference.") ;;
  mret (mk_predicted pred_label_folder mp pred_label_list).

(** What [infer] holds when it reaches the evaluation of the stitched
    labels. *)
Record stitched : Type := mk_stitched {
  predictions : predicted;
  stitched_label_list : list ndarray;
  stitched_folder : string;
  test_label_folder : string
}.

(** The file of the predicted label of one patch. *)
Definition patch_file (p : predicted) (path : string) : string :=
  PyStr.path_join (pred_label_folder p) (PyStr.basename path).

(** The predicted labels go to disk and are stitched. *)
Definition write_and_stitch (cfg : config) (p : predicted) : IO stitched :=
  emit (Print "Saving pred labels to disk ...") ;;
  forM (imap (fun i x => (i, x)) (pred_label_list p)) (fun ix =>
    path ← lift (index_row (test_image_paths (pairs p)) (fst ix));
    let fname := patch_file p path in
    img ← lift (as_image env (binarize (snd ix)));
    imwrite fname img) ;;
  s ← Stitch.stitch_patches (bgr2gray env) (glob env) (pred_label_folder p) (1000, 1000);
  test_label_folder ← lift (getattr "groudtruth_folder" (groudtruth_folder cfg));
  mret (mk_stitched p (fst s) (snd s) test_label_folder).

(** [infer] up to the evaluation of the stitched labels. *)
Definition before_evaluation (cfg : config) : IO stitched :=
  p ← predict cfg;
  write_and_stitch cfg p.

(** The scores of the predicted labels against the labels of the test
    images. *)
Definition score_labels (cfg : config) (pred_label_list : list (sample float))
    (test_labels : list (plane float)) : IO unit :=
  lift (py_assert (length pred_label_list =? length test_labels)%nat) ;;
  emit (Print ("len(test_labels), len(pred_label_list):  " +:+
               PyStr.of_int (Z.of_nat (length test_labels)) +:+ " " +:+
               PyStr.of_int (Z.of_nat (length pred_label_list)))) ;;
  emit (Print ("Computing Dice Coeff for " +:+
               PyStr.of_int (Z.of_nat (length pred_label_list)) +:+ " total labels...")) ;;
  scores ← lift (mapM (fun ix =>
                         t ← index_row test_labels (fst ix);
                         d ← dice_coeff env (binarize [t]) (binarize (snd ix));
                         i ← IoU env (binarize [t]) (binarize (snd ix));
                         Ok (d, i))
                      (imap (fun i x => (i, x)) pred_label_list));
  let dice_list := map fst scores in
  let iou_list := map snd scores in
  emit (Log ("[Eval] Dice coeff (seg): " +:+ format_3f env (np_mean env dice_list) +:+ " " +:+
             plus_minus +:+ " " +:+ format_3f env (np_std env dice_list) +:+ ".")
            (Some (log_path cfg))) ;;
  emit (Log ("[Eval] IoU (seg): " +:+ format_3f env (np_mean env iou_list) +:+ " " +:+
             plus_minus +:+ " " +:+ format_3f env (np_std env iou_list) +:+ ".")
            (Some (log_path cfg))).

(** [infer] from the evaluation of the stitched labels on. *)
Definition evaluation (cfg : config) (s : stitched) : IO unit :=
  dataset_name ← lift (lookup_global "dataset_name");
  stitched_results ← eval_stitched (stitched_folder s) (test_label_folder s) (organ cfg)
                                   dataset_name;
  forM stitched_results (fun kv =>
    emit (Log ("[Eval] Stitched " +:+ fst kv +:+ ": " +:+ str_float env (snd kv))
              (Some (log_path cfg)))) ;;
  match test_labels (pairs (predictions s)) with
  | Some test_labels => score_labels cfg (pred_label_list (predictions s)) test_labels
  | None => mret tt
  end.

Definition infer (cfg : config) : IO unit :=
  s ← before_evaluation cfg;
  evaluation cfg s.

End Inference.

Arguments GStr {Model}.
Arguments GNet {Model}.
Arguments GLoadMatchPairs {Model}.
Arguments GObject {Model}.
Arguments is_str {Model}.
Arguments mk_collaborators {Model}.
Arguments prepare_dataset {Model}.
Arguments path_exists {Model}.
Arguments load_weights {Model}.
Arguments warp_predictor {Model}.
Arguments warper {Model}.
Arguments as_image {Model}.
Arguments bgr2gray {Model}.
Arguments glob {Model}.
Arguments str_object {Model}.
Arguments repr_paths {Model}.
Arguments str_float {Model}.
Arguments format_3f {Model}.
Arguments Organ2FileID {Model}.
Arguments GLySAC_Organ2FileID {Model}.
Arguments compute_metrics {Model}.
Arguments dice_coeff {Model}.
Arguments IoU {Model}.
Arguments np_mean {Model}.
Arguments np_std {Model}.
Arguments fadd {Model}.
Arguments fdiv {Model}.
Arguments lookup_global {Model}.
Arguments str {Model}.
Arguments eval_stitched {Model}.
Arguments build_model {Model}.
Arguments plot_batch {Model}.
Arguments infer_batch {Model}.
Arguments infer_batches {Model}.
Arguments predict {Model}.
Arguments write_and_stitch {Model}.
Arguments before_evaluation {Model}.
Arguments score_labels {Model}.
Arguments evaluation {Model}.
Arguments infer {Model}.

(** A computation that takes a world to one related to it by [R], whether
    it returns or raises. *)
Definition keeps {A : Type} (R : relation world) (c : IO A) : Prop :=
  forall w w' r, c w = (w', r) -> R w w'.

(** The events of [w'] are those of [w] and then some, none of them the
    line of a stitched metric. *)
Definition logs_no_metric (w w' : world) : Prop :=
  exists new, events w' = events w ++ new /\
              Forall (fun e => is_stitched_metric_log e = false) new.

(** The files of [w] are still there in [w']. *)
Definition files_stay (w w' : world) : Prop :=
  forall path, is_Some (files w !! path) -> is_Some (files w' !! path).

(** A run that reaches the evaluation: one test image without a label, a
    network that returns its input, a warper that returns its image, and a
    namespace as the entry point of the module leaves it, with a loader of
    matched pairs. *)
Definition plane_image (p : plane Z) : ndarray :=
  mk_ndarray (Z.of_nat (length p)) (Z.of_nat (length (hd [] p)))
             (fun i j => nth (Z.to_nat j) (nth (Z.to_nat i) p []) 0).

Definition example_env : collaborators nat :=
  {| prepare_dataset := fun _ => Ok tt;
     path_exists := fun _ _ => false;
     load_weights := fun m _ => Ok m;
     warp_predictor := fun _ x => Ok x;
     warper := fun img _ => Ok img;
     as_image := fun a => Ok (Gray (plane_image (hd [] a)));
     bgr2gray := fun bgr => snd (fst bgr);
     glob := fun fs pattern =>
       List.filter (String.prefix (String.substring 0 (String.length pattern - 5) pattern))
                   (map fst (map_to_list fs));
     str_object := fun _ => "<object>";
     repr_paths := fun _ => "[...]";
     str_float := fun _ => "0.0";
     format_3f := fun _ => "0.000";
     Organ2FileID := fun _ => Ok [];
     GLySAC_Organ2FileID := fun _ => Ok [];
     compute_metrics := fun _ _ => Ok [];
     dice_coeff := fun _ _ => Ok one;
     IoU := fun _ _ => Ok one;
     np_mean := fun _ => one;
     np_std := fun _ => zero;
     fadd := fun a _ => a;
     fdiv := fun a _ => a |}.

Definition example_pairs : match_pairs :=
  mk_match_pairs [[[[of_int 2]]]] None [[[[of_int 3]]]] [[[[one]]]] ["data/img_H0_W0.png"].

Definition example_globals : namespace nat :=
  <["model_name" := GStr "run"]>
  (<["UNet" := GNet (fun _ _ _ => Ok O)]>
  (<["load_match_pairs" := GLoadMatchPairs (fun _ _ => Ok example_pairs)]> ∅)).

Definition example_config : config :=
  mk_config "UNet" "checkpoints/run/DiffeoMappingNet.ckpt" 32 8 None "results/run/log.txt"
            (Has "results") (Has "pairs") (Has "labels").

(** The same collaborators on a disk with folders: a folder exists when a
    file lies below it; every organ has the one file identifier [img], and
    the metrics of a pair of images are one [iou] of 1. *)
Definition example_env_with_files : collaborators nat :=
  {| prepare_dataset := fun _ => Ok tt;
     path_exists := fun w folder =>
       existsb (String.prefix (folder +:+ "/")) (map fst (map_to_list (files w)));
     load_weights := fun m _ => Ok m;
     warp_predictor := fun _ x => Ok x;
     warper := fun img _ => Ok img;
     as_image := fun a => Ok (Gray (plane_image (hd [] a)));
     bgr2gray := fun bgr => snd (fst bgr);
     glob := fun fs pattern =>
       List.filter (String.prefix (String.substring 0 (String.length pattern - 5) pattern))
                   (map fst (map_to_list fs));
     str_object := fun _ => "<object>";
     repr_paths := fun _ => "[...]";
     str_float := fun _ => "1.0";
     format_3f := fun _ => "1.000";
     Organ2FileID := fun _ => Ok ["img"];
     GLySAC_Organ2FileID := fun _ => Ok ["img"];
     compute_metrics := fun _ _ => Ok [("iou", one)];
     dice_coeff := fun _ _ => Ok one;
     IoU := fun _ _ => Ok one;
     np_mean := fun _ => one;
     np_std := fun _ => zero;
     fadd := fun _ b => b;
     fdiv := fun a _ => a |}.

End Infer.

(** * Properties *)

(** Unfolding of the exception monad. *)
Ltac rsimpl := cbn [mbind result_bind mret result_ret fst snd].
Tactic Notation "rsimpl" "in" hyp(H) := cbn [mbind result_bind mret result_ret fst snd] in H.

(** ** The orientation matcher *)

Module FlipRotFacts.
Import FlipRot.

Section Planes.
Context {A : Type}.
Implicit Types (m : @plane A) (r : list A) (image : @tensor A).

Lemma transpose_length w m : length (transpose w m) = w.
Proof. revert m; induction w as [|w IH]; intros m; simpl; [reflexivity|]. now rewrite IH. Qed.

Lemma heads_rev m : heads (rev m) = rev (heads m).
Proof.
  unfold heads. induction m as [|r m IH]; simpl; [reflexivity|].
  rewrite flat_map_app, IH, rev_app_distr. simpl. rewrite app_nil_r.
  f_equal. destruct r as [|x [|y r]]; reflexivity.
Qed.

Lemma transpose_rev w m : transpose w (rev m) = map (@rev A) (transpose w m).
Proof.
  revert m; induction w as [|w IH]; intros m; simpl; [reflexivity|].
  rewrite heads_rev. f_equal. unfold tails. rewrite map_rev. apply IH.
Qed.

Lemma heads_zip_cons r (M : @plane A) :
  length r = length M -> heads (zip_with cons r M) = r.
Proof.
  unfold heads. revert M; induction r as [|x r IH]; intros [|c M]; simpl; try discriminate; auto.
  intros [= H]. now rewrite IH.
Qed.

Lemma tails_zip_cons r (M : @plane A) :
  length r = length M -> tails (zip_with cons r M) = M.
Proof.
  unfold tails. revert M; induction r as [|x r IH]; intros [|c M]; simpl; try discriminate; auto.
  intros [= H]. rewrite IH by assumption. reflexivity.
Qed.

Lemma transpose_cons w r m :
  length r = w -> transpose w (r :: m) = zip_with cons r (transpose w m).
Proof.
  revert r m; induction w as [|w IH]; intros [|x r] m; simpl; try discriminate; auto.
  intros [= H]. f_equal. apply (IH r (tails m) H).
Qed.

Lemma transpose_involutive h w m :
  rect h w m -> transpose h (transpose w m) = m.
Proof.
  intros [Hh Hw]. subst h. induction Hw as [|r m Hr Hw IH]; simpl; [reflexivity|].
  rewrite (transpose_cons w r m Hr).
  rewrite heads_zip_cons, tails_zip_cons by (now rewrite transpose_length).
  now rewrite IH.
Qed.

Lemma transpose_nil_rows w : Forall (fun r : list A => length r = O) (transpose w []).
Proof. induction w as [|w IH]; simpl; constructor; auto. Qed.

Lemma zip_cons_rows h r (M : @plane A) :
  Forall (fun c => length c = h) M ->
  Forall (fun c => length c = S h) (zip_with cons r M).
Proof.
  intros HM. revert r; induction HM as [|c M Hc HM IH]; intros [|x r]; simpl; constructor; auto.
  simpl. now rewrite Hc.
Qed.

Lemma transpose_rect h w m : rect h w m -> rect w h (transpose w m).
Proof.
  intros [Hh Hw]. split; [apply transpose_length|]. subst h.
  induction Hw as [|r m Hr Hw IH]; [apply transpose_nil_rows|].
  rewrite (transpose_cons w r m Hr). simpl. now apply zip_cons_rows.
Qed.

Lemma rev_rect h w m : rect h w m -> rect h w (rev m).
Proof.
  intros [Hh Hw]. split; [now rewrite length_rev|].
  now apply List.Forall_rev.
Qed.

Lemma map_rev_rect h w m : rect h w m -> rect h w (map (@rev A) m).
Proof.
  intros [Hh Hw]. split; [now rewrite length_map|]. clear Hh.
  induction Hw; simpl; constructor; auto. now rewrite List.length_rev.
Qed.

Lemma width_rect h w m : rect (S h) w m -> width m = w.
Proof. intros [Hh Hw]. destruct Hw; [discriminate|assumption]. Qed.

Lemma map_rev_involutive m : map (@rev A) (map (@rev A) m) = m.
Proof. induction m as [|r m IH]; simpl; [reflexivity|]. now rewrite rev_involutive, IH. Qed.

(** The plane-level quarter turns behind [rot90 1] and [rot90 3]. *)
Lemma quarter_three_one n m :
  rect n n m ->
  transpose (width (rev (transpose (width (map (@rev A) m)) (map (@rev A) m))))
            (rev (transpose (width (map (@rev A) m)) (map (@rev A) m))) = m.
Proof.
  intros Hm. destruct n as [|n].
  { destruct Hm as [Hl _]. destruct m; [reflexivity|discriminate]. }
  pose proof (map_rev_rect _ _ _ Hm) as H1.
  rewrite (width_rect _ _ _ H1).
  pose proof (rev_rect _ _ _ (transpose_rect _ _ _ H1)) as H2.
  rewrite (width_rect _ _ _ H2).
  rewrite transpose_rev, (transpose_involutive _ _ _ H1).
  apply map_rev_involutive.
Qed.

Lemma quarter_one_three n m :
  rect n n m ->
  transpose (width (map (@rev A) (transpose (width (rev m)) (rev m))))
            (map (@rev A) (transpose (width (rev m)) (rev m))) = m.
Proof.
  intros Hm. destruct n as [|n].
  { destruct Hm as [Hl _]. destruct m; [reflexivity|discriminate]. }
  pose proof (rev_rect _ _ _ Hm) as H1.
  rewrite (width_rect _ _ _ H1).
  pose proof (map_rev_rect _ _ _ (transpose_rect _ _ _ H1)) as H2.
  rewrite (width_rect _ _ _ H2).
  rewrite <- transpose_rev, rev_involutive.
  now apply transpose_involutive.
Qed.

(** Tensor-level equations are proved plane by plane. *)
Lemma tensor_ext (f : @plane A -> @plane A) (P : @plane A -> Prop) image :
  (forall m, P m -> f m = m) -> Forall (Forall P) image -> map (map f) image = image.
Proof.
  intros Hf Him. induction Him as [|chans image Hc Him IH]; simpl; [reflexivity|].
  f_equal; [|assumption].
  clear -Hf Hc. induction Hc as [|m chans Hm Hc IH]; simpl; [reflexivity|].
  now rewrite Hf, IH.
Qed.

Lemma map_map_tensor (f g : @plane A -> @plane A) image :
  map (map f) (map (map g) image) = map (map (fun m => f (g m))) image.
Proof.
  rewrite map_map. apply map_ext. intros chans. now rewrite map_map.
Qed.

Lemma rot90_3_1 n image : square_image n image -> rot90 3 (rot90 1 image) = image.
Proof.
  intros H. unfold rot90; simpl. unfold transpose_2_3, flip_dim2, flip_dim3.
  rewrite !map_map_tensor. apply (tensor_ext _ (rect n n)); [|exact H].
  intros m Hm. now apply (quarter_three_one n).
Qed.

Lemma rot90_1_3 n image : square_image n image -> rot90 1 (rot90 3 image) = image.
Proof.
  intros H. unfold rot90; simpl. unfold transpose_2_3, flip_dim2, flip_dim3.
  rewrite !map_map_tensor. apply (tensor_ext _ (rect n n)); [|exact H].
  intros m Hm. now apply (quarter_one_three n).
Qed.

Lemma rot90_2_2 image : rot90 2 (rot90 2 image) = image.
Proof.
  unfold rot90; simpl. unfold flip_dim2, flip_dim3.
  rewrite !map_map_tensor. apply (tensor_ext _ (fun _ => True)).
  - intros m _. rewrite map_rev, map_rev_involutive. apply rev_involutive.
  - apply Forall_true. intros ?. now apply Forall_true.
Qed.

Lemma flip_dim2_involutive image : flip_dim2 (flip_dim2 image) = image.
Proof.
  unfold flip_dim2. rewrite map_map_tensor. apply (tensor_ext _ (fun _ => True)).
  - intros m _. apply rev_involutive.
  - apply Forall_true. intros ?. now apply Forall_true.
Qed.

Lemma flip_dim2_dim3 image : flip_dim2 (flip_dim3 image) = flip_dim3 (flip_dim2 image).
Proof.
  unfold flip_dim2, flip_dim3. rewrite !map_map_tensor.
  apply map_ext. intros chans. apply map_ext. intros m. symmetry. apply map_rev.
Qed.

Lemma flip_dim2_rot90_2 image : flip_dim2 (rot90 2 (flip_dim2 image)) = rot90 2 image.
Proof.
  unfold rot90; simpl. now rewrite flip_dim2_involutive, flip_dim2_dim3.
Qed.

(** The six candidates whose reverse undoes the forward transform: the four
    without a flip, and the flip with no or a half turn. *)
Lemma reverse_undoes_forward_unflipped_or_half n image (c : transform * transform) :
  square_image n image ->
  c ∈ candidates ->
  (fst (fst c) = false \/ snd (fst c) = 0 \/ snd (fst c) = 180) ->
  (apply_transform (fst c) image ≫= apply_transform (snd c)) = Ok image.
Proof.
  intros Hsq Hc Hgood.
  unfold candidates in Hc; simpl in Hc.
  repeat (apply elem_of_cons in Hc; destruct Hc as [->|Hc]);
    try (apply elem_of_nil in Hc; contradiction);
    simpl in Hgood; unfold apply_transform, flip_rot; simpl;
    try (exfalso; destruct Hgood as [?|[?|?]]; discriminate);
    f_equal;
    rewrite ?(rot90_3_1 n), ?(rot90_1_3 n), ?rot90_2_2, ?flip_dim2_rot90_2,
      ?flip_dim2_involutive, ?rot90_2_2; auto.
Qed.

Lemma flipped_quarter_plane_1 n m :
  rect n n m ->
  transpose (width (rev (rev (transpose (width (map (@rev A) (rev m))) (map (@rev A) (rev m))))))
            (rev (rev (transpose (width (map (@rev A) (rev m))) (map (@rev A) (rev m)))))
  = map (@rev A) (rev m).
Proof.
  intros Hm. rewrite rev_involutive. destruct n as [|n].
  { destruct Hm as [Hl _]. destruct m; [reflexivity|discriminate]. }
  pose proof (map_rev_rect _ _ _ (rev_rect _ _ _ Hm)) as H1.
  rewrite (width_rect _ _ _ H1).
  rewrite (width_rect _ _ _ (transpose_rect _ _ _ H1)).
  now apply transpose_involutive.
Qed.

Lemma flipped_quarter_plane_3 n m :
  rect n n m ->
  transpose (width (map (@rev A) (rev (transpose (width (rev (rev m))) (rev (rev m))))))
            (map (@rev A) (rev (transpose (width (rev (rev m))) (rev (rev m)))))
  = map (@rev A) (rev m).
Proof.
  intros Hm. rewrite rev_involutive. destruct n as [|n].
  { destruct Hm as [Hl _]. destruct m; [reflexivity|discriminate]. }
  rewrite (width_rect _ _ _ Hm).
  rewrite map_rev, <- transpose_rev.
  pose proof (rev_rect _ _ _ (transpose_rect _ _ _ (rev_rect _ _ _ Hm))) as H2.
  rewrite (width_rect _ _ _ H2).
  rewrite transpose_rev. f_equal.
  apply transpose_involutive. now apply rev_rect.
Qed.

Lemma tensor_ext2 (f g : @plane A -> @plane A) (P : @plane A -> Prop) image :
  (forall m, P m -> f m = g m) -> Forall (Forall P) image ->
  map (map f) image = map (map g) image.
Proof.
  intros Hf Him. induction Him as [|chans image Hc Him IH]; simpl; [reflexivity|].
  f_equal; [|assumption].
  clear -Hf Hc. induction Hc as [|m chans Hm Hc IH]; simpl; [reflexivity|].
  now rewrite Hf, IH.
Qed.

(** The two remaining candidates, a flip with a quarter turn: the reverse
    transform applied after the forward one is the half turn. *)
Lemma reverse_after_forward_flipped_quarter n image (c : transform * transform) :
  square_image n image ->
  c ∈ candidates ->
  fst (fst c) = true -> (snd (fst c) = 90 \/ snd (fst c) = 270) ->
  (apply_transform (fst c) image ≫= apply_transform (snd c)) = Ok (rot90 2 image).
Proof.
  intros Hsq Hc Hflip Hq.
  unfold candidates in Hc; simpl in Hc.
  repeat (apply elem_of_cons in Hc; destruct Hc as [->|Hc]);
    try (apply elem_of_nil in Hc; contradiction);
    simpl in Hflip, Hq; try discriminate;
    try (exfalso; destruct Hq as [?|?]; discriminate);
    unfold apply_transform, flip_rot; simpl; f_equal;
    unfold rot90; simpl; unfold transpose_2_3, flip_dim2, flip_dim3;
    rewrite !map_map_tensor; apply (tensor_ext2 _ _ (rect n n)); auto; intros m Hm.
  - now apply (flipped_quarter_plane_1 n).
  - now apply (flipped_quarter_plane_3 n).
Qed.
End Planes.

(** C1.  The claim: for each of the 8 enumerated candidates and every square
    image, the reverse transform applied to the output of the forward
    transform gives back the moving image.  The code pairs the flip with a
    90 degree turn with the flip with a 270 degree turn; on the 2 by 2 image
    with rows (1 2) and (3 4) the forward transform gives rows (4 2), (3 1)
    and the reverse transform applied to that gives rows (4 3), (2 1), the
    half turn of the image and not the image. *)
Theorem flip_rot_reverse_of_flipped_quarter_turn :
  let image : @tensor Z := [[[[1; 2]; [3; 4]]]] in
  ((true, 90), (true, 270)) ∈ @candidates /\
  square_image 2 image /\
  apply_transform (true, 90) image = Ok [[[[4; 2]; [3; 1]]]] /\
  (apply_transform (true, 90) image ≫= apply_transform (true, 270))
    = Ok [[[[4; 3]; [2; 1]]]] /\
  (apply_transform (true, 90) image ≫= apply_transform (true, 270)) <> Ok image.
Proof.
  cbv zeta. split; [|split; [|split; [|split]]].
  - unfold candidates; simpl. repeat constructor.
  - repeat constructor.
  - reflexivity.
  - reflexivity.
  - discriminate.
Qed.

End FlipRotFacts.

(** ** Patch offsets in file names *)

Module ExtractHWFacts.
Import ExtractHW.
Local Open Scope char_scope.

Example extract_h_w_negative : extract_h_w "out/pred_patches/TCGA-A7_H-5_W12.png" = Ok (-5, 12).
Proof. reflexivity. Qed.

Example extract_h_w_no_match : extract_h_w "out/pred_patches/TCGA-A7.png" = Raise AssertionError.
Proof. reflexivity. Qed.

Example extract_h_w_two_matches : extract_h_w "run_H1_W2/TCGA_H0_W16.png" = Raise AssertionError.
Proof. reflexivity. Qed.

Lemma span_digits_spec s d r :
  span_digits s = (d, r) ->
  s = d ++ r /\ forallb is_digit d = true /\ no_digit_ahead r.
Proof.
  revert d r; induction s as [|c s IH]; intros d r; cbn [span_digits].
  - intros [= <- <-]. repeat split.
  - destruct (is_digit c) eqn:Hc.
    + destruct (span_digits s) as [d' r'] eqn:Hs. intros [= <- <-].
      destruct (IH d' r' eq_refl) as (-> & Hd & Hr).
      split; [reflexivity|]. split; [|assumption].
      change (is_digit c && forallb is_digit d' = true). now rewrite Hc, Hd.
    + intros [= <- <-]. split; [reflexivity|]. split; [reflexivity|exact Hc].
Qed.

Lemma span_digits_app d r :
  forallb is_digit d = true -> no_digit_ahead r -> span_digits (d ++ r) = (d, r).
Proof.
  intros Hd Hr. induction d as [|c d IH]; cbn [app span_digits].
  - destruct r as [|c r]; [reflexivity|]. cbn [span_digits]. cbn [no_digit_ahead] in Hr. now rewrite Hr.
  - cbn [forallb] in Hd. apply andb_true_iff in Hd as [Hc Hd]. now rewrite Hc, IH.
Qed.

Lemma minus_not_digit c : (c =? "-") = true -> is_digit c = false.
Proof. intros H. apply Ascii.eqb_eq in H. now subst c. Qed.

Lemma match_int_spec s t r :
  match_int s = Some (t, r) -> s = t ++ r /\ int_text t /\ no_digit_ahead r.
Proof.
  unfold match_int. destruct s as [|c s].
  - simpl. discriminate.
  - destruct (c =? "-") eqn:Hc.
    + destruct (span_digits s) as [d r'] eqn:Hs.
      destruct (span_digits_spec _ _ _ Hs) as (-> & Hd & Hr).
      destruct d as [|c' d]; [discriminate|]. intros [= <- <-].
      apply Ascii.eqb_eq in Hc. subst c.
      split; [reflexivity|]. split; [|assumption].
      exists (c' :: d). split; [discriminate|]. split; [assumption|]. now right.
    + destruct (span_digits (c :: s)) as [d r'] eqn:Hs.
      destruct (span_digits_spec _ _ _ Hs) as (Heq & Hd & Hr).
      destruct d as [|c' d]; [discriminate|]. intros [= <- <-].
      split; [assumption|]. split; [|assumption].
      exists (c' :: d). split; [discriminate|]. split; [assumption|]. now left.
Qed.

Lemma match_int_app t r :
  int_text t -> no_digit_ahead r -> match_int (t ++ r) = Some (t, r).
Proof.
  intros (d & Hne & Hd & [-> | ->]) Hr; unfold match_int.
  - destruct d as [|c d]; [contradiction|].
    assert (Hc : (c =? "-") = false).
    { cbn [forallb] in Hd. apply andb_true_iff in Hd as [Hc _].
      destruct (c =? "-") eqn:E; [|reflexivity].
      apply minus_not_digit in E. congruence. }
    cbn [app]. rewrite Hc.
    change (c :: (d ++ r)) with ((c :: d) ++ r). now rewrite span_digits_app.
  - cbn [app]. change ("-" =? "-") with true. cbn iota.
    rewrite span_digits_app by assumption.
    destruct d as [|c d]; [contradiction|reflexivity].
Qed.

Lemma match_here_inv s g1 g2 n :
  match_here s = Some ((g1, g2), n) ->
  exists post,
    s = "H" :: g1 ++ "_" :: "W" :: g2 ++ post /\
    int_text g1 /\ int_text g2 /\ no_digit_ahead post /\
    n = (1 + length g1 + 2 + length g2)%nat.
Proof.
  unfold match_here. destruct s as [|c s]; [discriminate|].
  destruct (c =? "H") eqn:Hc; [|discriminate]. apply Ascii.eqb_eq in Hc; subst c.
  destruct (match_int s) as [[t1 r1]|] eqn:H1; [|discriminate].
  destruct r1 as [|c1 [|c2 s2]]; try discriminate.
  destruct (c1 =? "_") eqn:Hc1; [|discriminate].
  destruct (c2 =? "W") eqn:Hc2; [|discriminate].
  apply Ascii.eqb_eq in Hc1, Hc2; subst c1 c2. cbn [andb].
  destruct (match_int s2) as [[t2 r2]|] eqn:H2; [|discriminate].
  intros [= <- <- <-].
  destruct (match_int_spec _ _ _ H1) as (-> & Ht1 & _).
  destruct (match_int_spec _ _ _ H2) as (-> & Ht2 & Hr2).
  exists r2. repeat split; assumption.
Qed.

Lemma match_here_intro g1 g2 post :
  int_text g1 -> int_text g2 -> no_digit_ahead post ->
  match_here ("H" :: g1 ++ "_" :: "W" :: g2 ++ post)
  = Some ((g1, g2), (1 + length g1 + 2 + length g2)%nat).
Proof.
  intros H1 H2 Hp. unfold match_here. change ("H" =? "H") with true. cbn iota.
  rewrite (match_int_app g1 ("_" :: "W" :: g2 ++ post) H1) by reflexivity.
  change (("_" =? "_") && ("W" =? "W")) with true. cbn iota.
  now rewrite (match_int_app g2 post H2 Hp).
Qed.

(** [int] reads a digit as the number it stands for, and digits in base
    ten. *)
Lemma digit_value_number c : is_digit c = true -> digit_value c = digit_number c.
Proof.
  destruct c as [[] [] [] [] [] [] [] []]; try discriminate; intros _; reflexivity.
Qed.

Lemma digits_value_base_ten d (acc : Z) :
  forallb is_digit d = true ->
  fold_left (fun acc c => 10 * acc + digit_value c) d acc
  = acc * 10 ^ Z.of_nat (length d) + base_ten d.
Proof.
  revert acc; induction d as [|c d IH]; intros acc Hd; cbn [fold_left base_ten length].
  - change (10 ^ Z.of_nat 0) with 1. lia.
  - cbn [forallb] in Hd. apply andb_true_iff in Hd as [Hc Hd].
    rewrite (IH _ Hd), (digit_value_number c Hc), Nat2Z.inj_succ, Z.pow_succ_r by lia. ring.
Qed.

Lemma signed_integer_cons c d :
  signed_integer (c :: d) = if c =? "-" then - base_ten d else base_ten (c :: d).
Proof.
  destruct c as [[] [] [] [] [] [] [] []]; reflexivity.
Qed.

Lemma py_int_signed_integer t : int_text t -> py_int t = signed_integer t.
Proof.
  intros (d & Hne & Hd & [-> | ->]).
  - destruct d as [|c d]; [contradiction|]. rewrite signed_integer_cons. unfold py_int.
    assert (Hc : (c =? "-") = false).
    { cbn [forallb] in Hd. apply andb_true_iff in Hd as [Hc _].
      destruct (c =? "-") eqn:E; [|reflexivity].
      apply minus_not_digit in E. congruence. }
    rewrite Hc. unfold digits_value. rewrite digits_value_base_ten by assumption. lia.
  - rewrite signed_integer_cons. unfold py_int. change ("-" =? "-") with true. cbn iota.
    unfold digits_value. rewrite digits_value_base_ten by assumption. lia.
Qed.

(** An occurrence at position [i] is a match of the scanner at [i]. *)
Lemma occurrence_match_here s i h w :
  occurrence s i h w <->
  exists g1 g2 n,
    match_here (drop i s) = Some ((g1, g2), n) /\ h = py_int g1 /\ w = py_int g2.
Proof.
  split.
  - intros (pre & t1 & t2 & post & -> & <- & H1 & H2 & Hp & -> & ->).
    exists t1, t2, (1 + length t1 + 2 + length t2)%nat.
    rewrite drop_app_length. split; [|now rewrite !py_int_signed_integer].
    now apply match_here_intro.
  - intros (g1 & g2 & n & Hm & -> & ->).
    destruct (match_here_inv _ _ _ _ Hm) as (post & He & H1 & H2 & Hp & _).
    exists (take i s), g1, g2, post.
    split; [now rewrite <- He, take_drop|].
    split; [|rewrite !py_int_signed_integer by assumption; repeat split; assumption].
    apply length_take_le.
    destruct (decide (i <= length s)%nat) as [|Hgt]; [assumption|].
    rewrite drop_ge in He by lia. discriminate.
Qed.

Lemma int_text_no_H t : int_text t -> Forall (fun c => (c =? "H") = false) t.
Proof.
  assert (Hdig : forall d, forallb is_digit d = true -> Forall (fun c => (c =? "H") = false) d).
  { induction d as [|c d IH]; cbn [forallb]; intros Hd; constructor.
    - apply andb_true_iff in Hd as [Hc _].
      destruct (c =? "H") eqn:E; [|reflexivity].
      apply Ascii.eqb_eq in E. subst c. discriminate.
    - apply IH. now apply andb_true_iff in Hd as [_ Hd]. }
  intros (d & _ & Hd & [-> | ->]); [now apply Hdig|].
  constructor; [reflexivity|now apply Hdig].
Qed.

Lemma match_here_inside s g n j :
  match_here s = Some (g, n) -> (1 <= j < n)%nat -> match_here (drop j s) = None.
Proof.
  destruct g as [g1 g2]. intros Hm Hj.
  destruct (match_here_inv _ _ _ _ Hm) as (post & -> & H1 & H2 & _ & ->).
  set (body := g1 ++ "_" :: "W" :: g2).
  assert (Hbody : Forall (fun c => (c =? "H") = false) body).
  { apply Forall_app. split; [now apply int_text_no_H|].
    repeat (constructor; [reflexivity|]). now apply int_text_no_H. }
  assert (Hlen : length body = (length g1 + 2 + length g2)%nat).
  { unfold body. rewrite length_app. simpl. lia. }
  change ("H" :: g1 ++ "_" :: "W" :: g2 ++ post) with ("H" :: g1 ++ ("_" :: "W" :: g2) ++ post).
  rewrite app_assoc. fold body.
  destruct j as [|j]; [lia|]. cbn [drop]. rewrite drop_app_le by lia.
  destruct (drop j body) as [|c rest] eqn:Hd.
  { apply (f_equal length) in Hd. rewrite length_drop in Hd. simpl in Hd. lia. }
  assert (Hc : (c =? "H") = false).
  { assert (Hin : c ∈ drop j body) by (rewrite Hd; left).
    apply list_elem_of_lookup in Hin as [k Hk]. rewrite lookup_drop in Hk.
    rewrite Forall_lookup in Hbody. exact (Hbody _ _ Hk). }
  cbn [app]. unfold match_here. now rewrite Hc.
Qed.

Lemma findall_from_all_matches s k :
  (forall j, (j < k)%nat -> match_here (drop j s) = None) ->
  findall_from k s = all_matches s.
Proof.
  revert k; induction s as [|c s IH]; intros k Hk; [reflexivity|].
  cbn [findall_from all_matches]. destruct k as [|k].
  - destruct (match_here (c :: s)) as [[g n]|] eqn:Hm.
    + f_equal. apply IH. intros j Hj.
      apply (match_here_inside (c :: s) g n (S j) Hm). lia.
    + apply IH. intros j Hj. lia.
  - assert (H0 : match_here (drop 0 (c :: s)) = None) by (apply Hk; lia).
    cbn [drop] in H0. rewrite H0. apply IH. intros j Hj. apply (Hk (S j)). lia.
Qed.

Lemma all_matches_nil s :
  all_matches s = [] <-> forall j, match_here (drop j s) = None.
Proof.
  induction s as [|c s IH]; cbn [all_matches].
  - split; [|reflexivity]. intros _ j. now rewrite drop_nil.
  - destruct (match_here (c :: s)) as [[g n]|] eqn:Hm.
    + split; [discriminate|]. intros H. specialize (H O). cbn [drop] in H. congruence.
    + rewrite IH. split.
      * intros H [|j]; [exact Hm|apply H].
      * intros H j. apply (H (S j)).
Qed.

Lemma all_matches_single s g :
  all_matches s = [g] <->
  exists i n,
    match_here (drop i s) = Some (g, n) /\
    forall j g' n', match_here (drop j s) = Some (g', n') -> j = i.
Proof.
  revert g; induction s as [|c s IH]; intros g; cbn [all_matches].
  - split; [discriminate|]. intros (i & n & H & _). rewrite drop_nil in H. discriminate.
  - destruct (match_here (c :: s)) as [[g0 n0]|] eqn:Hm.
    + split.
      * intros [= -> Hnil]. exists O, n0. split; [exact Hm|].
        intros [|j] g' n' Hj; [reflexivity|].
        cbn [drop] in Hj. rewrite (proj1 (all_matches_nil s) Hnil j) in Hj. discriminate.
      * intros (i & n & Hi & Huniq).
        assert (i = O) by (symmetry; apply (Huniq O g0 n0 Hm)). subst i.
        cbn [drop] in Hi. rewrite Hm in Hi. injection Hi as -> ->.
        f_equal. apply all_matches_nil. intros j.
        destruct (match_here (drop j s)) as [[g' n']|] eqn:Hj; [|reflexivity].
        specialize (Huniq (S j) g' n' Hj). discriminate.
    + rewrite IH. split.
      * intros (i & n & Hi & Huniq). exists (S i), n. split; [exact Hi|].
        intros [|j] g' n' Hj; [cbn [drop] in Hj; congruence|].
        f_equal. apply (Huniq j g' n' Hj).
      * intros (i & n & Hi & Huniq). destruct i as [|i]; [cbn [drop] in Hi; congruence|].
        exists i, n. split; [exact Hi|].
        intros j g' n' Hj. specialize (Huniq (S j) g' n' Hj). lia.
Qed.

Lemma findall_all_matches s : findall s = all_matches s.
Proof. apply findall_from_all_matches. intros j Hj. lia. Qed.

Lemma exactly_one_match_all_matches file_path h w :
  exactly_one_match file_path h w <->
  exists g1 g2,
    all_matches (String.list_ascii_of_string file_path) = [(g1, g2)] /\
    h = py_int g1 /\ w = py_int g2.
Proof.
  unfold exactly_one_match. set (s := String.list_ascii_of_string file_path). split.
  - intros (i & Hocc & Huniq).
    apply occurrence_match_here in Hocc as (g1 & g2 & n & Hm & -> & ->).
    exists g1, g2. split; [|split; reflexivity].
    apply all_matches_single. exists i, n. split; [exact Hm|].
    intros j [g1' g2'] n' Hj. apply (Huniq j (py_int g1') (py_int g2')).
    apply occurrence_match_here. now exists g1', g2', n'.
  - intros (g1 & g2 & Hall & -> & ->).
    apply all_matches_single in Hall as (i & n & Hm & Huniq).
    exists i. split.
    + apply occurrence_match_here. now exists g1, g2, n.
    + intros j h' w' Hocc.
      apply occurrence_match_here in Hocc as (g1' & g2' & n' & Hj & _).
      exact (Huniq j _ _ Hj).
Qed.

(** C10.  [extract_h_w] returns [(h, w)] exactly when the path holds exactly
    one substring [H<int>_W<int>] (one that no further digit extends), [h]
    and [w] being the two signed integers that its texts write in base ten;
    it raises [AssertionError] exactly when the path holds no such substring
    or more than one. *)
Theorem extract_h_w_exactly_one (file_path : string) :
  (forall h w, extract_h_w file_path = Ok (h, w) <-> exactly_one_match file_path h w) /\
  (extract_h_w file_path = Raise AssertionError <->
   ~ exists h w, exactly_one_match file_path h w).
Proof.
  assert (Hcases :
    (exists g1 g2, all_matches (String.list_ascii_of_string file_path) = [(g1, g2)] /\
                   extract_h_w file_path = Ok (py_int g1, py_int g2)) \/
    ((forall g, all_matches (String.list_ascii_of_string file_path) <> [g]) /\
     extract_h_w file_path = Raise AssertionError)).
  { unfold extract_h_w. rewrite findall_all_matches.
    destruct (all_matches (String.list_ascii_of_string file_path)) as [|[g1 g2] [|g' l]].
    - right. split; [discriminate|reflexivity].
    - left. exists g1, g2. split; reflexivity.
    - right. split; [discriminate|reflexivity]. }
  destruct Hcases as [(g1 & g2 & Hall & Hex) | [Hall Hex]]; rewrite Hex; split.
  - intros h w. rewrite exactly_one_match_all_matches. split.
    + intros [= <- <-]. now exists g1, g2.
    + intros (g1' & g2' & Hall' & -> & ->). congruence.
  - split; [discriminate|]. intros Hno. exfalso. apply Hno.
    exists (py_int g1), (py_int g2). apply exactly_one_match_all_matches. now exists g1, g2.
  - intros h w. split; [discriminate|].
    rewrite exactly_one_match_all_matches. intros (g1 & g2 & Hall' & _).
    now apply Hall in Hall'.
  - split; [|reflexivity]. intros _ (h & w & Hone).
    apply exactly_one_match_all_matches in Hone as (g1 & g2 & Hall' & _).
    now apply Hall in Hall'.
Qed.

(** A path with the offsets -5 and 12, and a path whose offsets are written
    with leading zeros. *)
Lemma extract_h_w_exactly_one_witness :
  exactly_one_match "out/pred_patches/TCGA-A7_H-5_W12.png" (-5) 12 /\
  exactly_one_match "out/pred_patches/TCGA-A7_H-040_W0096.png" (-40) 96.
Proof.
  split.
  - apply (proj1 (proj1 (extract_h_w_exactly_one "out/pred_patches/TCGA-A7_H-5_W12.png")
                        (-5) 12)).
    reflexivity.
  - apply (proj1 (proj1 (extract_h_w_exactly_one "out/pred_patches/TCGA-A7_H-040_W0096.png")
                        (-40) 96)).
    reflexivity.
Defined.

End ExtractHWFacts.

(** ** The order of file names *)

Module PyStrFacts.

Lemma compare_not_gt_trans (a b c : string) :
  String.compare a b <> Gt -> String.compare b c <> Gt -> String.compare a c <> Gt.
Proof.
  revert b c; induction a as [|x a IH]; intros [|y b] [|z c]; simpl; try congruence.
  unfold Ascii.compare.
  destruct (N.compare_spec (N_of_ascii x) (N_of_ascii y)) as [Exy|Lxy|Gxy];
    destruct (N.compare_spec (N_of_ascii y) (N_of_ascii z)) as [Eyz|Lyz|Gyz];
    destruct (N.compare_spec (N_of_ascii x) (N_of_ascii z)) as [Exz|Lxz|Gxz];
    try congruence; try lia.
  apply IH.
Qed.

#[local] Instance le_transitive : Transitive PyStr.le.
Proof.
  intros a b c. unfold PyStr.le, String.leb.
  pose proof (compare_not_gt_trans a b c) as H.
  destruct (String.compare a b), (String.compare b c), (String.compare a c);
    try discriminate; intros; try reflexivity; exfalso; apply H; congruence.
Qed.

#[local] Instance le_total : Total PyStr.le.
Proof. intros a b. apply String.leb_total. Qed.



Lemma sorted_permutation (paths : list string) : PyStr.sorted paths ≡ₚ paths.
Proof. apply merge_sort_Permutation. Qed.



End PyStrFacts.

(** ** The patch stitcher *)

Module StitchFacts.
Import ExtractHW Stitch.

(** One axis of a placement: when the assignment broadcasts, the clamped
    slice of the canvas is the nominal range from [start] to [end]. *)
Lemma axis_region (H P h r : Z) :
  0 <= H ->
  let start := Z.max 0 h in
  let off := Z.min 0 h in
  let e := Z.min (start + imsize + off) H in
  let n := Z.max 0 (PyStr.clamp P (- off + (e - start)) - PyStr.clamp P (- off)) in
  let r0 := PyStr.clamp H start in
  let r1 := PyStr.clamp H e in
  (n =? Z.max 0 (r1 - r0)) || (n =? 1) = true ->
  (r0 <=? r) && (r <? r1) = (start <=? r) && (r <? e) /\
  ((start <=? r) && (r <? e) = true -> r - r0 = r - start).
Proof.
  intros HH start off e n r0 r1 Hok.
  apply orb_true_iff in Hok. rewrite !Z.eqb_eq in Hok.
  rewrite Bool.eq_iff_eq_true, !andb_true_iff, !Z.leb_le, !Z.ltb_lt.
  subst start off e n r0 r1. unfold PyStr.clamp, imsize in *.
  repeat match goal with
         | H : context [?a <? ?b] |- _ => destruct (Z.ltb_spec a b)
         | |- context [?a <? ?b] => destruct (Z.ltb_spec a b)
         end; lia.
Qed.

Section Stitcher.
Variable bgr2gray : Z * Z * Z -> Z.
Implicit Types (fs : gmap string image) (canvas : ndarray) (path : string).

(** The assignment of the cropped patch, read pixel by pixel. *)
Lemma assign_crop_inv canvas (H W h w : Z) label_patch canvas' :
  nrows canvas = H -> ncols canvas = W -> 0 <= H -> 0 <= W ->
  let p := place (H, W) h w in
  set_slice2 canvas (start_h p) (end_h p) (start_w p) (end_w p) (crop p label_patch)
    = Ok canvas' ->
  nrows canvas' = H /\ ncols canvas' = W /\
  forall r c,
    at_ canvas' r c =
      if covers (H, W) h w r c then written (H, W) h w label_patch r c
      else at_ canvas r c.
Proof.
  intros HH HW H0 W0 p. unfold set_slice2. rewrite HH, HW.
  destruct (_ && _) eqn:Hok; [|discriminate].
  apply andb_true_iff in Hok as [Hrows Hcols].
  intros [= <-]. cbn [nrows ncols at_]. split; [reflexivity|]. split; [reflexivity|].
  intros r c.
  destruct (axis_region H (nrows label_patch) h r H0 Hrows) as [Er Ir].
  destruct (axis_region W (ncols label_patch) w c W0 Hcols) as [Ec Ic].
  unfold covers, written. fold p.
  change (start_h p) with (Z.max 0 h) in *.
  change (start_w p) with (Z.max 0 w) in *.
  change (end_h p) with (Z.min (Z.max 0 h + imsize + Z.min 0 h) H) in *.
  change (end_w p) with (Z.min (Z.max 0 w + imsize + Z.min 0 w) W) in *.
  rewrite Er, <- (andb_assoc _ (PyStr.clamp W _ <=? c)), Ec.
  rewrite <- (andb_assoc _ (Z.max 0 w <=? c)).
  destruct ((Z.max 0 h <=? r) && (r <? _)) eqn:Hr; [|reflexivity].
  destruct ((Z.max 0 w <=? c) && (c <? _)) eqn:Hc; [|reflexivity].
  cbn [andb]. rewrite (Ir eq_refl), (Ic eq_refl). reflexivity.
Qed.

Lemma overwrite_one_inv fs (H W : Z) canvas path canvas' :
  nrows canvas = H -> ncols canvas = W -> 0 <= H -> 0 <= W ->
  overwrite_one bgr2gray fs (H, W) canvas path = Ok canvas' ->
  nrows canvas' = H /\ ncols canvas' = W /\
  forall r c,
    at_ canvas' r c =
      if path_covers (H, W) path r c then path_written bgr2gray fs (H, W) path r c
      else at_ canvas r c.
Proof.
  intros HH HW H0 W0. unfold overwrite_one, path_covers, path_written.
  destruct (extract_h_w path) as [[h w]|e]; [|discriminate]. cbn [mbind result_bind fst snd].
  destruct (imread_grayscale bgr2gray fs path) as [label_patch|]; [|discriminate].
  rsimpl. now apply assign_crop_inv.
Qed.

(** The [np.maximum] line changes no canvas: the loop body returns a canvas
    exactly when the body without that line returns it. *)
Lemma stitch_one_overwrite_one fs stitched_size canvas path canvas' :
  stitch_one bgr2gray fs stitched_size canvas path = Ok canvas' <->
  overwrite_one bgr2gray fs stitched_size canvas path = Ok canvas'.
Proof.
  unfold stitch_one, overwrite_one.
  destruct (extract_h_w path) as [[h w]|e]; [|reflexivity]. cbn [mbind result_bind fst snd].
  destruct (imread_grayscale bgr2gray fs path) as [label_patch|]; [|reflexivity].
  rsimpl. set (p := place stitched_size h w).
  destruct (np_maximum _ _) as [updated_patch|e] eqn:Hmax; [reflexivity|].
  split; [discriminate|]. intros Hset. exfalso.
  unfold set_slice2 in Hset. destruct (_ && _) eqn:Hok in Hset; [|discriminate].
  apply andb_true_iff in Hok as [Hrows Hcols].
  apply orb_true_iff in Hrows, Hcols. rewrite !Z.eqb_eq in Hrows, Hcols.
  unfold np_maximum, broadcast_dim in Hmax. cbn [slice2 nrows ncols] in Hmax.
  repeat match type of Hmax with
         | context [?a =? ?b] => destruct (Z.eqb_spec a b)
         end; cbn [mbind result_bind] in Hmax; try discriminate; lia.
Qed.


(** After the loop, a pixel holds what the last patch that covers it put
    there, and its old value if no patch covers it. *)
Lemma stitch_loop_inv fs (H W : Z) l canvas canvas' :
  nrows canvas = H -> ncols canvas = W -> 0 <= H -> 0 <= W ->
  stitch_loop bgr2gray fs (H, W) canvas l = Ok canvas' ->
  nrows canvas' = H /\ ncols canvas' = W /\
  forall r c,
    ((forall p, p ∈ l -> path_covers (H, W) p r c = false) ->
     at_ canvas' r c = at_ canvas r c) /\
    (forall l1 p l2,
       l = l1 ++ p :: l2 ->
       path_covers (H, W) p r c = true ->
       (forall q, q ∈ l2 -> path_covers (H, W) q r c = false) ->
       at_ canvas' r c = path_written bgr2gray fs (H, W) p r c).
Proof.
  intros HH HW H0 W0. revert canvas HH HW.
  induction l as [|x l IH]; intros canvas HH HW; cbn [stitch_loop].
  - intros [= <-]. split; [assumption|]. split; [assumption|]. intros r c. split; [reflexivity|].
    intros [|? ?] ? ? Heq; discriminate.
  - destruct (stitch_one bgr2gray fs (H, W) canvas x) as [c1|e] eqn:Hone; [|discriminate].
    rsimpl. intros Hloop.
    apply stitch_one_overwrite_one in Hone.
    destruct (overwrite_one_inv fs H W canvas x c1 HH HW H0 W0 Hone) as (HH1 & HW1 & Hpix).
    destruct (IH c1 HH1 HW1 Hloop) as (HH' & HW' & Hrest).
    split; [assumption|]. split; [assumption|]. intros r c.
    destruct (Hrest r c) as [Hnone Hlast]. split.
    + intros Hno. rewrite Hnone by (intros p Hp; apply Hno; now right).
      rewrite Hpix, (Hno x) by left. reflexivity.
    + intros [|y l1] p l2 Heq Hcov Hl2; injection Heq as <- ->.
      * rewrite Hnone by assumption. now rewrite Hpix, Hcov.
      * now apply (Hlast l1 p l2).
Qed.

(** One axis of a patch of [imsize] rows: the row of the patch that goes
    to row [r] of the canvas. *)
Lemma axis_index (H h r : Z) :
  let start := Z.max 0 h in
  let off := Z.min 0 h in
  let e := Z.min (start + imsize + off) H in
  let n := Z.max 0 (PyStr.clamp imsize (- off + (e - start)) - PyStr.clamp imsize (- off)) in
  (start <=? r) && (r <? e) = true ->
  PyStr.clamp imsize (- off) + (if n =? 1 then 0 else r - start) = r - start - off.
Proof.
  intros start off e n Hr. apply andb_true_iff in Hr. rewrite Z.leb_le, Z.ltb_lt in Hr.
  subst start off e n. unfold PyStr.clamp, imsize in *.
  repeat match goal with
         | |- context [?a <? ?b] => destruct (Z.ltb_spec a b)
         | |- context [?a =? ?b] => destruct (Z.eqb_spec a b)
         end; lia.
Qed.

(** One axis of a patch of [imsize] rows with an offset from [-imsize] to
    the size of the canvas: the cropped rows are as many as the rows of
    the target. *)
Lemma axis_fits (H h : Z) :
  0 <= H -> - imsize <= h <= H ->
  let start := Z.max 0 h in
  let off := Z.min 0 h in
  let e := Z.min (start + imsize + off) H in
  Z.max 0 (PyStr.clamp imsize (- off + (e - start)) - PyStr.clamp imsize (- off))
  = Z.max 0 (PyStr.clamp H e - PyStr.clamp H start).
Proof.
  intros H0 Hh start off e. subst start off e. unfold PyStr.clamp, imsize in *.
  repeat match goal with
         | |- context [?a <? ?b] => destruct (Z.ltb_spec a b)
         end; lia.
Qed.

Lemma written_full (H W h w : Z) label_patch r c :
  nrows label_patch = imsize -> ncols label_patch = imsize ->
  covers (H, W) h w r c = true ->
  written (H, W) h w label_patch r c
  = at_ label_patch (r - Z.max 0 h - Z.min 0 h) (c - Z.max 0 w - Z.min 0 w).
Proof.
  intros Hn Hm Hcov. unfold covers in Hcov. cbn [place start_h end_h start_w end_w fst snd] in Hcov.
  rewrite <- andb_assoc in Hcov. apply andb_true_iff in Hcov as [Hr Hc].
  unfold written, crop, slice2.
  cbn [place start_h end_h start_w end_w offset_h offset_w actual_height actual_width
       fst snd nrows ncols at_].
  rewrite Hn, Hm.
  now rewrite (axis_index H h r Hr), (axis_index W w c Hc).
Qed.

(** A patch of [imsize] by [imsize] pixels: where the loop body puts it,
    and that it does for offsets from [-imsize] to the size of the canvas. *)
Lemma stitch_one_full_patch fs (H W : Z) canvas path (h w : Z) label_patch :
  nrows canvas = H -> ncols canvas = W -> 0 <= H -> 0 <= W ->
  extract_h_w path = Ok (h, w) ->
  imread_grayscale bgr2gray fs path = Some label_patch ->
  nrows label_patch = imsize -> ncols label_patch = imsize ->
  (forall canvas',
     stitch_one bgr2gray fs (H, W) canvas path = Ok canvas' ->
     forall r c,
       at_ canvas' r c =
         if covers (H, W) h w r c
         then at_ label_patch (r - Z.max 0 h - Z.min 0 h) (c - Z.max 0 w - Z.min 0 w)
         else at_ canvas r c) /\
  (- imsize <= h <= H -> - imsize <= w <= W ->
   exists canvas', stitch_one bgr2gray fs (H, W) canvas path = Ok canvas').
Proof.
  intros HH HW H0 W0 Hhw Hread Hn Hm. split.
  - intros canvas' Hone r c. apply stitch_one_overwrite_one in Hone.
    destruct (overwrite_one_inv fs H W canvas path canvas' HH HW H0 W0 Hone) as (_ & _ & Hpix).
    rewrite Hpix. unfold path_covers, path_written. rewrite Hhw, Hread. cbn [fst snd].
    destruct (covers (H, W) h w r c) eqn:Hcov; [|reflexivity].
    now apply written_full.
  - intros Hh Hw.
    assert (Hset : exists canvas',
               overwrite_one bgr2gray fs (H, W) canvas path = Ok canvas').
    { unfold overwrite_one. rewrite Hhw, Hread. rsimpl. unfold set_slice2.
      cbn [crop slice2 place start_h end_h start_w end_w offset_h offset_w
           actual_height actual_width fst snd nrows ncols].
      rewrite HH, HW, Hn, Hm.
      rewrite (axis_fits H h H0 Hh), (axis_fits W w W0 Hw), !Z.eqb_refl.
      cbn [orb andb]. eexists. reflexivity. }
    destruct Hset as [canvas' Hset]. exists canvas'. now apply stitch_one_overwrite_one.
Qed.


(** C2 (amended).  For offsets [(h, w)] with [-imsize <= h <= canvas_height]
    and [-imsize <= w <= canvas_width], negative ones included, the
    placement of a patch of [imsize] by [imsize] pixels returns; and
    whenever the placement returns, the patch is placed on the canvas rows
    [start_row <= r < end_row] and columns [start_col <= c < end_col], where
    [start_row = max(0, h)], [start_col = max(0, w)],
    [end_row = min(start_row + imsize + min(0, h), canvas_height)] and
    [end_col = min(start_col + imsize + min(0, w), canvas_width)]; the
    pixel it puts at [(r, c)] is its own pixel at
    [(r - start_row - min(0, h), c - start_col - min(0, w))], and every
    other pixel of the canvas keeps its value. *)
Theorem stitch_one_placement fs (H W : Z) canvas path (h w : Z) label_patch :
  nrows canvas = H -> ncols canvas = W -> 0 <= H -> 0 <= W ->
  extract_h_w path = Ok (h, w) ->
  imread_grayscale bgr2gray fs path = Some label_patch ->
  nrows label_patch = imsize -> ncols label_patch = imsize ->
  let start_row := Z.max 0 h in
  let start_col := Z.max 0 w in
  let end_row := Z.min (start_row + imsize + Z.min 0 h) H in
  let end_col := Z.min (start_col + imsize + Z.min 0 w) W in
  (forall canvas',
     stitch_one bgr2gray fs (H, W) canvas path = Ok canvas' ->
     forall r c,
       at_ canvas' r c =
         if (start_row <=? r) && (r <? end_row) && (start_col <=? c) && (c <? end_col)
         then at_ label_patch (r - start_row - Z.min 0 h) (c - start_col - Z.min 0 w)
         else at_ canvas r c) /\
  (- imsize <= h <= H -> - imsize <= w <= W ->
   exists canvas', stitch_one bgr2gray fs (H, W) canvas path = Ok canvas').
Proof.
  intros HH HW H0 W0 Hhw Hread Hn Hm.
  exact (stitch_one_full_patch fs H W canvas path h w label_patch HH HW H0 W0 Hhw Hread Hn Hm).
Qed.

(** C7.  With patches of 32 by 32 pixels and a canvas of at least 27 rows
    and 32 columns, a patch whose file name carries [H-5_W0] puts its rows
    5 to 31 on the canvas rows 0 to 26, columns 0 to 31, and changes no
    other pixel. *)
Theorem stitch_one_offset_minus_5 fs (H W : Z) canvas path label_patch :
  nrows canvas = H -> ncols canvas = W -> 27 <= H -> 32 <= W ->
  extract_h_w path = Ok (-5, 0) ->
  imread_grayscale bgr2gray fs path = Some label_patch ->
  nrows label_patch = 32 -> ncols label_patch = 32 ->
  exists canvas',
    stitch_one bgr2gray fs (H, W) canvas path = Ok canvas' /\
    forall r c,
      at_ canvas' r c =
        if (0 <=? r) && (r <=? 26) && (0 <=? c) && (c <=? 31)
        then at_ label_patch (r + 5) c
        else at_ canvas r c.
Proof.
  intros HH HW H27 W32 Hhw Hread Hn Hm.
  destruct (stitch_one_full_patch fs H W canvas path (-5) 0 label_patch)
    as [Hpix Hok]; try assumption; try lia.
  destruct Hok as [canvas' Hone]; [unfold imsize; lia..|].
  exists canvas'. split; [assumption|]. intros r c.
  rewrite (Hpix canvas' Hone r c). unfold covers.
  cbn [place start_h end_h start_w end_w fst snd]. unfold imsize.
  replace (Z.min (Z.max 0 (-5) + 32 + Z.min 0 (-5)) H) with 27 by lia.
  replace (Z.min (Z.max 0 0 + 32 + Z.min 0 0) W) with 32 by lia.
  replace (r - Z.max 0 (-5) - Z.min 0 (-5)) with (r + 5) by lia.
  replace (c - Z.max 0 0 - Z.min 0 0) with c by lia.
  replace (r <=? 26) with (r <? 27) by (destruct (Z.ltb_spec r 27), (Z.leb_spec r 26); lia).
  replace (c <=? 31) with (c <? 32) by (destruct (Z.ltb_spec c 32), (Z.leb_spec c 31); lia).
  reflexivity.
Qed.

End Stitcher.

(** Two patch folders used below: one patch that starts five rows above the
    canvas, and two patches that overlap in the columns 16 to 31. *)
Example patch_above : extract_h_w "out/pred_patches/TCGA_H-5_W0.png" = Ok (-5, 0).
Proof. reflexivity. Qed.

(** C2, the claim as it is written: the end row would be
    [min(start_row + imsize - min(0, h), canvas_height)], 37 for [h = -5].
    The code ends the rows at 27, and row 30 of the canvas keeps its value. *)
Lemma stitch_one_end_row_counterexample :
  let fs : gmap string image :=
    {[ "out/pred_patches/TCGA_H-5_W0.png" := Gray (mk_ndarray 32 32 (fun _ _ => 7)) ]} in
  let canvas := mk_ndarray 1000 1000 (fun _ _ => 0) in
  let p := place (1000, 1000) (-5) 0 in
  end_h p = 27 /\
  Z.min (start_h p + imsize - Z.min 0 (-5)) 1000 = 37 /\
  end_h p <> Z.min (start_h p + imsize - Z.min 0 (-5)) 1000 /\
  exists canvas',
    stitch_one (fun _ => 0) fs (1000, 1000) canvas "out/pred_patches/TCGA_H-5_W0.png"
      = Ok canvas' /\
    at_ canvas' 26 0 = 7 /\ at_ canvas' 30 0 = 0.
Proof.
  cbv zeta. split; [reflexivity|]. split; [reflexivity|]. split; [discriminate|].
  eexists. split; [reflexivity|]. split; reflexivity.
Qed.

Lemma stitch_one_placement_witness :
  exists canvas',
    stitch_one (fun _ => 0)
      {[ "out/pred_patches/TCGA_H-5_W0.png" := Gray (mk_ndarray 32 32 (fun i _ => i)) ]}
      (1000, 1000) (mk_ndarray 1000 1000 (fun _ _ => 0))
      "out/pred_patches/TCGA_H-5_W0.png" = Ok canvas' /\
    at_ canvas' 26 3 = 31.
Proof.
  destruct (stitch_one_placement (fun _ => 0)
              {[ "out/pred_patches/TCGA_H-5_W0.png" := Gray (mk_ndarray 32 32 (fun i _ => i)) ]}
              1000 1000 (mk_ndarray 1000 1000 (fun _ _ => 0))
              "out/pred_patches/TCGA_H-5_W0.png" (-5) 0 (mk_ndarray 32 32 (fun i _ => i))
              eq_refl eq_refl ltac:(lia) ltac:(lia) ltac:(reflexivity) ltac:(reflexivity)
              eq_refl eq_refl)
    as [Hpix Hok].
  destruct (Hok ltac:(unfold imsize; lia) ltac:(unfold imsize; lia)) as [canvas' Hone].
  exists canvas'. split; [exact Hone|].
  rewrite (Hpix canvas' Hone 26 3). reflexivity.
Defined.

Lemma stitch_one_offset_minus_5_witness :
  exists canvas',
    stitch_one (fun _ => 0)
      {[ "out/pred_patches/TCGA_H-5_W0.png" := Gray (mk_ndarray 32 32 (fun i _ => i)) ]}
      (1000, 1000) (mk_ndarray 1000 1000 (fun _ _ => 0))
      "out/pred_patches/TCGA_H-5_W0.png" = Ok canvas' /\
    at_ canvas' 0 0 = 5 /\ at_ canvas' 26 31 = 31 /\ at_ canvas' 27 0 = 0.
Proof.
  destruct (stitch_one_offset_minus_5 (fun _ => 0)
              {[ "out/pred_patches/TCGA_H-5_W0.png" := Gray (mk_ndarray 32 32 (fun i _ => i)) ]}
              1000 1000 (mk_ndarray 1000 1000 (fun _ _ => 0))
              "out/pred_patches/TCGA_H-5_W0.png" (mk_ndarray 32 32 (fun i _ => i))
              eq_refl eq_refl ltac:(lia) ltac:(lia) ltac:(reflexivity) ltac:(reflexivity)
              eq_refl eq_refl)
    as (canvas' & Hone & Hpix).
  exists canvas'. split; [exact Hone|].
  rewrite !Hpix. repeat split.
Defined.


(** The overlap holds the later patch and not the greater value: with the
    patch of ones sorted after the patch of twos, the overlap is 1. *)
Example stitch_overlap_is_not_maximum :
  exists canvas,
    stitch_base (fun _ => 0)
      {[ "out/pred_patches/TCGA_H0_W0.png" := Gray (mk_ndarray 32 32 (fun _ _ => 2));
         "out/pred_patches/TCGA_H0_W16.png" := Gray (mk_ndarray 32 32 (fun _ _ => 1)) ]}
      (48, 48)
      (PyStr.sorted ["out/pred_patches/TCGA_H0_W16.png"; "out/pred_patches/TCGA_H0_W0.png"])
      "out/pred_patches/TCGA.png" = Ok canvas /\
    at_ canvas 0 20 = 1 /\ at_ canvas 0 20 <> Z.max 2 1.
Proof.
  eexists. split; [vm_compute; reflexivity|]. split; [reflexivity|discriminate].
Qed.

End StitchFacts.

(** ** The state monad *)

Module STFacts.

Lemma bind_Ok {S A B : Type} (c : ST S A) (k : A -> ST S B) (s s' : S) (b : B) :
  (c ≫= k) s = (s', Ok b) ->
  exists s1 a, c s = (s1, Ok a) /\ k a s1 = (s', Ok b).
Proof.
  unfold mbind, ST_bind. destruct (c s) as [s1 [a|e]]; [|discriminate].
  intros H. now exists s1, a.
Qed.

Lemma bind_run {S A B : Type} (c : ST S A) (k : A -> ST S B) (s s' : S) (r : result B) :
  (c ≫= k) s = (s', r) ->
  (exists e, c s = (s', Raise e) /\ r = Raise e) \/
  (exists s1 a, c s = (s1, Ok a) /\ k a s1 = (s', r)).
Proof.
  unfold mbind, ST_bind. destruct (c s) as [s1 [a|e]].
  - intros H. right. now exists s1, a.
  - intros [= <- <-]. left. now exists e.
Qed.

Lemma lift_run {S A : Type} (r : result A) (s s' : S) (r' : result A) :
  lift r s = (s', r') -> s' = s /\ r' = r.
Proof. unfold lift. now intros [= <- <-]. Qed.

Lemma mret_run {S A : Type} (a : A) (s s' : S) (r' : result A) :
  mret (M := ST S) a s = (s', r') -> s' = s /\ r' = Ok a.
Proof. unfold mret, ST_ret. now intros [= <- <-]. Qed.

Lemma bind_lift_Ok {S A B : Type} (a : A) (k : A -> ST S B) (s : S) :
  (lift (Ok a) ≫= k) s = k a s.
Proof. reflexivity. Qed.

Lemma bind_lift_Raise {S A B : Type} (e : exn) (k : A -> ST S B) (s : S) :
  (lift (A := A) (Raise e) ≫= k) s = (s, Raise e).
Proof. reflexivity. Qed.

End STFacts.

(** ** Integer labels as floats *)

Module TensorFacts.
Import PyFloat Tensor.

(** A concatenation along the channels that returns has, sample by sample,
    the channels of its first argument and after them those of its
    second; it returns for two tensors of one batch size, height and
    width. *)
Lemma cat_dim1_Ok {A : Type} (a b x : tensor A) :
  cat_dim1 a b = Ok x -> x = zip_with (fun ca cb => ca ++ cb) a b.
Proof.
  unfold cat_dim1, FlipRot.shape.
  destruct (_ && _); [now intros [= <-]|discriminate].
Qed.

Lemma elements_tmap {A B : Type} (f : A -> B) (t : tensor A) :
  elements (tmap f t) = map f (elements t).
Proof. unfold elements, tmap. now rewrite !List.concat_map. Qed.

Lemma ltb_of_int (a b : Z) : ltb (of_int a) (of_int b) = (a <? b).
Proof.
  unfold ltb, of_int, Qle_bool, inject_Z. cbn [Qnum Qden].
  rewrite !Z.mul_1_r. now rewrite Z.ltb_antisym.
Qed.

Lemma eqb_of_int (a b : Z) : eqb (of_int a) (of_int b) = (a =? b).
Proof.
  unfold eqb, of_int, Qeq_bool, inject_Z. cbn [Qnum Qden].
  now rewrite !Z.mul_1_r.
Qed.

Lemma max_of_int (a b : Z) : PyFloat.max (of_int a) (of_int b) = of_int (Z.max a b).
Proof.
  unfold PyFloat.max. change (FNum (inject_Z a)) with (of_int a).
  change (FNum (inject_Z b)) with (of_int b). rewrite ltb_of_int.
  destruct (Z.ltb_spec a b); f_equal; lia.
Qed.

Lemma fold_max_of_int (l : list Z) (x : Z) :
  fold_left PyFloat.max (map of_int l) (of_int x) = of_int (fold_left Z.max l x).
Proof.
  revert x; induction l as [|y l IH]; intros x; cbn [map fold_left]; [reflexivity|].
  now rewrite max_of_int, IH.
Qed.

(** The greatest element of integer labels cast to float. *)
Lemma tensor_max_of_int (t : tensor Z) (x : Z) (l : list Z) :
  elements t = x :: l ->
  tensor_max (tmap of_int t) = Ok (of_int (fold_left Z.max l x)).
Proof.
  intros He. unfold tensor_max. rewrite elements_tmap, He. cbn [map].
  now rewrite fold_max_of_int.
Qed.

Lemma gtb_half_of_int (z : Z) : gtb (of_int z) half = (1 <=? z).
Proof.
  unfold gtb, ltb, half, of_int, Qle_bool, inject_Z. cbn [Qnum Qden].
  destruct (Z.leb_spec (z * 2) (1 * 1)), (Z.leb_spec 1 z); cbn [negb]; try reflexivity; lia.
Qed.

(** Thresholding at 0.5, on integer labels: 1 from 1 upwards, 0 below. *)
Lemma threshold_of_int (t : tensor Z) :
  threshold (tmap of_int t) = tmap (fun z => if 1 <=? z then one else zero) t.
Proof.
  unfold threshold, tmap. rewrite map_map. apply map_ext. intros c.
  rewrite map_map. apply map_ext. intros m. rewrite map_map. apply map_ext. intros row.
  rewrite map_map. apply map_ext. intros z. now rewrite gtb_half_of_int.
Qed.

End TensorFacts.

(** ** The order of floats *)

Module PyFloatFacts.
Import PyFloat.

Lemma ltb_FNum (p q : Q) : ltb (FNum p) (FNum q) = true <-> (p < q)%Q.
Proof.
  cbn [ltb]. rewrite Bool.negb_true_iff, <- Bool.not_true_iff_false, Qle_bool_iff.
  split; [apply Qnot_le_lt|apply Qlt_not_le].
Qed.

Lemma ltb_FNum_false (p q : Q) : ltb (FNum p) (FNum q) = false <-> (q <= p)%Q.
Proof. cbn [ltb]. now rewrite Bool.negb_false_iff, Qle_bool_iff. Qed.

Lemma ltb_trans (a b c : float) : ltb a b = true -> ltb b c = true -> ltb a c = true.
Proof.
  destruct a as [p| | |], b as [q| | |], c as [r| | |]; try discriminate; try reflexivity.
  rewrite !ltb_FNum. intros; eapply Qlt_trans; eauto.
Qed.

(** [a < b] and [not (c < b)], [c] not NaN, give [a < c]. *)
Lemma ltb_le_trans (a b c : float) :
  ltb a b = true -> ltb c b = false -> is_nan c = false -> ltb a c = true.
Proof.
  destruct a as [p| | |], b as [q| | |], c as [r| | |]; try discriminate; try reflexivity.
  rewrite !ltb_FNum, ltb_FNum_false. intros H1 H2 _. eapply Qlt_le_trans; eauto.
Qed.

End PyFloatFacts.

(** ** The trainer *)

Module TrainFacts.
Import PyFloat Tensor Train STFacts.

Section Trainer.
Context {TS Weights ES : Type} (env : collaborators TS Weights ES).

Lemma steps_refl (s : bstate TS) : steps s s [].
Proof. unfold steps. now rewrite app_nil_r. Qed.

Lemma steps_trans (s1 s2 s3 : bstate TS) evs1 evs2 :
  steps s1 s2 evs1 -> steps s2 s3 evs2 -> steps s1 s3 (evs1 ++ evs2).
Proof.
  unfold steps. intros (Hd1 & He1) (Hd2 & He2).
  rewrite Hd2, He2, Hd1, He1, app_assoc. now split.
Qed.

Lemma bemit_run (e : bevent) (s s' : bstate TS) (r : result unit) :
  bemit e s = (s', r) -> r = Ok tt /\ ts s' = ts s /\ steps s s' [e].
Proof. unfold bemit, steps. intros [= <- <-]. now repeat split. Qed.

(** A call of a collaborator records its event, whatever it returns. *)
Lemma call_run {A : Type} (e : bevent) (r : result A) (s s' : bstate TS) (r' : result A) :
  call e r s = (s', r') -> r' = r /\ ts s' = ts s /\ steps s s' [e].
Proof.
  unfold call, bemit, lift, steps, mbind, ST_bind. intros [= <- <-]. now repeat split.
Qed.

Lemma get_ts_run (s s' : bstate TS) (r : result TS) :
  get_ts s = (s', r) -> s' = s /\ r = Ok (ts s).
Proof. unfold get_ts. now intros [= <- <-]. Qed.

Lemma set_ts_run (m : TS) (s s' : bstate TS) (r : result unit) :
  set_ts m s = (s', r) -> r = Ok tt /\ ts s' = m /\ steps s s' [].
Proof.
  unfold set_ts, steps. intros [= <- <-]. cbn. now rewrite app_nil_r.
Qed.

(** ** Computations that leave the debugger alone *)

Lemma emits_only_lift {A : Type} (P : bevent -> Prop) (r : result A) :
  emits_only (TS := TS) P (lift r).
Proof.
  intros s s' r' H. apply lift_run in H as [-> _]. exists []. split; [apply steps_refl|constructor].
Qed.

Lemma emits_only_mret {A : Type} (P : bevent -> Prop) (a : A) :
  emits_only (TS := TS) P (mret a).
Proof.
  intros s s' r' H. apply mret_run in H as [-> _]. exists []. split; [apply steps_refl|constructor].
Qed.

Lemma emits_only_bemit (P : bevent -> Prop) (e : bevent) :
  P e -> emits_only (TS := TS) P (bemit e).
Proof.
  intros He s s' r' H. apply bemit_run in H as (_ & _ & H). exists [e].
  split; [assumption|]. now repeat constructor.
Qed.

Lemma emits_only_call {A : Type} (P : bevent -> Prop) (e : bevent) (r : result A) :
  P e -> emits_only (TS := TS) P (call e r).
Proof.
  intros He s s' r' H. apply call_run in H as (_ & _ & H). exists [e].
  split; [assumption|]. now repeat constructor.
Qed.

Lemma emits_only_get_ts (P : bevent -> Prop) : emits_only (TS := TS) P get_ts.
Proof.
  intros s s' r' H. apply get_ts_run in H as [-> _]. exists []. split; [apply steps_refl|constructor].
Qed.

Lemma emits_only_set_ts (P : bevent -> Prop) (m : TS) : emits_only P (set_ts m).
Proof.
  intros s s' r' H. apply set_ts_run in H as (_ & _ & H). exists []. split; [assumption|constructor].
Qed.

Lemma emits_only_bind {A C : Type} (P : bevent -> Prop)
    (c : ST (bstate TS) A) (k : A -> ST (bstate TS) C) :
  emits_only P c -> (forall a, emits_only P (k a)) -> emits_only P (c ≫= k).
Proof.
  intros Hc Hk s s' r H.
  apply bind_run in H as [(e & H1 & ->) | (s1 & a & H1 & H)].
  - exact (Hc _ _ _ H1).
  - destruct (Hc _ _ _ H1) as (evs1 & S1 & F1). destruct (Hk a _ _ _ H) as (evs2 & S2 & F2).
    exists (evs1 ++ evs2). split; [now apply (steps_trans s s1 s')|]. now apply Forall_app.
Qed.

Lemma emits_only_forM {X Y : Type} (P : bevent -> Prop)
    (l : list X) (f : X -> ST (bstate TS) Y) :
  (forall x, emits_only P (f x)) -> emits_only P (forM l f).
Proof.
  intros Hf. induction l as [|x l IH]; cbn [forM].
  - apply emits_only_mret.
  - apply emits_only_bind; [apply Hf|]. intros y.
    apply emits_only_bind; [apply IH|]. intros ys. apply emits_only_mret.
Qed.

Lemma emits_only_weaken {A : Type} (P Q : bevent -> Prop) (c : ST (bstate TS) A) :
  (forall e, P e -> Q e) -> emits_only P c -> emits_only Q c.
Proof.
  intros HPQ Hc s s' r H. destruct (Hc _ _ _ H) as (evs & S & F).
  exists evs. split; [assumption|]. eapply Forall_impl; eauto.
Qed.

Lemma emits_only_if {A : Type} (P : bevent -> Prop) (b : bool) (c1 c2 : ST (bstate TS) A) :
  emits_only P c1 -> emits_only P c2 -> emits_only P (if b then c1 else c2).
Proof. now destruct b. Qed.

(** The rules above, applied as far as they go. *)
Ltac emits :=
  repeat first
    [ apply emits_only_lift
    | apply emits_only_mret
    | apply emits_only_get_ts
    | apply emits_only_set_ts
    | apply emits_only_if
    | apply emits_only_bind; [|intros ?]
    | apply emits_only_forM; intros ?
    | apply emits_only_call
    | apply emits_only_bemit ].

Lemma predict_and_warp_emits (training : bool) (A U L : tensor float) :
  emits_only field_or_warp (predict_and_warp env training A U L).
Proof.
  unfold predict_and_warp. emits; (now left) || (now right).
Qed.

Lemma compute_metrics_emits metric (A U L : tensor float) :
  emits_only (TS := TS) (fun e => e = MetricComputed) (compute_metrics metric A U L).
Proof. unfold compute_metrics. emits; reflexivity. Qed.

Lemma compute_loss_emits (A U X Y : tensor float) :
  emits_only (fun e => e = LossComputed) (compute_loss env A U X Y).
Proof. unfold compute_loss. emits; reflexivity. Qed.

(** The field and the three warps when they return: the events and the
    values. *)
Lemma predict_and_warp_Ok (training : bool) (A U L : tensor float)
    (s s' : bstate TS) (w : warps) :
  predict_and_warp env training A U L s = (s', Ok w) ->
  ts s' = ts s /\
  steps s s' [PredictedField; Warped; Warped; Warped] /\
  exists warp_predicted,
    (x ← cat_dim1 A U; warp_predictor env training (ts s) x) = Ok warp_predicted /\
    warper env U (channels_upto_2 warp_predicted) = Ok (images_U2A w) /\
    warper env (images_U2A w) (channels_from_2 warp_predicted) = Ok (images_U2A_A2U w) /\
    warper env L (channels_from_2 warp_predicted) = Ok (labels_A2U w).
Proof.
  unfold predict_and_warp. intros H.
  apply bind_Ok in H as (s0 & x & H1 & H). apply lift_run in H1 as [-> Hx].
  apply bind_Ok in H as (s0 & m & H1 & H). apply get_ts_run in H1 as [-> [= ->]].
  apply bind_Ok in H as (s1 & field & H1 & H). apply call_run in H1 as (Hf & T1 & S1).
  apply bind_Ok in H as (s2 & u2a & H1 & H). apply call_run in H1 as (Hu & T2 & S2).
  apply bind_Ok in H as (s3 & u2a2u & H1 & H). apply call_run in H1 as (Hc & T3 & S3).
  apply bind_Ok in H as (s4 & a2u & H1 & H). apply call_run in H1 as (Hl & T4 & S4).
  apply mret_run in H as [-> [= ->]].
  split; [congruence|]. split.
  - exact (steps_trans _ _ _ _ _ (steps_trans _ _ _ _ _ (steps_trans _ _ _ _ _ S1 S2) S3) S4).
  - exists field. cbn [images_U2A images_U2A_A2U labels_A2U]. rewrite <- Hx. rsimpl.
    now repeat split.
Qed.

Lemma compute_loss_Ok (A U X Y : tensor float) (s s' : bstate TS) (l : float * float * float) :
  compute_loss env A U X Y s = (s', Ok l) ->
  ts s' = ts s /\
  steps s s' [LossComputed; LossComputed] /\
  mse_loss env A X = Ok (snd (fst l)) /\
  mse_loss env U Y = Ok (snd l) /\
  fst (fst l) = tensor_add env (snd (fst l)) (snd l).
Proof.
  unfold compute_loss. intros H.
  apply bind_Ok in H as (s1 & lf & H1 & H). apply call_run in H1 as (Hf & T1 & S1).
  apply bind_Ok in H as (s2 & lc & H1 & H). apply call_run in H1 as (Hc & T2 & S2).
  apply mret_run in H as [-> [= ->]]. cbn [fst snd].
  split; [congruence|]. split; [exact (steps_trans _ _ _ _ _ S1 S2)|]. now repeat split.
Qed.


(** The breakpoint takes one command of the debugger input. *)
Lemma pdb_set_trace_run (s s' : bstate TS) (r : result unit) :
  pdb_set_trace s = (s', r) ->
  ts s' = ts s /\
  btrace s' = btrace s ++ [Breakpoint] /\
  ((r = Ok tt /\ dbg s = Continue :: dbg s') \/
   (r = Raise BdbQuit /\ (dbg s = Quit :: dbg s' \/ (dbg s = [] /\ dbg s' = [])))).
Proof.
  unfold pdb_set_trace. destruct (dbg s) as [|[|] rest] eqn:Hd; intros [= <- <-]; cbn.
  - repeat split. right. split; [reflexivity|]. now right.
  - repeat split. now left.
  - repeat split. right. split; [reflexivity|]. now left.
Qed.

(** Validation and test iterations have no breakpoint and leave the debugger
    input alone, whether they return or raise. *)
Lemma val_iteration_emits cfg (plot_freq epoch_idx iter_idx : Z) permuted_idx b :
  emits_only (fun e => e <> Breakpoint)
             (val_iteration env cfg plot_freq epoch_idx iter_idx permuted_idx b).
Proof.
  unfold val_iteration. cbv zeta. emits; discriminate.
Qed.

Lemma test_iteration_emits (plot_freq iter_idx : Z) b :
  emits_only (fun e => e <> Breakpoint) (test_iteration env plot_freq iter_idx b).
Proof.
  unfold test_iteration. cbv zeta. emits; discriminate.
Qed.


(** A training iteration, whether it returns or raises: the events up to the
    breakpoint are the field and the warps, and every other event comes
    after the breakpoint. *)
Lemma train_iteration_run cfg (plot_freq epoch_idx iter_idx : Z) permuted_idx b
    (s s' : bstate TS) (r : result iteration_result) :
  train_iteration env cfg plot_freq epoch_idx iter_idx permuted_idx b s = (s', r) ->
  exists pre post,
    btrace s' = btrace s ++ pre ++ post /\
    Forall field_or_warp pre /\
    ((post = [] /\ dbg s' = dbg s /\ exists e, r = Raise e) \/
     (pre = [PredictedField; Warped; Warped; Warped] /\
      exists post',
        post = Breakpoint :: post' /\ Forall after_breakpoint post' /\
        ((dbg s = Continue :: dbg s') \/
         (r = Raise BdbQuit /\ post' = [] /\
          (dbg s = Quit :: dbg s' \/ (dbg s = [] /\ dbg s' = [])))))).
Proof.
  unfold train_iteration. cbv zeta. intros H.
  assert (Hstop : forall e, (s, Raise e) = (s', r) ->
            exists pre post,
              btrace s' = btrace s ++ pre ++ post /\ Forall field_or_warp pre /\
              ((post = [] /\ dbg s' = dbg s /\ exists e, r = Raise e) \/
               (pre = [PredictedField; Warped; Warped; Warped] /\
                exists post',
                  post = Breakpoint :: post' /\ Forall after_breakpoint post' /\
                  ((dbg s = Continue :: dbg s') \/
                   (r = Raise BdbQuit /\ post' = [] /\
                    (dbg s = Quit :: dbg s' \/ (dbg s = [] /\ dbg s' = []))))))).
  { intros e [= <- <-]. exists [], []. split; [now rewrite !app_nil_r|].
    split; [constructor|]. left. repeat split. now exists e. }
  apply bind_run in H as [(e & H1 & ->) | (s0 & u & H1 & H)];
    apply lift_run in H1 as [-> Hr]; [now apply (Hstop e)|].
  apply bind_run in H as [(e & H1 & ->) | (s0 & shall_plot & H1 & H)];
    apply lift_run in H1 as [-> Hr1]; [now apply (Hstop e)|].
  apply bind_run in H as [(e & H1 & ->) | (s0 & p & H1 & H)];
    apply lift_run in H1 as [-> Hr2]; [now apply (Hstop e)|].
  apply bind_run in H as [(e & H1 & ->) | (s0 & lab & H1 & H)];
    apply lift_run in H1 as [-> Hr3]; [now apply (Hstop e)|].
  clear Hstop.
  apply bind_run in H as [(e & H1 & ->) | (s1 & w & H1 & H)].
  { destruct (predict_and_warp_emits _ _ _ _ _ _ _ H1) as (evs & [Hd He] & F).
    exists evs, []. rewrite app_nil_r. split; [assumption|]. split; [assumption|].
    left. repeat split; [assumption|]. now exists e. }
  apply predict_and_warp_Ok in H1 as (_ & [Hd1 He1] & _).
  assert (Hpre : Forall field_or_warp [PredictedField; Warped; Warped; Warped]).
  { repeat (constructor; [(now left) || (now right)|]). constructor. }
  apply bind_run in H as [(e & H1 & ->) | (s2 & u2 & H1 & H)];
    apply pdb_set_trace_run in H1 as (_ & He2 & Hdbg).
  { exists [PredictedField; Warped; Warped; Warped], [Breakpoint].
    rewrite He2, He1, <- app_assoc. split; [reflexivity|]. split; [assumption|].
    right. split; [reflexivity|]. exists []. split; [reflexivity|]. split; [constructor|].
    destruct Hdbg as [[? _]|[[= ->] Hq]]; [discriminate|]. right. rewrite <- Hd1.
    now repeat split. }
  destruct Hdbg as [[_ Hdbg]|[? _]]; [|discriminate].
  match type of H with
  | ?c _ = _ => assert (Hrest : emits_only after_breakpoint c)
  end.
  { emits; unfold after_breakpoint; auto 6. }
  destruct (Hrest _ _ _ H) as (evs & [Hd3 He3] & F).
  exists [PredictedField; Warped; Warped; Warped], (Breakpoint :: evs).
  rewrite He3, He2, He1, <- !app_assoc. split; [reflexivity|]. split; [assumption|].
  right. split; [reflexivity|]. exists evs. split; [reflexivity|]. split; [assumption|].
  left. now rewrite Hd3, <- Hd1.
Qed.


Ltac emitted H P :=
  match type of H with
  | ?c _ = _ =>
      let Hem := fresh "Hem" in
      assert (Hem : emits_only P c) by (emits; unfold label_work; auto);
      apply Hem in H
  end.

(** A training iteration that returns: its pair, its loss and its trace. *)
Lemma train_iteration_Ok cfg (plot_freq epoch_idx iter_idx : Z) permuted_idx b
    (s s' : bstate TS) (r : iteration_result) :
  train_iteration env cfg plot_freq epoch_idx iter_idx permuted_idx b s = (s', Ok r) ->
  exists p,
    select_pair (strong cfg) permuted_idx b = Ok p /\
    cyclic_loss env true (ts s) (annotated_images p) (unannotated_images p) = Ok (loss r) /\
    dbg s = Continue :: dbg s' /\
    exists mid,
      Forall label_work mid /\
      btrace s' = btrace s ++ [PredictedField; Warped; Warped; Warped; Breakpoint] ++ mid
                           ++ [LossComputed; LossComputed; OptimizerStepped].
Proof.
  unfold train_iteration. cbv zeta. intros H.
  apply bind_Ok in H as (s0 & u & H1 & H). apply lift_run in H1 as [-> _].
  apply bind_Ok in H as (s0 & shall_plot & H1 & H). apply lift_run in H1 as [-> _].
  apply bind_Ok in H as (s0 & p & H1 & H). apply lift_run in H1 as [-> Hp].
  apply bind_Ok in H as (s0 & lab & H1 & H). apply lift_run in H1 as [-> _].
  apply bind_Ok in H as (s1 & w & H1 & H).
  apply predict_and_warp_Ok in H1 as (T1 & [D1 E1] & field & Hfield & Hu2a & Hu2a2u & _).
  apply bind_Ok in H as (s2 & u2 & H1 & H).
  apply pdb_set_trace_run in H1 as (T2 & E2 & [[_ D2]|[? _]]); [|discriminate].
  apply bind_Ok in H as (s3 & a2u & H1 & H). emitted H1 label_work.
  destruct H1 as (evs3 & [D3 E3] & F3).
  apply bind_Ok in H as (s4 & metrics & H1 & H). emitted H1 label_work.
  destruct H1 as (evs4 & [D4 E4] & F4).
  apply bind_Ok in H as (s5 & u5 & H1 & H). emitted H1 label_work.
  destruct H1 as (evs5 & [D5 E5] & F5).
  apply bind_Ok in H as (s6 & l & H1 & H).
  apply compute_loss_Ok in H1 as (T6 & [D6 E6] & Hlf & Hlc & Hsum).
  apply bind_Ok in H as (s7 & m & H1 & H). apply get_ts_run in H1 as [-> _].
  apply bind_Ok in H as (s7 & u7 & H1 & H). apply bemit_run in H1 as (_ & _ & [D7 E7]).
  apply bind_Ok in H as (s8 & u8 & H1 & H). apply set_ts_run in H1 as (_ & _ & [D8 E8]).
  apply mret_run in H as [-> [= ->]]. cbn [loss].
  exists p. split; [now symmetry|]. split; [|split].
  - unfold cyclic_loss.
    destruct (cat_dim1 (annotated_images p) (unannotated_images p)) as [x|e] eqn:Hcat;
      rsimpl in Hfield; [|discriminate].
    apply TensorFacts.cat_dim1_Ok in Hcat. subst x.
    cbv zeta. rewrite Hfield. rsimpl.
    unfold channels_upto_2, channels_from_2 in Hu2a, Hu2a2u.
    rewrite Hu2a. rsimpl. rewrite Hu2a2u. rsimpl. rewrite Hlf. rsimpl. rewrite Hlc. rsimpl.
    now rewrite Hsum.
  - rewrite D8, D7, D6, D5, D4, D3, <- D1. exact D2.
  - exists (evs3 ++ evs4 ++ evs5). split; [now rewrite !Forall_app|].
    rewrite E8, E7, E6, E5, E4, E3, E2, E1, <- !app_assoc. reflexivity.
Qed.

(** A validation iteration that returns. *)
Lemma val_iteration_Ok cfg (plot_freq epoch_idx iter_idx : Z) permuted_idx b
    (s s' : bstate TS) (r : iteration_result) :
  val_iteration env cfg plot_freq epoch_idx iter_idx permuted_idx b s = (s', Ok r) ->
  exists p,
    select_pair (strong cfg) permuted_idx b = Ok p /\
    cyclic_loss env false (ts s) (annotated_images p) (unannotated_images p) = Ok (loss r) /\
    dbg s' = dbg s /\
    exists mid,
      Forall label_work mid /\
      btrace s' = btrace s ++ [PredictedField; Warped; Warped; Warped] ++ mid
                           ++ [LossComputed; LossComputed].
Proof.
  unfold val_iteration. cbv zeta. intros H.
  apply bind_Ok in H as (s0 & u & H1 & H). apply lift_run in H1 as [-> _].
  apply bind_Ok in H as (s0 & shall_plot & H1 & H). apply lift_run in H1 as [-> _].
  apply bind_Ok in H as (s0 & p & H1 & H). apply lift_run in H1 as [-> Hp].
  apply bind_Ok in H as (s0 & lab & H1 & H). apply lift_run in H1 as [-> _].
  apply bind_Ok in H as (s1 & w & H1 & H).
  apply predict_and_warp_Ok in H1 as (T1 & [D1 E1] & field & Hfield & Hu2a & Hu2a2u & _).
  apply bind_Ok in H as (s3 & a2u & H1 & H). emitted H1 label_work.
  destruct H1 as (evs3 & [D3 E3] & F3).
  apply bind_Ok in H as (s4 & metrics & H1 & H). emitted H1 label_work.
  destruct H1 as (evs4 & [D4 E4] & F4).
  apply bind_Ok in H as (s5 & u5 & H1 & H). emitted H1 label_work.
  destruct H1 as (evs5 & [D5 E5] & F5).
  apply bind_Ok in H as (s6 & l & H1 & H).
  apply compute_loss_Ok in H1 as (T6 & [D6 E6] & Hlf & Hlc & Hsum).
  apply mret_run in H as [-> [= ->]]. cbn [loss].
  exists p. split; [now symmetry|]. split; [|split].
  - unfold cyclic_loss.
    destruct (cat_dim1 (annotated_images p) (unannotated_images p)) as [x|e] eqn:Hcat;
      rsimpl in Hfield; [|discriminate].
    apply TensorFacts.cat_dim1_Ok in Hcat. subst x.
    cbv zeta. rewrite Hfield. rsimpl.
    unfold channels_upto_2, channels_from_2 in Hu2a, Hu2a2u.
    rewrite Hu2a. rsimpl. rewrite Hu2a2u. rsimpl. rewrite Hlf. rsimpl. rewrite Hlc. rsimpl.
    now rewrite Hsum.
  - now rewrite D6, D5, D4, D3, D1.
  - exists (evs3 ++ evs4 ++ evs5). split; [now rewrite !Forall_app|].
    rewrite E6, E5, E4, E3, E1, <- !app_assoc. reflexivity.
Qed.


(** Two batches with the same images give the same pair of images. *)
Lemma select_pair_images (strong : bool) permuted_idx (b1 b2 : batch) (p1 p2 : pair) :
  image_n_view b1 = image_n_view b2 ->
  select_pair strong permuted_idx b1 = Ok p1 ->
  select_pair strong permuted_idx b2 = Ok p2 ->
  annotated_images p1 = annotated_images p2 /\
  unannotated_images p1 = unannotated_images p2.
Proof.
  unfold select_pair. intros Himg. rewrite Himg. destruct strong; cbn [negb].
  - destruct (index_rows (image_n_view b2) permuted_idx) as [pi|e]; rsimpl; [|discriminate].
    destruct (label_index_rows (label_n_view b1) permuted_idx) as [pl1|e]; rsimpl; [|discriminate].
    destruct (label_index_rows (label_n_view b2) permuted_idx) as [pl2|e]; rsimpl; [|discriminate].
    intros [= <-] [= <-]. now split.
  - intros [= <-] [= <-]. now split.
Qed.

(** C4.  In a training or validation iteration that returns, the predictor
    is applied to the concatenation [annotated, unannotated], every sample
    with the channels of its annotated image followed by those of its
    unannotated image; the loss is the sum of the mean squared error between
    the annotated images and the unannotated images warped by channels 0-1
    of the predictor's output, and of the mean squared error between the
    unannotated images and that warped image warped again by channels 2-3.
    The labels have no part in it: two batches with the same images have
    the same loss. *)
Theorem loss_is_forward_plus_cyclic cfg (plot_freq epoch_idx iter_idx : Z) permuted_idx
    (training : bool) (b : batch) (s s' : bstate TS) (r : iteration_result) :
  (if training
   then train_iteration env cfg plot_freq epoch_idx iter_idx permuted_idx b s
   else val_iteration env cfg plot_freq epoch_idx iter_idx permuted_idx b s) = (s', Ok r) ->
  (exists p,
     select_pair (strong cfg) permuted_idx b = Ok p /\
     cyclic_loss env training (ts s) (annotated_images p) (unannotated_images p)
       = Ok (loss r)) /\
  (forall (b2 : batch) (s2 s2' : bstate TS) (r2 : iteration_result),
     image_n_view b2 = image_n_view b -> ts s2 = ts s ->
     (if training
      then train_iteration env cfg plot_freq epoch_idx iter_idx permuted_idx b2 s2
      else val_iteration env cfg plot_freq epoch_idx iter_idx permuted_idx b2 s2)
       = (s2', Ok r2) ->
     loss r2 = loss r).
Proof.
  assert (Hone : forall b0 (s0 s0' : bstate TS) r0,
            (if training
             then train_iteration env cfg plot_freq epoch_idx iter_idx permuted_idx b0 s0
             else val_iteration env cfg plot_freq epoch_idx iter_idx permuted_idx b0 s0)
              = (s0', Ok r0) ->
            exists p,
              select_pair (strong cfg) permuted_idx b0 = Ok p /\
              cyclic_loss env training (ts s0) (annotated_images p) (unannotated_images p)
                = Ok (loss r0)).
  { intros b0 s0 s0' r0 H0. destruct training.
    - apply train_iteration_Ok in H0 as (p & Hp & Hl & _). now exists p.
    - apply val_iteration_Ok in H0 as (p & Hp & Hl & _). now exists p. }
  intros H. split; [now apply (Hone b s s' r)|].
  intros b2 s2 s2' r2 Himg Hts H2.
  destruct (Hone b s s' r H) as (p & Hp & Hl).
  destruct (Hone b2 s2 s2' r2 H2) as (p2 & Hp2 & Hl2).
  destruct (select_pair_images _ _ _ _ _ _ Himg Hp2 Hp) as [HA HU].
  rewrite HA, HU, Hts, Hl in Hl2. now injection Hl2.
Qed.

(** C5.  A training iteration sets its breakpoint after the field and the
    three warps and before the thresholding of the projected labels, the
    metrics, the plot, the losses and the optimizer step; it returns only
    when the debugger input holds a command to continue, which it takes.
    Validation and test iterations have no breakpoint and leave the debugger
    input alone. *)
Theorem breakpoint_in_training_iterations_only cfg (plot_freq epoch_idx iter_idx : Z)
    permuted_idx (b : batch) (tb : test_batch) (s s' : bstate TS) :
  (forall r,
     train_iteration env cfg plot_freq epoch_idx iter_idx permuted_idx b s = (s', r) ->
     exists pre post,
       btrace s' = btrace s ++ pre ++ post /\
       Forall field_or_warp pre /\
       ((post = [] /\ dbg s' = dbg s /\ exists e, r = Raise e) \/
        (pre = [PredictedField; Warped; Warped; Warped] /\
         exists post',
           post = Breakpoint :: post' /\ Forall after_breakpoint post' /\
           ((dbg s = Continue :: dbg s') \/
            (r = Raise BdbQuit /\ post' = [] /\
             (dbg s = Quit :: dbg s' \/ (dbg s = [] /\ dbg s' = []))))))) /\
  (forall r,
     train_iteration env cfg plot_freq epoch_idx iter_idx permuted_idx b s = (s', Ok r) ->
     dbg s = Continue :: dbg s' /\
     exists mid,
       Forall label_work mid /\
       btrace s' = btrace s ++ [PredictedField; Warped; Warped; Warped; Breakpoint] ++ mid
                            ++ [LossComputed; LossComputed; OptimizerStepped]) /\
  (forall r,
     val_iteration env cfg plot_freq epoch_idx iter_idx permuted_idx b s = (s', r) ->
     dbg s' = dbg s /\
     exists evs, btrace s' = btrace s ++ evs /\ Forall (fun e => e <> Breakpoint) evs) /\
  (forall r,
     test_iteration env plot_freq iter_idx tb s = (s', r) ->
     dbg s' = dbg s /\
     exists evs, btrace s' = btrace s ++ evs /\ Forall (fun e => e <> Breakpoint) evs).
Proof.
  split; [|split; [|split]].
  - intros r H. now apply (train_iteration_run _ _ _ _ _ _ _ _ _ H).
  - intros r H. apply train_iteration_Ok in H as (p & _ & _ & Hd & mid & F & E).
    split; [assumption|]. now exists mid.
  - intros r H. apply val_iteration_emits in H as (evs & [Hd He] & F).
    split; [assumption|]. now exists evs.
  - intros r H. apply test_iteration_emits in H as (evs & [Hd He] & F).
    split; [assumption|]. now exists evs.
Qed.


(** The check of binary labels, on integer labels: it passes exactly when
    the greatest annotated label is 0 or 1. *)
Lemma binarize_int (ta : tensor Z) (U : tensor float) (x : Z) (l : list Z) :
  elements ta = x :: l ->
  binarize true (tmap of_int ta) U =
    if (fold_left Z.max l x =? 0) || (fold_left Z.max l x =? 1)
    then Ok (tmap (fun z => if 1 <=? z then one else zero) ta, threshold U)
    else Raise AssertionError.
Proof.
  intros He. unfold binarize. rewrite (TensorFacts.tensor_max_of_int ta x l He). rsimpl.
  change zero with (of_int 0). change one with (of_int 1).
  rewrite !TensorFacts.eqb_of_int.
  destruct ((fold_left Z.max l x =? 0) || (fold_left Z.max l x =? 1)); cbn [py_assert]; rsimpl;
    [|reflexivity].
  now rewrite TensorFacts.threshold_of_int.
Qed.

(** C8 (amended).  For a batch whose annotated labels are integers, the
    iteration raises [AssertionError], before any event of the batch, exactly
    when the greatest annotated label is neither 0 nor 1; when it is 0 or 1,
    the annotated labels become 1 from 1 upwards and 0 below and the
    unannotated labels are thresholded at 0.5, whatever their values. *)
Theorem binary_labels_checked_by_their_maximum cfg (plot_freq epoch_idx iter_idx : Z)
    permuted_idx (b : batch) (s : bstate TS) (p : pair) (ta : tensor Z) (x : Z) (l : list Z) :
  shape_1 (image_n_view b) = 2%nat ->
  plot_freq <> 0 ->
  select_pair (strong cfg) permuted_idx b = Ok p ->
  annotated_labels p = LInt ta ->
  elements ta = x :: l ->
  let m := fold_left Z.max l x in
  (m <> 0 /\ m <> 1 ->
   train_iteration env cfg plot_freq epoch_idx iter_idx permuted_idx b s
     = (s, Raise AssertionError) /\
   val_iteration env cfg plot_freq epoch_idx iter_idx permuted_idx b s
     = (s, Raise AssertionError)) /\
  (m = 0 \/ m = 1 ->
   binarize (negb (is_floating_point (annotated_labels p)))
            (to_float (annotated_labels p)) (to_float (unannotated_labels p))
   = Ok (tmap (fun z => if 1 <=? z then one else zero) ta,
         threshold (to_float (unannotated_labels p)))).
Proof.
  intros Hshape Hpf Hp Hta He m.
  pose proof (binarize_int ta (to_float (unannotated_labels p)) x l He) as Hbin.
  fold m in Hbin. split.
  - intros [H0 H1].
    apply Z.eqb_neq in H0, H1. rewrite H0, H1 in Hbin. cbn [orb] in Hbin.
    apply Z.eqb_neq in Hpf.
    unfold train_iteration, val_iteration, shall_plot_at. cbv zeta.
    rewrite Hshape, Hpf. change (py_assert (2 =? 2)%nat) with (Ok tt).
    rewrite !bind_lift_Ok, Hp, !bind_lift_Ok, Hta. cbn [is_floating_point negb to_float].
    rewrite Hbin, !bind_lift_Raise. split; reflexivity.
  - intros Hm. rewrite Hta. cbn [is_floating_point negb to_float]. rewrite Hbin.
    destruct Hm as [-> | ->]; reflexivity.
Qed.

(** ** The epoch loop *)

Lemma eemit_run (e : tevent Weights) (s s' : estate TS Weights) (r : result unit) :
  eemit e s = (s', r) ->
  r = Ok tt /\ trace s' = trace s ++ [e] /\ checkpoints s' = checkpoints s.
Proof. unfold eemit. now intros [= <- <-]. Qed.

Lemma save_weights_run path (s s' : estate TS Weights) (r : result unit) :
  save_weights env path s = (s', r) ->
  r = Ok tt /\ trace s' = trace s ++ [SavedWeights path (state_dict env (model s))] /\
  checkpoints s' = <[path := state_dict env (model s)]> (checkpoints s).
Proof. unfold save_weights. now intros [= <- <-]. Qed.

Lemma logs_only_lift {A : Type} (P : tevent Weights -> Prop) (r : result A) :
  logs_only (TS := TS) P (lift r).
Proof.
  intros s s' r' H. apply lift_run in H as [-> _]. split; [reflexivity|].
  exists []. now rewrite app_nil_r.
Qed.

Lemma logs_only_mret {A : Type} (P : tevent Weights -> Prop) (a : A) :
  logs_only (TS := TS) P (mret a).
Proof.
  intros s s' r' H. apply mret_run in H as [-> _]. split; [reflexivity|].
  exists []. now rewrite app_nil_r.
Qed.

Lemma logs_only_eemit (P : tevent Weights -> Prop) (e : tevent Weights) :
  P e -> logs_only (TS := TS) P (eemit e).
Proof.
  intros He s s' r' H. apply eemit_run in H as (_ & Ht & Hc). split; [assumption|].
  exists [e]. split; [assumption|]. now repeat constructor.
Qed.

Lemma logs_only_lr_scheduler_step (P : tevent Weights -> Prop) :
  P SchedulerStepped -> logs_only P (lr_scheduler_step env).
Proof.
  intros He s s' r'. unfold lr_scheduler_step. intros [= <- <-]. split; [reflexivity|].
  exists [SchedulerStepped]. split; [reflexivity|]. now repeat constructor.
Qed.

Lemma logs_only_run_batch {A : Type} (P : tevent Weights -> Prop) ph (epoch_idx iter_idx : Z)
    (c : ST (bstate TS) A) :
  (forall e, P (InBatch ph epoch_idx iter_idx e)) ->
  logs_only (Weights := Weights) P (run_batch ph epoch_idx iter_idx c).
Proof.
  intros He s s' r'. unfold run_batch.
  destruct (c _) as [bs r]. intros [= <- <-]. split; [reflexivity|].
  eexists. split; [reflexivity|]. apply Forall_map, Forall_true. intros e. apply He.
Qed.

Lemma logs_only_bind {A C : Type} (P : tevent Weights -> Prop)
    (c : ST (estate TS Weights) A) (k : A -> ST (estate TS Weights) C) :
  logs_only P c -> (forall a, logs_only P (k a)) -> logs_only P (c ≫= k).
Proof.
  intros Hc Hk s s' r H.
  apply bind_run in H as [(e & H1 & ->) | (s1 & a & H1 & H)].
  - exact (Hc _ _ _ H1).
  - destruct (Hc _ _ _ H1) as (C1 & evs1 & T1 & F1).
    destruct (Hk a _ _ _ H) as (C2 & evs2 & T2 & F2).
    split; [congruence|]. exists (evs1 ++ evs2).
    split; [rewrite T2, T1; now rewrite app_assoc|]. now apply Forall_app.
Qed.

Ltac logs :=
  repeat first
    [ apply logs_only_lift
    | apply logs_only_mret
    | apply logs_only_lr_scheduler_step
    | apply logs_only_run_batch; intros ?
    | apply logs_only_bind; [|intros ?]
    | apply logs_only_eemit ].

Lemma train_batches_logs cfg (plot_freq epoch_idx : Z) (batches : list batch) :
  forall iter_idx acc,
    logs_only in_epoch_body (train_batches env cfg plot_freq epoch_idx iter_idx batches acc).
Proof.
  induction batches as [|b rest IH]; intros iter_idx acc; cbn [train_batches].
  - apply logs_only_mret.
  - apply logs_only_bind; [|intros r; apply IH]. apply logs_only_run_batch. now intros e.
Qed.

Lemma val_batches_logs cfg (plot_freq epoch_idx : Z) (batches : list batch) :
  forall iter_idx acc,
    logs_only in_epoch_body (val_batches env cfg plot_freq epoch_idx iter_idx batches acc).
Proof.
  induction batches as [|b rest IH]; intros iter_idx acc; cbn [val_batches].
  - apply logs_only_mret.
  - apply logs_only_bind; [|intros r; apply IH]. apply logs_only_run_batch. now intros e.
Qed.

Lemma train_phase_logs cfg (epoch_idx : Z) name :
  logs_only in_epoch_body (train_phase env cfg epoch_idx name).
Proof. unfold train_phase. logs; try exact I. apply train_batches_logs. Qed.

Lemma val_phase_logs cfg (epoch_idx : Z) name :
  logs_only in_epoch_body (val_phase env cfg epoch_idx name).
Proof. unfold val_phase. logs; try exact I. apply val_batches_logs. Qed.

(** An epoch up to its validation log: it raises within its two phases, or
    it ends with the validation log. *)
Lemma run_epoch_run cfg (epoch_idx : Z) name (s s' : estate TS Weights)
    (r : result (float * option string)) :
  run_epoch env cfg epoch_idx name s = (s', r) ->
  checkpoints s' = checkpoints s /\
  exists body, Forall in_epoch_body body /\
    ((exists e, r = Raise e /\ trace s' = trace s ++ body) \/
     (exists v vf vc nm refs segs name',
        r = Ok (v, name') /\
        trace s' = trace s ++ body ++ [LogValidation (epoch_idx + 1) v vf vc nm refs segs])).
Proof.
  unfold run_epoch. intros H.
  apply bind_run in H as [(e & H1 & ->) | (s1 & tot & H1 & H)].
  { destruct (train_phase_logs _ _ _ _ _ _ H1) as (C1 & body & T1 & F1).
    split; [assumption|]. exists body. split; [assumption|]. left. now exists e. }
  destruct (train_phase_logs _ _ _ _ _ _ H1) as (C1 & body1 & T1 & F1).
  apply bind_run in H as [(e & H2 & ->) | (s2 & v & H2 & H)].
  { destruct (val_phase_logs _ _ _ _ _ _ H2) as (C2 & body2 & T2 & F2).
    split; [congruence|]. exists (body1 ++ body2). split; [now apply Forall_app|].
    left. exists e. split; [reflexivity|]. rewrite T2, T1. now rewrite app_assoc. }
  destruct (val_phase_logs _ _ _ _ _ _ H2) as (C2 & body2 & T2 & F2).
  apply bind_run in H as [(e & H3 & ->) | (s3 & [] & H3 & H)].
  { apply eemit_run in H3 as (? & _). discriminate. }
  apply eemit_run in H3 as (_ & T3 & C3). apply mret_run in H as [-> ->].
  split; [congruence|]. exists (body1 ++ body2). split; [now apply Forall_app|].
  right. do 7 eexists. split; [reflexivity|]. rewrite T3, T2, T1. now rewrite !app_assoc.
Qed.

Lemma running_best_snoc (prev : list float) (v : float) :
  running_best (prev ++ [v]) = if ltb v (running_best prev) then v else running_best prev.
Proof. unfold running_best. now rewrite fold_left_app. Qed.

(** The end of an epoch: the weights are saved, and the line of the save
    logged, when the validation loss is below the best so far. *)
Lemma checkpoint_step_run path (v best : float) (s s' : estate TS Weights) (r : result float) :
  (if ltb v best
   then save_weights env path ;; eemit LogSaved ;; mret v
   else mret best) s = (s', r) ->
  r = Ok (if ltb v best then v else best) /\
  trace s' = trace s ++ (if ltb v best
                         then [SavedWeights path (state_dict env (model s)); LogSaved]
                         else []) /\
  checkpoints s' = if ltb v best
                   then <[path := state_dict env (model s)]> (checkpoints s)
                   else checkpoints s.
Proof.
  destruct (ltb v best).
  - unfold mbind, ST_bind, save_weights, eemit, mret, ST_ret. cbn.
    intros [= <- <-]. cbn. now rewrite <- app_assoc.
  - intros H. apply mret_run in H as [-> ->]. now rewrite app_nil_r.
Qed.

Lemma train_epochs_runs cfg (epochs : list Z) :
  forall prev es name (s s' : estate TS Weights) r,
    train_epochs env cfg epochs (running_best prev) es name s = (s', r) ->
    exists new, trace s' = trace s ++ new /\
      epoch_runs (DiffeoMappingNet_model_save_path cfg) (es_step env) prev es epochs new
                 (checkpoints s) (checkpoints s') r.
Proof.
  induction epochs as [|epoch_idx rest IH]; intros prev es name s s' r H; cbn [train_epochs] in H.
  { apply mret_run in H as [-> ->]. exists []. split; [now rewrite app_nil_r|constructor]. }
  apply bind_run in H as [(e & H1 & ->) | (s1 & [v name'] & H1 & H)].
  { apply run_epoch_run in H1 as (C1 & body & F1 & [(e' & _ & T1) | (? & ? & ? & ? & ? & ? & ? & ? & _)]);
      [|discriminate].
    exists body. split; [assumption|]. rewrite C1. now constructor. }
  apply run_epoch_run in H1
    as (C1 & body & F1 & [(e' & ? & _) | (v' & vf & vc & nm & refs & segs & n' & [= <- <-] & T1)]);
    [discriminate|].
  cbn [fst snd] in H.
  apply bind_run in H as [(e & H2 & ->) | (s2 & best' & H2 & H)].
  { apply checkpoint_step_run in H2 as (? & _). discriminate. }
  apply checkpoint_step_run in H2 as ([= ->] & T2 & C2).
  rewrite C1 in C2. rewrite <- running_best_snoc in H.
  destruct (snd (es_step env es v)) eqn:Hstop.
  - apply eemit_run in H as (-> & T3 & C3).
    eexists. split; [rewrite T3, T2, T1; rewrite <- !app_assoc; reflexivity|].
    rewrite C3, C2. now constructor.
  - apply IH in H as (tr & T3 & R).
    eexists. split; [rewrite T3, T2, T1; rewrite <- !app_assoc; reflexivity|].
    rewrite C2 in R. now apply epoch_goes_on.
Qed.

(** Below the best so far is below infinity and every loss before, when
    no loss before is NaN. *)
Lemma below_fold_best (v : float) (prev : list float) :
  forall best, is_nan best = false -> Forall (fun u => is_nan u = false) prev ->
    ltb v (fold_left (fun b u => if ltb u b then u else b) prev best) = true <->
    ltb v best = true /\ Forall (fun u => ltb v u = true) prev.
Proof.
  induction prev as [|u prev IH]; intros best Hb Hp; cbn [fold_left].
  { split; [intros H; split; [assumption|constructor]|now intros [H _]]. }
  inversion Hp as [|? ? Hu Hp']; subst.
  rewrite IH by (try assumption; now destruct (ltb u best)).
  destruct (ltb u best) eqn:Hlt; split; intros [H1 H2].
  - split; [now apply (PyFloatFacts.ltb_trans v u best)|now constructor].
  - inversion H2; subst. now split.
  - split; [assumption|]. constructor; [|assumption].
    now apply (PyFloatFacts.ltb_le_trans v best u).
  - inversion H2; subst. now split.
Qed.

(** C9. Across the epoch loop of [train], the weights are saved at the
    checkpoint path in the epochs whose validation loss is strictly below the
    running best, the least validation loss of the epochs before, infinity at
    the start; the other epochs leave the checkpoint files as they are; and
    the loop ends, before the epochs that remain, at the first epoch where
    the early stopper, built for the lower-is-better mode with the patience of
    the configuration and fed the validation loss, says stop.  Below the
    running best is below infinity and every validation loss before, as long
    as none of these is NaN. *)
Theorem checkpoint_on_improvement_and_early_stop cfg (s s' : estate TS Weights) (r : result unit) :
  train env cfg s = (s', r) ->
  (exists new, trace s' = trace s ++ new /\
     match init_model env cfg with
     | None =>
         new = [] /\ checkpoints s' = checkpoints s /\
         r = Raise (ValueError "`config.DiffeoMappingNet_model` not supported.")
     | Some _ =>
         epoch_runs (DiffeoMappingNet_model_save_path cfg) (es_step env) []
                    (EarlyStopping env "min" (patience cfg) false)
                    (range (max_epochs cfg)) new (checkpoints s) (checkpoints s') r
     end) /\
  (forall prev v, Forall (fun u => is_nan u = false) prev ->
     ltb v (running_best prev) = true <->
     ltb v inf = true /\ Forall (fun u => ltb v u = true) prev).
Proof.
  intros H. split; [|intros prev v Hp; now apply below_fold_best].
  unfold train in H.
  apply bind_run in H as [(e & H1 & ->) | (s1 & [] & H1 & H)]; unfold build_model in H1;
    destruct (init_model env cfg) as [m|]; try discriminate.
  - injection H1 as <- <-. exists []. now rewrite app_nil_r.
  - injection H1 as <-.
    change inf with (running_best []) in H. apply train_epochs_runs in H as (new & T & R).
    now exists new.
Qed.

End Trainer.

(** C8, the claim as it is written: a batch of integer labels with a value
    outside 0 and 1 would be stopped by an assertion.  With the annotated
    labels 1 and 0 and the unannotated labels 0 and 2, and with the annotated
    labels -3 and 1, the training iteration returns, its losses computed. *)
Lemma label_outside_0_1_not_caught :
  let env := example_env (fun _ => []) (fun _ => []) in
  let s := mk_bstate O [Continue] [] in
  (exists s' r,
     train_iteration env example_config 1 0 0 []
       (example_batch [FNum (inject_Z 2)] [FNum (inject_Z 3)] [0; 2] [1; 0]) s = (s', Ok r) /\
     In LossComputed (btrace s')) /\
  (exists s' r,
     train_iteration env example_config 1 0 0 []
       (example_batch [FNum (inject_Z 2)] [FNum (inject_Z 3)] [0; 1] [-3; 1]) s = (s', Ok r) /\
     In LossComputed (btrace s')).
Proof.
  cbv zeta. split; eexists; eexists; (split; [vm_compute; reflexivity|]); cbn; tauto.
Qed.

Lemma binary_labels_checked_by_their_maximum_witness :
  train_iteration (example_env (fun _ => []) (fun _ => [])) example_config 1 0 0 []
    (example_batch [FNum (inject_Z 2)] [FNum (inject_Z 3)] [0; 1] [0; 255])
    (mk_bstate O [Continue] [])
  = (mk_bstate O [Continue] [], Raise AssertionError) /\
  binarize true (tmap of_int [[ [[1; 0]] ]]) (tmap of_int [[ [[0; 2]] ]])
  = Ok (tmap (fun z => if 1 <=? z then one else zero) [[ [[1; 0]] ]],
        threshold (tmap of_int [[ [[0; 2]] ]])).
Proof.
  split.
  - refine (proj1 (proj1 (binary_labels_checked_by_their_maximum
                     (example_env (fun _ => []) (fun _ => [])) example_config 1 0 0 []
                     (example_batch [FNum (inject_Z 2)] [FNum (inject_Z 3)] [0; 1] [0; 255])
                     (mk_bstate O [Continue] [])
                     (mk_pair [[ [[FNum (inject_Z 2)]] ]] (LInt [[ [[0; 1]] ]])
                              [[ [[FNum (inject_Z 3)]] ]] (LInt [[ [[0; 255]] ]]))
                     [[ [[0; 255]] ]] 0 [255]
                     eq_refl ltac:(lia) eq_refl eq_refl eq_refl) _)).
    cbn. lia.
  - refine (proj2 (binary_labels_checked_by_their_maximum
                     (example_env (fun _ => []) (fun _ => [])) example_config 1 0 0 []
                     (example_batch [FNum (inject_Z 2)] [FNum (inject_Z 3)] [0; 2] [1; 0])
                     (mk_bstate O [Continue] [])
                     (mk_pair [[ [[FNum (inject_Z 2)]] ]] (LInt [[ [[0; 2]] ]])
                              [[ [[FNum (inject_Z 3)]] ]] (LInt [[ [[1; 0]] ]]))
                     [[ [[1; 0]] ]] 1 [0]
                     eq_refl ltac:(lia) eq_refl eq_refl eq_refl) _).
    cbn. lia.
Defined.

(** A training and a validation iteration of the second instance, with the
    unannotated image 2, 5 and the annotated image 3, 7.  The predictor
    gets the channels 3, 7 and 2, 5 in this order; the forward field warps
    2, 5 to 9, 22 and the reverse field warps that to 26, 104; the loss is
    (36 + 225) / 2 + (576 + 9801) / 2 = 5319. *)
Lemma loss_is_forward_plus_cyclic_witness :
  let b := example_batch [FNum (inject_Z 2); FNum (inject_Z 5)]
                         [FNum (inject_Z 3); FNum (inject_Z 7)] [0; 1] [1; 0] in
  (exists p,
     select_pair false [] b = Ok p /\
     cyclic_loss arithmetic_env true O (annotated_images p) (unannotated_images p)
       = Ok (FNum (Qmake 5319 1))) /\
  (exists p,
     select_pair false [] b = Ok p /\
     cyclic_loss arithmetic_env false O (annotated_images p) (unannotated_images p)
       = Ok (FNum (Qmake 5319 1))).
Proof.
  intros b. split.
  - exact (proj1 (loss_is_forward_plus_cyclic arithmetic_env example_config 1 0 0 [] true b
                    (mk_bstate O [Continue] [])
                    (mk_bstate 1%nat []
                       [PredictedField; Warped; Warped; Warped; Breakpoint;
                        ThresholdedProjectedLabels; MetricComputed; MetricComputed;
                        Plotted; LossComputed; LossComputed; OptimizerStepped])
                    (mk_iteration_result (FNum (Qmake 5319 1)) (FNum (Qmake 261 2))
                       (FNum (Qmake 10377 2)) [one] [one] "DSC" 1)
                    ltac:(vm_compute; reflexivity))).
  - exact (proj1 (loss_is_forward_plus_cyclic arithmetic_env example_config 1 0 0 [] false b
                    (mk_bstate O [Continue] [])
                    (mk_bstate O [Continue]
                       [PredictedField; Warped; Warped; Warped;
                        ThresholdedProjectedLabels; MetricComputed; MetricComputed;
                        Plotted; LossComputed; LossComputed])
                    (mk_iteration_result (FNum (Qmake 5319 1)) (FNum (Qmake 261 2))
                       (FNum (Qmake 10377 2)) [one] [one] "DSC" 1)
                    ltac:(vm_compute; reflexivity))).
Defined.

(** A training iteration that takes the one command to continue of the
    debugger input. *)
Lemma breakpoint_in_training_iterations_only_witness :
  let s := mk_bstate O [Continue] [] in
  let s' := mk_bstate 1%nat []
              [PredictedField; Warped; Warped; Warped; Breakpoint;
               ThresholdedProjectedLabels; MetricComputed; MetricComputed;
               Plotted; LossComputed; LossComputed; OptimizerStepped] in
  dbg s = Continue :: dbg s' /\
  exists mid,
    Forall label_work mid /\
    btrace s' = btrace s ++ [PredictedField; Warped; Warped; Warped; Breakpoint] ++ mid
                         ++ [LossComputed; LossComputed; OptimizerStepped].
Proof.
  intros s s'.
  apply (proj1 (proj2 (breakpoint_in_training_iterations_only
                         (example_env (fun _ => []) (fun _ => []))
                         example_config 1 0 0 []
                         (example_batch [FNum (inject_Z 2)] [FNum (inject_Z 3)] [0; 1] [1; 0])
                         (mk_test_batch [] (LInt []) [] (LInt [])) s s'))
           (mk_iteration_result (FNum (Qmake 5 1)) (FNum (Qmake 3 1)) (FNum (Qmake 2 1))
              [one] [one] "DSC" 1)).
  vm_compute. reflexivity.
Defined.

(** Four epochs at most, validation losses 5, 7 and 3, an early stopper
    that stops in the third epoch: the weights are saved in the first and
    the third epoch, and no fourth epoch runs. *)
Lemma checkpoint_on_improvement_and_early_stop_witness :
  let env := example_env
               (fun _ => [example_batch [FNum (inject_Z 2)] [FNum (inject_Z 3)] [0; 1] [1; 0]])
               (fun epoch_idx =>
                  [example_batch [FNum (inject_Z (nth (Z.to_nat epoch_idx) [2; 3; 1] 0))]
                                 [FNum (inject_Z (nth (Z.to_nat epoch_idx) [3; 4; 2] 0))]
                                 [0; 1] [1; 0]]) in
  let cfg := mk_config false 4 1 50 "UNet" "checkpoints/DiffeoMappingNet.ckpt" in
  let s := mk_estate O [Continue; Continue; Continue] [] ∅ in
  let s' := fst (train env cfg s) in
  (exists new, trace s' = trace s ++ new /\
     epoch_runs (DiffeoMappingNet_model_save_path cfg) (es_step env) []
                (EarlyStopping env "min" (patience cfg) false)
                (range (max_epochs cfg)) new (checkpoints s) (checkpoints s') (Ok tt)) /\
  checkpoints s' !! "checkpoints/DiffeoMappingNet.ckpt" = Some 3%nat /\
  List.filter (fun e => match e with
                   | LogValidation _ _ _ _ _ _ _ | SavedWeights _ _ | LogEarlyStop => true
                   | _ => false
                   end) (trace s')
  = [LogValidation 1 (FNum (Qmake 5 1)) (FNum (Qmake 3 1)) (FNum (Qmake 2 1)) "DSC" [one] [one];
     SavedWeights "checkpoints/DiffeoMappingNet.ckpt" 1%nat;
     LogValidation 2 (FNum (Qmake 7 1)) (FNum (Qmake 4 1)) (FNum (Qmake 3 1)) "DSC" [one] [one];
     LogValidation 3 (FNum (Qmake 3 1)) (FNum (Qmake 2 1)) (FNum (Qmake 1 1)) "DSC" [one] [one];
     SavedWeights "checkpoints/DiffeoMappingNet.ckpt" 3%nat;
     LogEarlyStop].
Proof.
  intros env cfg s s'.
  split; [|split; vm_compute; reflexivity].
  exact (proj1 (checkpoint_on_improvement_and_early_stop env cfg s s' (Ok tt)
                  ltac:(vm_compute; reflexivity))).
Defined.

Example training_iteration_trace :
  btrace (fst (train_iteration (example_env (fun _ => []) (fun _ => []))
                 example_config 1 0 0 []
                 (example_batch [FNum (inject_Z 2)] [FNum (inject_Z 3)] [0; 1] [1; 0])
                 (mk_bstate O [Continue] [])))
  = [PredictedField; Warped; Warped; Warped; Breakpoint; ThresholdedProjectedLabels;
     MetricComputed; MetricComputed; Plotted; LossComputed; LossComputed; OptimizerStepped].
Proof. vm_compute. reflexivity. Qed.

Example training_iteration_without_debugger_input :
  train_iteration (example_env (fun _ => []) (fun _ => []))
    example_config 1 0 0 []
    (example_batch [FNum (inject_Z 2)] [FNum (inject_Z 3)] [0; 1] [1; 0])
    (mk_bstate O [] [])
  = (mk_bstate O [] [PredictedField; Warped; Warped; Warped; Breakpoint], Raise BdbQuit).
Proof. vm_compute. reflexivity. Qed.

End TrainFacts.

(** ** Inference *)

Module InferFacts.
Import Infer STFacts.

#[local] Instance logs_no_metric_preorder : PreOrder logs_no_metric.
Proof.
  split.
  - intros w. exists []. split; [now rewrite app_nil_r|constructor].
  - intros w1 w2 w3 (n1 & E1 & F1) (n2 & E2 & F2). exists (n1 ++ n2).
    split; [rewrite E2, E1; now rewrite app_assoc|now apply Forall_app].
Qed.

#[local] Instance files_stay_preorder : PreOrder files_stay.
Proof.
  split.
  - now intros w path.
  - intros w1 w2 w3 H12 H23 path H. now apply H23, H12.
Qed.

Section Keeps.
Context (R : relation world) `{!PreOrder R}.

Lemma keeps_lift {A : Type} (r : result A) : keeps R (lift r).
Proof. intros w w' r' H. apply lift_run in H as [-> _]. reflexivity. Qed.

Lemma keeps_mret {A : Type} (a : A) : keeps R (mret a).
Proof. intros w w' r' H. apply mret_run in H as [-> _]. reflexivity. Qed.

Lemma keeps_read {A : Type} (f : world -> result A) : keeps R (fun w => (w, f w)).
Proof. intros w w' r' [= <- _]. reflexivity. Qed.

Lemma keeps_bind {A C : Type} (c : IO A) (k : A -> IO C) :
  keeps R c -> (forall a, keeps R (k a)) -> keeps R (c ≫= k).
Proof.
  intros Hc Hk w w' r H.
  apply bind_run in H as [(e & H1 & ->) | (w1 & a & H1 & H)].
  - exact (Hc _ _ _ H1).
  - transitivity w1; [exact (Hc _ _ _ H1)|exact (Hk _ _ _ _ H)].
Qed.

Lemma keeps_forM {X Y : Type} (l : list X) (f : X -> IO Y) :
  (forall x, keeps R (f x)) -> keeps R (forM l f).
Proof.
  intros Hf. induction l as [|x l IH]; cbn [forM].
  - apply keeps_mret.
  - apply keeps_bind; [apply Hf|]. intros y.
    apply keeps_bind; [apply IH|]. intros ys. apply keeps_mret.
Qed.

Lemma keeps_if {A : Type} (b : bool) (c1 c2 : IO A) :
  keeps R c1 -> keeps R c2 -> keeps R (if b then c1 else c2).
Proof. now destruct b. Qed.

(** A loop whose body keeps [R] and, when it returns, makes [Q] of its
    element true, where [Q] once true stays true along [R]: the loop, when it
    returns, has made [Q] true of every element. *)
Lemma forM_ensures {X Y : Type} (Q : X -> world -> Prop) (l : list X) (f : X -> IO Y) :
  (forall x w w', Q x w -> R w w' -> Q x w') ->
  (forall x, keeps R (f x)) ->
  (forall x w w' y, f x w = (w', Ok y) -> Q x w') ->
  forall w w' ys, forM l f w = (w', Ok ys) ->
    length ys = length l /\ Forall (fun x => Q x w') l.
Proof.
  intros Hstable Hkeeps Hf. induction l as [|x l IH]; intros w w' ys H; cbn [forM] in H.
  - apply mret_run in H as [-> [= ->]]. split; [reflexivity|constructor].
  - apply bind_Ok in H as (w1 & y & H1 & H).
    apply bind_Ok in H as (w2 & ys' & H2 & H).
    apply mret_run in H as [-> [= ->]].
    destruct (IH _ _ _ H2) as [Hlen HQ]. split; [cbn; now rewrite Hlen|].
    constructor; [|assumption].
    apply (Hstable x w1); [exact (Hf _ _ _ _ H1)|].
    exact (keeps_forM l f Hkeeps _ _ _ H2).
Qed.

End Keeps.

Lemma emit_logs_no_metric (e : event) :
  is_stitched_metric_log e = false -> keeps logs_no_metric (emit e).
Proof.
  intros He w w' r. unfold emit. intros [= <- _]. exists [e].
  split; [reflexivity|]. now repeat constructor.
Qed.

Lemma imwrite_logs_no_metric path img : keeps logs_no_metric (imwrite path img).
Proof.
  intros w w' r. unfold imwrite. intros [= <- _]. exists []. cbn.
  split; [now rewrite app_nil_r|constructor].
Qed.

Lemma rmtree_logs_no_metric folder : keeps logs_no_metric (rmtree folder).
Proof.
  intros w w' r. unfold rmtree. intros [= <- _]. exists [Rmtree folder].
  split; [reflexivity|]. now repeat constructor.
Qed.

Lemma emit_files_stay (e : event) : keeps files_stay (emit e).
Proof. intros w w' r. unfold emit. intros [= <- _]. now intros p. Qed.

Lemma imwrite_files_stay path img : keeps files_stay (imwrite path img).
Proof.
  intros w w' r. unfold imwrite. intros [= <- _] p Hp. cbn.
  destruct (decide (path = p)) as [->|Hne].
  - rewrite lookup_insert_eq. now eexists.
  - now rewrite lookup_insert_ne.
Qed.

Lemma imwrite_written path img (w w' : world) r :
  imwrite path img w = (w', r) -> is_Some (files w' !! path).
Proof. unfold imwrite. intros [= <- _]. cbn. rewrite lookup_insert_eq. now eexists. Qed.

(** The rules above, applied as far as they go. *)
Ltac keeps_logs :=
  repeat first
    [ apply keeps_lift; [apply _]
    | apply keeps_mret; [apply _]
    | apply keeps_read; [apply _]
    | apply imwrite_logs_no_metric
    | apply rmtree_logs_no_metric
    | apply emit_logs_no_metric; reflexivity
    | apply keeps_if
    | apply keeps_forM; [apply _|intros ?]
    | apply keeps_bind; [apply _| |intros ?] ].

Ltac keeps_files :=
  repeat first
    [ apply keeps_lift; [apply _]
    | apply keeps_mret; [apply _]
    | apply keeps_read; [apply _]
    | apply imwrite_files_stay
    | apply emit_files_stay
    | apply keeps_forM; [apply _|intros ?]
    | apply keeps_bind; [apply _| |intros ?] ].

Section Stitcher.
Variable bgr2gray : Z * Z * Z -> Z.
Variable glob : gmap string image -> string -> list string.

Lemma stitch_patches_logs_no_metric folder size :
  keeps logs_no_metric (Stitch.stitch_patches bgr2gray glob folder size).
Proof. unfold Stitch.stitch_patches. keeps_logs. Qed.

Lemma stitch_patches_files_stay folder size :
  keeps files_stay (Stitch.stitch_patches bgr2gray glob folder size).
Proof. unfold Stitch.stitch_patches. keeps_files. Qed.

(** When the stitcher returns, the canvas of every base identifier and its
    coloured version are on disk. *)
Lemma stitch_patches_written folder size (w w' : world) canvases stitched_folder :
  Stitch.stitch_patches bgr2gray glob folder size w = (w', Ok (canvases, stitched_folder)) ->
  stitched_folder = PyStr.replace folder "pred_patches" "stitched_labels" /\
  exists base_label_list,
    length canvases = length base_label_list /\
    Forall (fun base =>
              is_Some (files w' !! PyStr.replace base folder stitched_folder) /\
              is_Some (files w' !! PyStr.replace base folder
                         (PyStr.replace folder "pred_patches" "colored_stitched_labels")))
           base_label_list.
Proof.
  unfold Stitch.stitch_patches. intros H.
  apply bind_Ok in H as (w1 & [] & _ & H).
  apply bind_Ok in H as (w2 & [] & _ & H).
  apply bind_Ok in H as (w3 & [] & _ & H).
  apply bind_Ok in H as (w4 & label_list & _ & H).
  apply bind_Ok in H as (w5 & base_label_list & _ & H).
  apply bind_Ok in H as (w6 & l & Hloop & H).
  apply bind_Ok in H as (w7 & [] & Hlog & H).
  apply mret_run in H as [-> [= -> ->]]. split; [reflexivity|].
  exists base_label_list.
  unfold emit in Hlog. injection Hlog as <-. cbn [files].
  eapply (forM_ensures files_stay
            (fun base w =>
               is_Some (files w !! PyStr.replace base folder
                          (PyStr.replace folder "pred_patches" "stitched_labels")) /\
               is_Some (files w !! PyStr.replace base folder
                          (PyStr.replace folder "pred_patches" "colored_stitched_labels"))));
    [| | |exact Hloop].
  - intros base v v' [H1 H2] Hv. split; now apply Hv.
  - intros base. keeps_files.
  - intros base v v' y Hbody.
    apply bind_Ok in Hbody as (v1 & canvas & [= <- _] & Hbody).
    apply bind_Ok in Hbody as (v2 & [] & Hw1 & Hbody).
    apply bind_Ok in Hbody as (v3 & [] & Hw2 & Hbody).
    apply mret_run in Hbody as [-> _].
    split; [|exact (imwrite_written _ _ _ _ _ Hw2)].
    apply (imwrite_files_stay _ _ _ _ _ Hw2). exact (imwrite_written _ _ _ _ _ Hw1).
Qed.

End Stitcher.

Section Inference.
Context {Model : Type} (env : collaborators Model) (g : namespace Model).

Lemma predict_logs_no_metric cfg : keeps logs_no_metric (predict env g cfg).
Proof. unfold predict. keeps_logs. Qed.

Lemma write_and_stitch_logs_no_metric cfg p :
  keeps logs_no_metric (write_and_stitch env cfg p).
Proof. unfold write_and_stitch. keeps_logs. Qed.

Lemma before_evaluation_logs_no_metric cfg : keeps logs_no_metric (before_evaluation env g cfg).
Proof.
  unfold before_evaluation. apply keeps_bind; [apply _|apply predict_logs_no_metric|].
  intros p. apply write_and_stitch_logs_no_metric.
Qed.

(** When the predicted labels are stitched, the file of every one of them
    and the stitched canvases are on disk. *)
Lemma write_and_stitch_written cfg p (w w' : world) (s : stitched) :
  write_and_stitch env cfg p w = (w', Ok s) ->
  predictions s = p /\
  (forall i, (i < length (pred_label_list p))%nat ->
     exists path, test_image_paths (pairs p) !! i = Some path /\
                  is_Some (files w' !! patch_file p path)) /\
  exists base_label_list,
    length (stitched_label_list s) = length base_label_list /\
    Forall (fun base =>
              is_Some (files w' !! PyStr.replace base (pred_label_folder p) (stitched_folder s)) /\
              is_Some (files w' !! PyStr.replace base (pred_label_folder p)
                         (PyStr.replace (pred_label_folder p) "pred_patches"
                                        "colored_stitched_labels")))
           base_label_list.
Proof.
  unfold write_and_stitch. intros H.
  apply bind_Ok in H as (w1 & [] & _ & H).
  apply bind_Ok in H as (w2 & l & Hloop & H).
  apply bind_Ok in H as (w3 & [canvases folder] & Hstitch & H).
  apply bind_Ok in H as (w4 & test_label_folder & Hattr & H).
  apply lift_run in Hattr as [-> _]. apply mret_run in H as [-> [= ->]]. cbn.
  split; [reflexivity|]. split.
  - intros i Hi.
    apply (forM_ensures files_stay
             (fun ix w => exists path, test_image_paths (pairs p) !! fst ix = Some path /\
                                       is_Some (files w !! patch_file p path))) in Hloop
      as [_ Hall].
    + destruct (lookup_lt_is_Some_2 (pred_label_list p) i Hi) as [x Hx].
      rewrite Forall_lookup in Hall.
      destruct (Hall i (i, x)) as (path & Hpath & Hfile).
      { rewrite list_lookup_imap, Hx. reflexivity. }
      exists path. split; [exact Hpath|].
      exact (stitch_patches_files_stay _ _ _ _ _ _ _ Hstitch _ Hfile).
    + intros ix v v' (path & Hpath & Hfile) Hv. exists path. split; [assumption|now apply Hv].
    + intros ix. keeps_files.
    + intros ix v v' y Hbody.
      apply bind_Ok in Hbody as (v1 & path & Hpath & Hbody).
      apply lift_run in Hpath as [-> Hpath].
      apply bind_Ok in Hbody as (v2 & img & Himg & Hbody).
      apply lift_run in Himg as [-> _].
      exists path. split; [|exact (imwrite_written _ _ _ _ _ Hbody)].
      unfold Tensor.index_row in Hpath. now destruct (_ !! _); [injection Hpath as ->|].
  - apply stitch_patches_written in Hstitch as [-> Hbases]. exact Hbases.
Qed.

(** C6. A call of [infer] that reaches the evaluation of the stitched labels,
    in a module whose global namespace does not bind [dataset_name], raises
    [NameError] for that name there.  Nothing was logged about a stitched
    metric and nothing is, as the run ends in the state it reached the
    evaluation in; in that state the file of the predicted label of every
    patch, the stitched canvases and their coloured versions are on disk. *)
Theorem infer_raises_NameError_at_evaluation cfg (w w1 : world) (s : stitched) :
  g !! "dataset_name" = None ->
  before_evaluation env g cfg w = (w1, Ok s) ->
  infer env g cfg w = (w1, Raise (NameError "dataset_name")) /\
  (exists new, events w1 = events w ++ new /\
               Forall (fun e => is_stitched_metric_log e = false) new) /\
  (forall i, (i < length (pred_label_list (predictions s)))%nat ->
     exists path, test_image_paths (pairs (predictions s)) !! i = Some path /\
                  is_Some (files w1 !! patch_file (predictions s) path)) /\
  exists base_label_list,
    length (stitched_label_list s) = length base_label_list /\
    Forall (fun base =>
              is_Some (files w1 !! PyStr.replace base (pred_label_folder (predictions s))
                         (stitched_folder s)) /\
              is_Some (files w1 !! PyStr.replace base (pred_label_folder (predictions s))
                         (PyStr.replace (pred_label_folder (predictions s)) "pred_patches"
                                        "colored_stitched_labels")))
           base_label_list.
Proof.
  intros Hg Hbefore. split; [|split].
  - unfold infer, mbind, ST_bind. rewrite Hbefore.
    unfold evaluation, mbind, ST_bind, lift, lookup_global. now rewrite Hg.
  - exact (before_evaluation_logs_no_metric cfg _ _ _ Hbefore).
  - unfold before_evaluation in Hbefore.
    apply bind_Ok in Hbefore as (w0 & p & _ & Hws).
    apply write_and_stitch_written in Hws as (<- & Hfiles & Hcanvases). now split.
Qed.

(** What a run needs to reach the evaluation: the names [model_name] and
    [load_match_pairs] bound in the namespace, and a configuration with the
    attributes [output_save_root] and [groudtruth_folder]. *)
Lemma evaluation_reached_only_with cfg (w w1 : world) (s : stitched) :
  before_evaluation env g cfg w = (w1, Ok s) ->
  is_Some (g !! "model_name") /\ is_Some (g !! "load_match_pairs") /\
  (exists root, output_save_root cfg = Has root) /\
  (exists folder, groudtruth_folder cfg = Has folder).
Proof.
  unfold before_evaluation. intros H.
  apply bind_Ok in H as (w0 & p & Hp & Hws).
  unfold predict in Hp.
  apply bind_Ok in Hp as (? & [] & _ & Hp).
  apply bind_Ok in Hp as (? & root & Hroot & Hp). apply lift_run in Hroot as [_ Hroot].
  apply bind_Ok in Hp as (? & model_name & Hname & Hp). apply lift_run in Hname as [_ Hname].
  apply bind_Ok in Hp as (? & ? & _ & Hp).
  apply bind_Ok in Hp as (? & ? & _ & Hp).
  apply bind_Ok in Hp as (? & ? & _ & Hp).
  apply bind_Ok in Hp as (? & ? & _ & Hp).
  apply bind_Ok in Hp as (? & ? & _ & Hp).
  apply bind_Ok in Hp as (? & loader & Hloader & _). apply lift_run in Hloader as [_ Hloader].
  unfold write_and_stitch in Hws.
  apply bind_Ok in Hws as (? & [] & _ & Hws).
  apply bind_Ok in Hws as (? & ? & _ & Hws).
  apply bind_Ok in Hws as (? & ? & _ & Hws).
  apply bind_Ok in Hws as (? & folder & Hfolder & _). apply lift_run in Hfolder as [_ Hfolder].
  unfold lookup_global in Hname, Hloader. unfold getattr in Hroot, Hfolder.
  repeat split.
  - destruct (g !! "model_name"); [now eexists|discriminate].
  - destruct (g !! "load_match_pairs"); [now eexists|discriminate].
  - destruct (output_save_root cfg); [now eexists|discriminate].
  - destruct (groudtruth_folder cfg); [now eexists|discriminate].
Qed.

(** The plot of a batch never returns. *)
Lemma plot_batch_raises (iter_idx : Z) a b c d e f t :
  plot_batch env g iter_idx a b c d e f t <> Ok tt.
Proof.
  unfold plot_batch.
  destruct (lookup_global g "save_folder"); [|discriminate]. rsimpl.
  repeat match goal with
         | |- context [Tensor.index_row ?x 0] => destruct (Tensor.index_row x 0); [|discriminate]; rsimpl
         end.
  discriminate.
Qed.

(** With labels for the test images, the first batch of the inference loop
    raises: the loop returns only for an empty loader. *)
Lemma infer_batches_with_test_labels m (batches : list (list row)) acc l :
  infer_batches env g m true 0 batches acc = Ok l -> batches = [].
Proof.
  destruct batches as [|batch rest]; [reflexivity|]. cbn [infer_batches].
  destruct (infer_batch env g m true 0 batch) as [x|e] eqn:Hb; [|discriminate].
  exfalso. unfold infer_batch in Hb.
  repeat match type of Hb with
         | (match ?c with Ok _ => _ | Raise _ => _ end) = _ =>
             destruct c eqn:?; [|discriminate]
         | (?c ≫= _) = _ => destruct c eqn:?; [|discriminate]; rsimpl in Hb
         end.
  match goal with H : (if _ then plot_batch _ _ _ _ _ _ _ _ _ _ else _) = Ok ?u |- _ =>
    cbn in H; destruct u; now apply plot_batch_raises in H end.
Qed.

(** With [dataset_name] unbound, [infer] never returns. *)
Lemma infer_never_returns cfg (w : world) :
  g !! "dataset_name" = None -> snd (infer env g cfg w) <> Ok tt.
Proof.
  intros Hg. unfold infer, mbind, ST_bind.
  destruct (before_evaluation env g cfg w) as [w1 [s|e]]; [|discriminate].
  unfold evaluation, mbind, ST_bind, lift, lookup_global. now rewrite Hg.
Qed.

End Inference.

(** One patch is predicted, written and stitched; then the evaluation of the
    stitched labels raises. *)
Lemma infer_raises_NameError_at_evaluation_witness :
  let w := mk_world ∅ [] in
  let w1 := fst (before_evaluation example_env example_globals example_config w) in
  infer example_env example_globals example_config w = (w1, Raise (NameError "dataset_name")) /\
  map fst (map_to_list (files w1)) =
    ["results/run/stitched_labels/img.png";
     "results/run/colored_stitched_labels/img.png";
     "results/run/pred_patches/img_H0_W0.png"].
Proof.
  intros w w1. split; [|vm_compute; reflexivity].
  destruct (snd (before_evaluation example_env example_globals example_config w)) as [s|e] eqn:Hs;
    [|vm_compute in Hs; discriminate].
  apply (infer_raises_NameError_at_evaluation example_env example_globals example_config w w1 s
           ltac:(reflexivity)).
  subst w1. rewrite <- Hs. now destruct (before_evaluation _ _ _ w).
Defined.

End InferFacts.

(** ** Lists and loops *)

Module LoopFacts.
Import STFacts.

Lemma lookup_map {X Y : Type} (f : X -> Y) (l : list X) (k : nat) :
  map f l !! k = f <$> l !! k.
Proof. revert k; induction l as [|x l IH]; intros [|k]; cbn; auto. Qed.


Lemma forM_results {S X Y : Type} (P : Y -> Prop) (l : list X) (f : X -> ST S Y) :
  (forall x s s' y, f x s = (s', Ok y) -> P y) ->
  forall s s' ys, forM l f s = (s', Ok ys) -> length ys = length l /\ Forall P ys.
Proof.
  intros Hf. induction l as [|x l IH]; intros s s' ys H; cbn [forM] in H.
  - apply mret_run in H as [_ [= ->]]. split; [reflexivity|constructor].
  - apply bind_Ok in H as (s1 & y & H1 & H).
    apply bind_Ok in H as (s2 & ys' & H2 & H).
    apply mret_run in H as [_ [= ->]].
    destruct (IH _ _ _ H2) as [Hlen HP]. split; [cbn; now rewrite Hlen|].
    constructor; [exact (Hf _ _ _ _ H1)|assumption].
Qed.

End LoopFacts.

(** ** More on the orientation matcher *)

Module OrientationFacts.
Import FlipRot FlipRotFacts.

Section Planes.
Context {A : Type}.
Implicit Types (m : @plane A) (image : @tensor A).

Lemma transpose_map_rev h w m :
  rect h w m -> transpose w (map (@rev A) m) = rev (transpose w m).
Proof.
  intros Hm.
  pose proof (transpose_rect _ _ _ Hm) as Ht.
  rewrite <- (transpose_involutive h w m Hm) at 1.
  rewrite <- transpose_rev.
  apply transpose_involutive. now apply rev_rect.
Qed.

(** A flip followed by a quarter turn is a three-quarter turn followed by a
    flip. *)
Lemma quarter_of_flipped n image :
  square_image n image -> rot90 1 (flip_dim2 image) = flip_dim2 (rot90 3 image).
Proof.
  intros H. unfold rot90; simpl. unfold transpose_2_3, flip_dim2, flip_dim3.
  rewrite !(map_map_tensor (A:=A)). apply (tensor_ext2 _ _ (rect n n)); [|exact H].
  intros m Hm. destruct n as [|n].
  { destruct Hm as [Hl _]. destruct m; [reflexivity|discriminate]. }
  pose proof (rev_rect _ _ _ Hm) as H1.
  rewrite (width_rect _ _ _ (map_rev_rect _ _ _ H1)), (width_rect _ _ _ H1).
  now apply (transpose_map_rev (S n)).
Qed.

Lemma three_quarters_of_flipped n image :
  square_image n image -> rot90 3 (flip_dim2 image) = flip_dim2 (rot90 1 image).
Proof.
  intros H. unfold rot90; simpl. unfold transpose_2_3, flip_dim2, flip_dim3.
  rewrite !(map_map_tensor (A:=A)). apply (tensor_ext2 _ _ (rect n n)); [|exact H].
  intros m Hm. destruct n as [|n].
  { destruct Hm as [Hl _]. destruct m; [reflexivity|discriminate]. }
  rewrite rev_involutive.
  rewrite (width_rect _ _ _ Hm), (width_rect _ _ _ (map_rev_rect _ _ _ Hm)).
  now rewrite (transpose_map_rev (S n)), rev_involutive.
Qed.

Lemma square_plane_map (f : @plane A -> @plane A) n image :
  (forall m, rect n n m -> rect n n (f m)) ->
  square_image n image -> square_image n (map (map f) image).
Proof.
  intros Hf H. unfold square_image in *. rewrite List.Forall_map.
  eapply Forall_impl; [exact H|]. intros chans Hc. rewrite List.Forall_map.
  eapply Forall_impl; [exact Hc|]. exact Hf.
Qed.

Lemma flip_dim2_square n image : square_image n image -> square_image n (flip_dim2 image).
Proof. apply square_plane_map. intros m. apply rev_rect. Qed.

Lemma flip_dim3_square n image : square_image n image -> square_image n (flip_dim3 image).
Proof. apply square_plane_map. intros m. apply map_rev_rect. Qed.

Lemma transpose_2_3_square n image :
  square_image n image -> square_image n (transpose_2_3 image).
Proof.
  apply square_plane_map. intros m Hm. destruct n as [|n].
  { destruct Hm as [Hl _]. destruct m; [|discriminate]. split; [reflexivity|constructor]. }
  rewrite (width_rect _ _ _ Hm). now apply transpose_rect.
Qed.

Lemma rot90_square n k image : square_image n image -> square_image n (rot90 k image).
Proof.
  intros H. unfold rot90.
  repeat match goal with |- context [if ?b then _ else _] => destruct b end;
    auto using flip_dim2_square, flip_dim3_square, transpose_2_3_square.
Qed.

(** [flip_rot] keeps a batch of square planes one. *)
Lemma flip_rot_square n image fliplr rot_angle image' :
  square_image n image -> flip_rot image fliplr rot_angle = Ok image' ->
  square_image n image'.
Proof.
  intros H. unfold flip_rot.
  assert (Hf : square_image n (if fliplr then flip_dim2 image else image))
    by (destruct fliplr; auto using flip_dim2_square).
  repeat match goal with |- context [if ?b then _ else _] => destruct b end;
    try (intros [= <-]; auto using rot90_square).
  all: try (intros [= <-]; apply rot90_square; destruct fliplr; auto using flip_dim2_square).
  all: destruct (rot_angle =? 0); cbn; try discriminate; intros [= <-]; assumption.
Qed.

(** X1.  For the six candidates of [predict_flipping_rotation] that do not
    both flip and turn by a quarter, the reverse transform applied to the
    output of the forward transform gives back every batch of square
    images. *)
Theorem unflipped_or_half_turn_candidates_round_trip n image (c : transform * transform) :
  square_image n image ->
  c ∈ candidates ->
  (fst (fst c) = false \/ snd (fst c) = 0 \/ snd (fst c) = 180) ->
  (apply_transform (fst c) image ≫= apply_transform (snd c)) = Ok image.
Proof. apply reverse_undoes_forward_unflipped_or_half. Qed.

(** X2.  A flip followed by a quarter turn, by 90 or by 270 degrees, undoes
    itself: applied twice, [flip_rot] with [fliplr] set and that angle gives
    back every batch of square images. *)
Theorem flipped_quarter_turn_undoes_itself n image (rot_angle : Z) :
  square_image n image ->
  rot_angle = 90 \/ rot_angle = 270 ->
  (flip_rot image true rot_angle ≫= fun image' => flip_rot image' true rot_angle) = Ok image.
Proof.
  intros H Ha.
  assert (E1 : forall x : @tensor A, flip_rot x true 90 = Ok (rot90 1 (flip_dim2 x)))
    by reflexivity.
  assert (E3 : forall x : @tensor A, flip_rot x true 270 = Ok (rot90 3 (flip_dim2 x)))
    by reflexivity.
  destruct Ha as [-> | ->].
  - rewrite E1. cbn [mbind result_bind]. rewrite E1. f_equal.
    rewrite (quarter_of_flipped n image H), flip_dim2_involutive. now apply (rot90_1_3 n).
  - rewrite E3. cbn [mbind result_bind]. rewrite E3. f_equal.
    rewrite (three_quarters_of_flipped n image H), flip_dim2_involutive.
    now apply (rot90_3_1 n).
Qed.

Lemma map_length_plane_map (f : @plane A -> @plane A) image :
  map length (map (map f) image) = map length image.
Proof. rewrite map_map. apply map_ext. intros chans. apply length_map. Qed.

Lemma rot90_channels k image : map length (rot90 k image) = map length image.
Proof.
  unfold rot90, transpose_2_3, flip_dim2, flip_dim3.
  repeat match goal with |- context [if ?b then _ else _] => destruct b end;
    now rewrite ?map_length_plane_map.
Qed.

Lemma flip_rot_channels image (fliplr : bool) (rot_angle : Z) image' :
  flip_rot image fliplr rot_angle = Ok image' -> map length image' = map length image.
Proof.
  unfold flip_rot.
  destruct fliplr;
    (destruct (rot_angle =? 90); [intros [= <-]|
     destruct (rot_angle =? 180); [intros [= <-]|
     destruct (rot_angle =? 270); [intros [= <-]|
     destruct (rot_angle =? 0); cbn; [intros [= <-]|discriminate]]]]);
    rewrite ?rot90_channels; unfold flip_dim2; now rewrite ?map_length_plane_map.
Qed.

(** X3.  On a batch of square images, [flip_rot] returns for the angles 0,
    90, 180 and 270, with or without the flip, a batch of square images of
    the same size with the same number of samples and channels; for every
    other angle it raises [AssertionError]. *)
Theorem flip_rot_square_batch n image (fliplr : bool) (rot_angle : Z) :
  square_image n image ->
  (rot_angle ∈ [0; 90; 180; 270] ->
   exists image', flip_rot image fliplr rot_angle = Ok image' /\
                  square_image n image' /\ map length image' = map length image) /\
  (rot_angle ∉ [0; 90; 180; 270] -> flip_rot image fliplr rot_angle = Raise AssertionError).
Proof.
  intros H. split.
  - intros Ha.
    assert (Hex : exists image', flip_rot image fliplr rot_angle = Ok image' /\
                                 map length image' = map length image).
    { repeat (apply elem_of_cons in Ha; destruct Ha as [->|Ha]);
        try (apply elem_of_nil in Ha; contradiction);
        unfold flip_rot; cbn; eexists; (split; [reflexivity|]);
        rewrite ?rot90_channels; destruct fliplr; unfold flip_dim2;
        now rewrite ?map_length_plane_map. }
    destruct Hex as (image' & Hr & Hc). exists image'.
    split; [assumption|]. split; [|assumption]. exact (flip_rot_square n _ _ _ _ H Hr).
  - intros Ha. unfold flip_rot.
    assert (H0 : rot_angle <> 0) by (intros ->; apply Ha; set_solver).
    assert (H90 : rot_angle <> 90) by (intros ->; apply Ha; set_solver).
    assert (H180 : rot_angle <> 180) by (intros ->; apply Ha; set_solver).
    assert (H270 : rot_angle <> 270) by (intros ->; apply Ha; set_solver).
    apply Z.eqb_neq in H0, H90, H180, H270. now rewrite H0, H90, H180, H270.
Qed.

End Planes.

Lemma unflipped_or_half_turn_candidates_round_trip_witness :
  (apply_transform (false, 90) [[[[1; 2]; [3; 4]]]] ≫= apply_transform (false, 270))
  = Ok [[[[1; 2]; [3; 4]]]].
Proof.
  apply (unflipped_or_half_turn_candidates_round_trip 2 [[[[1; 2]; [3; 4]]]]
           ((false, 90), (false, 270))).
  - repeat constructor.
  - apply list_elem_of_In. vm_compute. tauto.
  - left. reflexivity.
Defined.

Lemma flipped_quarter_turn_undoes_itself_witness :
  (flip_rot [[[[1; 2]; [3; 4]]]] true 90 ≫= fun image' => flip_rot image' true 90)
  = Ok [[[[1; 2]; [3; 4]]]].
Proof.
  apply (flipped_quarter_turn_undoes_itself 2 [[[[1; 2]; [3; 4]]]] 90).
  - repeat constructor.
  - left. reflexivity.
Defined.

Lemma flip_rot_square_batch_witness :
  exists image', flip_rot [[[[1; 2]; [3; 4]]]] true 270 = Ok image' /\
                 square_image 2 image' /\ map length image' = [1%nat].
Proof.
  apply (proj1 (flip_rot_square_batch 2 [[[[1; 2]; [3; 4]]]] true 270
                  ltac:(repeat constructor))).
  apply list_elem_of_In. vm_compute. tauto.
Defined.

End OrientationFacts.


(** ** The choice of the orientation *)

Module MatcherFacts.
Import FlipRot LoopFacts.

Section Matcher.
Context {A Score : Type} (score_ltb : Score -> Score -> bool).
Context (cross_corr_max : @tensor A -> @tensor A -> list Score).
Hypothesis ltb_irrefl : forall a, score_ltb a a = false.
Hypothesis ltb_trans :
  forall a b c, score_ltb a b = true -> score_ltb b c = true -> score_ltb a c = true.










End Matcher.

End MatcherFacts.

(** ** [apply_flipping_rotation] *)

Module ApplyRotationFacts.
Import FlipRot FlipRotFacts LoopFacts.

Section Planes.
Context {A : Type}.
Implicit Types (m : @plane A) (s : list (@plane A)) (image : @tensor A).

Lemma apply_from_inv (ts : list transform) :
  forall (k : nat) image acc out,
    (k <= length image)%nat ->
    apply_from ts k image acc = Ok out ->
    length out = length acc /\ (k + length ts <= length image)%nat /\
    (forall i t, ts !! i = Some t ->
       exists s s', image !! (k + i)%nat = Some s /\ transform_sample t s = Ok s' /\
                    ((k + i < length acc)%nat -> out !! (k + i)%nat = Some s')) /\
    (forall j, (j < k \/ k + length ts <= j)%nat -> out !! j = acc !! j).
Proof.
  induction ts as [|t ts IH]; intros k image acc out Hk H; cbn [apply_from] in H.
  - injection H as <-. cbn. split; [reflexivity|]. split; [lia|]. split.
    + intros i t Hi. discriminate.
    + reflexivity.
  - destruct (image !! k) as [s|] eqn:Hs; [|discriminate]. cbn [mbind result_bind] in H.
    destruct (transform_sample t s) as [s'|e] eqn:Hs'; [|discriminate].
    cbn [mbind result_bind] in H.
    apply IH in H as (Hlen & Hle & Hsamples & Hframe);
      [|apply lookup_lt_Some in Hs; lia].
    unfold tensor in *. rewrite length_insert in Hlen.
    split; [assumption|]. split; [cbn; lia|]. split.
    + intros [|i] t' Hi.
      * injection Hi as <-. exists s, s'. rewrite Nat.add_0_r.
        split; [assumption|]. split; [assumption|]. intros Hka.
        rewrite Hframe by lia. now apply list_lookup_insert_eq.
      * destruct (Hsamples i t' Hi) as (s1 & s1' & H1 & H2 & H3).
        replace (k + S i)%nat with (S k + i)%nat by lia.
        exists s1, s1'. rewrite length_insert in H3. auto.
    + intros j Hj. rewrite Hframe by (cbn in Hj; lia).
      apply list_lookup_insert_ne. cbn in Hj. lia.
Qed.

Lemma zeros_like_lookup (zero : A) image (j : nat) :
  zeros_like zero image !! j = map (map (map (fun _ => zero))) <$> image !! j.
Proof. unfold zeros_like. revert j; induction image as [|s image IH]; intros [|j]; cbn; auto. Qed.

Lemma zeros_like_length (zero : A) image : length (zeros_like zero image) = length image.
Proof. unfold zeros_like. apply length_map. Qed.

Lemma apply_flipping_rotation_inv (zero : A) (ts : list transform) image out :
  apply_flipping_rotation zero ts image = Ok out ->
  (length ts <= length image)%nat /\ length out = length image /\
  (forall i t, ts !! i = Some t ->
     exists s s', image !! i = Some s /\ transform_sample t s = Ok s' /\ out !! i = Some s') /\
  (forall j s, (length ts <= j)%nat -> image !! j = Some s ->
     out !! j = Some (map (map (map (fun _ => zero))) s)).
Proof.
  unfold apply_flipping_rotation. intros H.
  apply apply_from_inv in H as (Hlen & Hle & Hsamples & Hframe); [|lia].
  rewrite zeros_like_length in Hlen. cbn in Hle.
  split; [assumption|]. split; [assumption|]. split.
  - intros i t Hi. destruct (Hsamples i t Hi) as (s & s' & H1 & H2 & H3). cbn in H1, H3.
    exists s, s'. split; [assumption|]. split; [assumption|]. apply H3.
    rewrite zeros_like_length. now apply lookup_lt_Some in H1.
  - intros j s Hj Hs. rewrite Hframe by (cbn; lia). rewrite zeros_like_lookup.
    unfold tensor, plane in *. now rewrite Hs.
Qed.

Lemma apply_from_Ok (ts : list transform) :
  forall (k : nat) image acc,
    (k + length ts <= length image)%nat ->
    (forall i t s, ts !! i = Some t -> image !! (k + i)%nat = Some s ->
                   exists s', transform_sample t s = Ok s') ->
    exists out, apply_from ts k image acc = Ok out.
Proof.
  induction ts as [|t ts IH]; intros k image acc Hle Hall; cbn [apply_from].
  - now eexists.
  - cbn in Hle. destruct (lookup_lt_is_Some_2 image k ltac:(lia)) as [s Hs].
    unfold tensor, plane in *. rewrite Hs.
    cbn [mbind result_bind].
    destruct (Hall 0%nat t s eq_refl) as [s' Hs']; [now rewrite Nat.add_0_r|].
    rewrite Hs'. cbn [mbind result_bind]. apply IH; [lia|].
    intros i t' s1 Hi H1. apply (Hall (S i) t' s1 Hi).
    now replace (k + S i)%nat with (S k + i)%nat by lia.
Qed.

Lemma square_sample_shape n s :
  Forall (rect n n) s ->
  sample_shape s = [length s; if (length s =? 0)%nat then 0%nat else n;
                    if ((length s =? 0) || (n =? 0))%nat then 0%nat else n].
Proof.
  intros H. unfold sample_shape. destruct H as [|m s [Hm Hrows] Hs]; [reflexivity|].
  cbn. rewrite Hm. f_equal. f_equal. f_equal.
  destruct n as [|n]; [now destruct m|]. destruct Hrows as [|r m Hr Hrows]; [discriminate|].
  exact Hr.
Qed.

(** A transform of a candidate applied to one sample of square planes. *)
Lemma transform_sample_square n (t : transform) s image' :
  Forall (rect n n) s -> apply_transform t [s] = Ok image' ->
  exists s', image' = [s'] /\ Forall (rect n n) s' /\ transform_sample t s = Ok s'.
Proof.
  intros Hs Ht.
  assert (Hsq : square_image n [s]) by (now constructor).
  assert (Hsq' : square_image n image').
  { unfold apply_transform in Ht.
    exact (OrientationFacts.flip_rot_square n _ _ _ _ Hsq Ht). }
  assert (Hch : map length image' = map length [s])
    by exact (OrientationFacts.flip_rot_channels _ _ _ _ Ht).
  destruct image' as [|s' [|? ?]]; try discriminate. injection Hch as Hch.
  exists s'. split; [reflexivity|].
  assert (Hs' : Forall (rect n n) s') by (now inversion Hsq').
  split; [assumption|]. unfold transform_sample. rewrite Ht. cbn [mbind result_bind].
  rewrite bool_decide_true; [reflexivity|].
  rewrite (square_sample_shape n s Hs), (square_sample_shape n s' Hs'). now rewrite Hch.
Qed.

(** X5.  When [apply_flipping_rotation] returns, there are no more
    transforms than samples, the output has as many samples as the input,
    sample [i] of the output is transform [i] applied to sample [i] of the
    input, and the samples beyond the last transform are zero. *)
Theorem apply_flipping_rotation_per_sample (zero : A) (ts : list transform) image out :
  apply_flipping_rotation zero ts image = Ok out ->
  (length ts <= length image)%nat /\ length out = length image /\
  (forall i t, ts !! i = Some t ->
     exists s s', image !! i = Some s /\ transform_sample t s = Ok s' /\ out !! i = Some s') /\
  (forall j s, (length ts <= j)%nat -> image !! j = Some s ->
     out !! j = Some (map (map (map (fun _ => zero))) s)).
Proof. apply apply_flipping_rotation_inv. Qed.

(** A candidate whose reverse undoes its forward transform, on one sample. *)
Lemma sample_round_trip n (c : transform * transform) s :
  Forall (rect n n) s -> c ∈ candidates ->
  (fst (fst c) = false \/ snd (fst c) = 0 \/ snd (fst c) = 180) ->
  exists s', transform_sample (fst c) s = Ok s' /\ Forall (rect n n) s' /\
             transform_sample (snd c) s' = Ok s.
Proof.
  intros Hs Hc Hgood.
  assert (Hsq : square_image n [s]) by (now constructor).
  pose proof (reverse_undoes_forward_unflipped_or_half n [s] c Hsq Hc Hgood) as Hrt.
  destruct (apply_transform (fst c) [s]) as [img1|e] eqn:H1; [|discriminate].
  cbn [mbind result_bind] in Hrt.
  destruct (transform_sample_square n _ _ _ Hs H1) as (s' & -> & Hs' & Ht1).
  destruct (transform_sample_square n _ _ _ Hs' Hrt) as (s'' & [= <-] & _ & Ht2).
  now exists s'.
Qed.

(** X6.  For a batch of square images and one candidate per sample, none of
    them a flip with a quarter turn, [apply_flipping_rotation] with the
    reverse transforms undoes [apply_flipping_rotation] with the forward
    transforms. *)
Theorem apply_flipping_rotation_round_trip (zero : A) n image
    (cs : list (transform * transform)) :
  square_image n image ->
  length cs = length image ->
  Forall (fun c => c ∈ candidates /\
                   (fst (fst c) = false \/ snd (fst c) = 0 \/ snd (fst c) = 180)) cs ->
  (apply_flipping_rotation zero (map fst cs) image
     ≫= apply_flipping_rotation zero (map snd cs)) = Ok image.
Proof.
  intros Hsq Hlen Hcs.
  assert (Hsample : forall i c s, cs !! i = Some c -> image !! i = Some s ->
            exists s', transform_sample (fst c) s = Ok s' /\ Forall (rect n n) s' /\
                       transform_sample (snd c) s' = Ok s).
  { intros i c s Hc Hs. rewrite Forall_lookup in Hcs. destruct (Hcs i c Hc) as [Hin Hgood].
    apply (sample_round_trip n); try assumption.
    unfold square_image in Hsq. rewrite Forall_lookup in Hsq. exact (Hsq i s Hs). }
  destruct (apply_from_Ok (map fst cs) 0 image (zeros_like zero image)) as [out1 H1].
  { cbn. rewrite length_map. lia. }
  { intros i t s Hi Hs. cbn in Hs. rewrite lookup_map in Hi.
    destruct (cs !! i) as [c|] eqn:Hc; [|discriminate]. injection Hi as <-.
    destruct (Hsample i c s Hc Hs) as (s' & Hs' & _). now exists s'. }
  fold (apply_flipping_rotation zero (map fst cs) image) in H1. rewrite H1.
  cbn [mbind result_bind].
  apply apply_flipping_rotation_inv in H1 as (_ & Hl1 & Hs1 & _).
  assert (Hout1 : forall i c s, cs !! i = Some c -> image !! i = Some s ->
            exists s', out1 !! i = Some s' /\ transform_sample (snd c) s' = Ok s).
  { intros i c s Hc Hs. destruct (Hs1 i (fst c)) as (s0 & s' & H0 & Ht & Ho).
    { now rewrite lookup_map, Hc. }
    unfold tensor, plane in *. rewrite Hs in H0. injection H0 as <-.
    destruct (Hsample i c s Hc Hs) as (s1 & Ht1 & _ & Ht2).
    rewrite Ht1 in Ht. injection Ht as <-. now exists s1. }
  destruct (apply_from_Ok (map snd cs) 0 out1 (zeros_like zero out1)) as [out2 H2].
  { cbn. rewrite length_map. lia. }
  { intros i t s' Hi Hs'. cbn in Hs'. rewrite lookup_map in Hi.
    destruct (cs !! i) as [c|] eqn:Hc; [|discriminate]. injection Hi as <-.
    destruct (lookup_lt_is_Some_2 image i) as [s Hs];
      [apply lookup_lt_Some in Hc; lia|].
    destruct (Hout1 i c s Hc Hs) as (s1 & Ho & Ht).
    unfold tensor, plane in *. rewrite Hs' in Ho. injection Ho as <-. now exists s. }
  fold (apply_flipping_rotation zero (map snd cs) out1) in H2. rewrite H2. f_equal.
  apply apply_flipping_rotation_inv in H2 as (_ & Hl2 & Hs2 & _).
  apply list_eq. intros i.
  destruct (cs !! i) as [c|] eqn:Hc.
  - destruct (lookup_lt_is_Some_2 image i) as [s Hs];
      [apply lookup_lt_Some in Hc; lia|].
    destruct (Hout1 i c s Hc Hs) as (s1 & Ho & Ht).
    destruct (Hs2 i (snd c)) as (s0 & s2 & H0 & Ht' & Ho2).
    { now rewrite lookup_map, Hc. }
    unfold tensor, plane in *. rewrite Ho in H0. injection H0 as <-.
    rewrite Ht in Ht'. injection Ht' as <-. now rewrite Ho2, Hs.
  - apply lookup_ge_None in Hc.
    rewrite (proj2 (lookup_ge_None out2 i)) by lia.
    now rewrite (proj2 (lookup_ge_None image i)) by lia.
Qed.

End Planes.
Lemma apply_flipping_rotation_per_sample_witness :
  let image := [[[[1; 2]; [3; 4]]]; [[[5; 6]; [7; 8]]]] in
  let out := [[[[2; 4]; [1; 3]]]; [[[0; 0]; [0; 0]]]] in
  (1 <= length image)%nat /\ length out = length image /\
  (forall i t, [(false, 90)] !! i = Some t ->
     exists s s', image !! i = Some s /\ transform_sample t s = Ok s' /\ out !! i = Some s') /\
  (forall j s, (1 <= j)%nat -> image !! j = Some s ->
     out !! j = Some (map (map (map (fun _ => 0))) s)).
Proof.
  intros image out.
  apply (apply_flipping_rotation_per_sample 0 [(false, 90)] image out).
  vm_compute. reflexivity.
Defined.

Lemma apply_flipping_rotation_round_trip_witness :
  let image := [[[[1; 2]; [3; 4]]]; [[[5; 6]; [7; 8]]]] in
  (apply_flipping_rotation 0 [(false, 90); (true, 180)] image
     ≫= apply_flipping_rotation 0 [(false, 270); (true, 180)]) = Ok image.
Proof.
  intros image.
  apply (apply_flipping_rotation_round_trip 0 2 image
           [((false, 90), (false, 270)); ((true, 180), (true, 180))]).
  - repeat constructor.
  - reflexivity.
  - constructor; [|constructor; [|constructor]].
    + split; [apply list_elem_of_In; vm_compute; tauto|left; reflexivity].
    + split; [apply list_elem_of_In; vm_compute; tauto|right; right; reflexivity].
Defined.

End ApplyRotationFacts.

(** ** File names of patches *)

Module FileNameFacts.
Import ExtractHW ExtractHWFacts Stitch.
Local Open Scope char_scope.

Lemma list_ascii_app (a b : string) :
  String.list_ascii_of_string (a +:+ b)
  = String.list_ascii_of_string a ++ String.list_ascii_of_string b.
Proof.
  induction a as [|c a IH]; [reflexivity|].
  change (String c a +:+ b) with (String c (a +:+ b)).
  cbn [String.list_ascii_of_string app]. now rewrite IH.
Qed.

Lemma pretty_N_char_digit (x : N) :
  (x < 10)%N ->
  is_digit (pretty_N_char x) = true /\ digit_value (pretty_N_char x) = Z.of_N x.
Proof.
  intros Hx.
  assert (x = 0 \/ x = 1 \/ x = 2 \/ x = 3 \/ x = 4 \/ x = 5 \/ x = 6 \/ x = 7 \/ x = 8 \/ x = 9)%N
    as Hc by lia.
  repeat (destruct Hc as [-> | Hc]); try subst x; split; reflexivity.
Qed.

(** The digits that [pretty_N_go] puts before [s]: they read as [x] and then
    go on with [s]. *)
Lemma pretty_N_go_digits (x : N) :
  forall s, exists d,
    String.list_ascii_of_string (pretty_N_go x s) = d ++ String.list_ascii_of_string s /\
    forallb is_digit d = true /\
    ((0 < x)%N -> d <> []) /\
    forall acc r,
      fold_left (fun a c => 10 * a + digit_value c) (d ++ r) acc
      = fold_left (fun a c => 10 * a + digit_value c) r (acc * 10 ^ Z.of_nat (length d) + Z.of_N x).
Proof.
  induction (N.lt_wf_0 x) as [x _ IH]. intros s.
  assert (x = 0 \/ 0 < x)%N as [-> | Hx] by lia.
  - exists []. rewrite pretty_N_go_0. repeat split; try reflexivity; [lia|].
    intros acc r. cbn. f_equal. lia.
  - rewrite pretty_N_go_step by assumption.
    destruct (IH (x `div` 10)%N (N.div_lt x 10 Hx eq_refl)
                 (String (pretty_N_char (x `mod` 10)) s)) as (d & Hd & Hdig & _ & Hval).
    destruct (pretty_N_char_digit (x `mod` 10)%N) as [Hc Hv]; [now apply N.mod_lt|].
    exists (d ++ [pretty_N_char (x `mod` 10)]). split; [|split; [|split]].
    + rewrite Hd. cbn. now rewrite <- app_assoc.
    + rewrite forallb_app, Hdig. cbn. now rewrite Hc.
    + intros _. now destruct d.
    + intros acc r. rewrite <- app_assoc. cbn [app]. rewrite Hval. cbn [fold_left].
      f_equal. rewrite Hv, length_app. cbn [length].
      rewrite Nat2Z.inj_add, Z.pow_add_r by lia. change (Z.of_nat 1) with 1. rewrite Z.pow_1_r.
      pose proof (N.div_mod x 10 ltac:(lia)) as Hdm.
      rewrite Hdm at 3. rewrite N2Z.inj_add, N2Z.inj_mul. change (Z.of_N 10) with 10. ring.
Qed.

(** The text of an integer is an optional minus sign and digits, and reads
    back as the integer. *)
Lemma of_int_text (z : Z) :
  int_text (String.list_ascii_of_string (PyStr.of_int z)) /\
  py_int (String.list_ascii_of_string (PyStr.of_int z)) = z.
Proof.
  assert (Hpos : forall p : positive,
            exists d, String.list_ascii_of_string (pretty_N_go (N.pos p) "") = d /\
                      d <> [] /\ forallb is_digit d = true /\ digits_value d = Z.pos p).
  { intros p.
    destruct (pretty_N_go_digits (N.pos p) "") as (d & Hd & Hdig & Hne & Hval).
    exists d. cbn in Hd. rewrite app_nil_r in Hd. split; [assumption|].
    split; [apply Hne; lia|]. split; [assumption|].
    unfold digits_value. rewrite <- (app_nil_r d) at 1. rewrite Hval. cbn. lia. }
  unfold PyStr.of_int, pretty, pretty_Z, pretty_positive, pretty, pretty_N.
  destruct z as [|p|p].
  - split; [|reflexivity]. exists ["0"]. repeat split; [discriminate|now left].
  - rewrite decide_False by discriminate.
    destruct (Hpos p) as (d & Hd & Hne & Hdig & Hval). rewrite Hd. split.
    + exists d. repeat split; try assumption. now left.
    + destruct d as [|c d]; [contradiction|]. unfold py_int.
      assert (Hc : (c =? "-") = false).
      { cbn [forallb] in Hdig. apply andb_true_iff in Hdig as [Hc _].
        destruct (c =? "-") eqn:E; [|reflexivity].
        apply minus_not_digit in E. congruence. }
      now rewrite Hc.
  - rewrite decide_False by discriminate.
    destruct (Hpos p) as (d & Hd & Hne & Hdig & Hval).
    change (String.list_ascii_of_string ("-" +:+ pretty_N_go (N.pos p) ""))
      with ("-" :: String.list_ascii_of_string (pretty_N_go (N.pos p) "")).
    rewrite Hd. split.
    + exists d. repeat split; try assumption. now right.
    + unfold py_int. change ("-" =? "-") with true. cbn iota. now rewrite Hval.
Qed.

Lemma all_matches_skip (pre rest : list ascii) :
  Forall (fun c => (c =? "H") = false) pre ->
  all_matches (pre ++ rest) = all_matches rest.
Proof.
  induction 1 as [|c pre Hc Hpre IH]; [reflexivity|].
  cbn [app all_matches]. unfold match_here. now rewrite Hc.
Qed.

Lemma extract_h_w_formatted (base ext : string) (h w : Z) :
  Forall (fun c => (c =? "H") = false) (String.list_ascii_of_string base) ->
  Forall (fun c => (c =? "H") = false) (String.list_ascii_of_string ext) ->
  no_digit_ahead (String.list_ascii_of_string ext) ->
  extract_h_w (base +:+ "_H" +:+ PyStr.of_int h +:+ "_W" +:+ PyStr.of_int w +:+ ext)
  = Ok (h, w).
Proof.
  intros Hbase Hext Hahead.
  destruct (of_int_text h) as [Hth Hh]. destruct (of_int_text w) as [Htw Hw].
  unfold extract_h_w. rewrite findall_all_matches, !list_ascii_app.
  set (t1 := String.list_ascii_of_string (PyStr.of_int h)) in *.
  set (t2 := String.list_ascii_of_string (PyStr.of_int w)) in *.
  set (lb := String.list_ascii_of_string base) in *.
  set (le := String.list_ascii_of_string ext) in *.
  change (String.list_ascii_of_string "_H") with ["_"; "H"].
  change (String.list_ascii_of_string "_W") with ["_"; "W"].
  replace (lb ++ ["_"; "H"] ++ t1 ++ ["_"; "W"] ++ t2 ++ le)
    with ((lb ++ ["_"]) ++ "H" :: t1 ++ "_" :: "W" :: t2 ++ le)
    by (now rewrite <- app_assoc).
  rewrite all_matches_skip
    by (apply Forall_app; split; [assumption|now repeat constructor]).
  cbn [all_matches]. rewrite (match_here_intro t1 t2 le Hth Htw Hahead).
  rewrite <- (app_nil_r (t1 ++ "_" :: "W" :: t2 ++ le)).
  rewrite all_matches_skip.
  - cbn. now rewrite Hh, Hw.
  - apply Forall_app. split; [now apply int_text_no_H|].
    constructor; [reflexivity|]. constructor; [reflexivity|].
    apply Forall_app. split; [now apply int_text_no_H|assumption].
Qed.

(** X7.  [extract_h_w] reads back the offsets that a file name was built
    with: for a name [<base>_H<h>_W<w><ext>] written with the decimal texts
    of [h] and [w], where neither [base] nor [ext] holds the letter H and
    [ext] does not start with a digit, it returns [(h, w)]. *)
Theorem extract_h_w_of_formatted_name (base ext : string) (h w : Z) :
  Forall (fun c => (c =? "H") = false) (String.list_ascii_of_string base) ->
  Forall (fun c => (c =? "H") = false) (String.list_ascii_of_string ext) ->
  no_digit_ahead (String.list_ascii_of_string ext) ->
  extract_h_w (base +:+ "_H" +:+ PyStr.of_int h +:+ "_W" +:+ PyStr.of_int w +:+ ext)
  = Ok (h, w).
Proof. apply extract_h_w_formatted. Qed.

Lemma append_assoc (a b c : string) : (a +:+ b) +:+ c = a +:+ b +:+ c.
Proof.
  induction a as [|x a IH]; [reflexivity|].
  change (String x a +:+ b) with (String x (a +:+ b)).
  change (String x (a +:+ b) +:+ c) with (String x ((a +:+ b) +:+ c)).
  change (String x a +:+ b +:+ c) with (String x (a +:+ b +:+ c)). now rewrite IH.
Qed.

Lemma length_append (a b : string) :
  String.length (a +:+ b) = (String.length a + String.length b)%nat.
Proof.
  induction a as [|x a IH]; [reflexivity|].
  change (String x a +:+ b) with (String x (a +:+ b)). cbn [String.length]. now rewrite IH.
Qed.

Lemma get_in_list (s : string) (n : nat) (c : ascii) :
  String.get n s = Some c -> c ∈ String.list_ascii_of_string s.
Proof.
  revert n; induction s as [|x s IH]; intros [|n]; cbn; try discriminate.
  - intros [= ->]. apply list_elem_of_here.
  - intros H. apply list_elem_of_further. exact (IH n H).
Qed.

Lemma substring_of_prefix (a b : string) : String.substring 0 (String.length a) (a +:+ b) = a.
Proof.
  induction a as [|c a IH]; [now destruct b|].
  change (String c a +:+ b) with (String c (a +:+ b)). cbn [String.length String.substring].
  now rewrite IH.
Qed.

Lemma substring_after_prefix (a b : string) (n : nat) :
  String.substring (String.length a) n (a +:+ b) = String.substring 0 n b.
Proof.
  induction a as [|c a IH]; [reflexivity|].
  change (String c a +:+ b) with (String c (a +:+ b)). cbn [String.length String.substring].
  exact IH.
Qed.

(** The first place of a text that starts with [c1 c2] after a prefix
    without [c2]. *)
Lemma index_after_clean_prefix (a pat b : string) (c1 c2 : ascii) (pat' : string) :
  pat = String c1 (String c2 pat') -> c1 <> c2 ->
  Forall (fun c => c <> c2) (String.list_ascii_of_string a) ->
  String.index 0 pat (a +:+ pat +:+ b) = Some (String.length a).
Proof.
  intros Hpat Hc Ha.
  assert (Hat : String.substring (String.length a) (String.length pat) (a +:+ pat +:+ b) = pat)
    by now rewrite substring_after_prefix, substring_of_prefix.
  assert (Hclean : forall m, (m < String.length a)%nat ->
            String.substring m (String.length pat) (a +:+ pat +:+ b) <> pat).
  { intros m Hm Heq.
    assert (Hg : String.get 1 (String.substring m (String.length pat) (a +:+ pat +:+ b))
                 = Some c2) by (rewrite Heq, Hpat; reflexivity).
    rewrite String.substring_correct1 in Hg by (rewrite Hpat; cbn; lia).
    destruct (Nat.eq_dec (1 + m) (String.length a)) as [E|E].
    - rewrite E in Hg.
      pose proof (String.append_correct2 a (pat +:+ b) 0) as Hz. cbn [Nat.add] in Hz.
      rewrite <- Hz, Hpat in Hg.
      change (String c1 (String c2 pat') +:+ b) with (String c1 (String c2 pat' +:+ b)) in Hg.
      cbn [String.get] in Hg. congruence.
    - rewrite <- String.append_correct1 in Hg by lia.
      apply get_in_list in Hg. rewrite Forall_forall in Ha. now apply (Ha c2). }
  destruct (String.index 0 pat (a +:+ pat +:+ b)) as [m|] eqn:E.
  - f_equal. destruct (Nat.lt_trichotomy m (String.length a)) as [Hlt|[Heq|Hgt]];
      [|assumption|].
    + exfalso. apply (Hclean m Hlt). exact (String.index_correct1 _ _ _ _ E).
    + exfalso. apply (String.index_correct2 _ _ _ _ E (String.length a)); [lia|assumption|].
      exact Hat.
  - exfalso. apply (String.index_correct3 0 (String.length a) _ _ E); [|lia|exact Hat].
    rewrite Hpat. discriminate.
Qed.


Lemma extract_h_w_of_formatted_name_witness :
  extract_h_w ("out/pred_patches/TCGA-A7" +:+ "_H" +:+ PyStr.of_int (-5) +:+ "_W" +:+
               PyStr.of_int 1024 +:+ ".png") = Ok (-5, 1024).
Proof.
  apply (extract_h_w_of_formatted_name "out/pred_patches/TCGA-A7" ".png" (-5) 1024).
  - vm_compute. repeat constructor.
  - vm_compute. repeat constructor.
  - reflexivity.
Defined.

(** X8.  The first loop of [stitch_patches] files a name
    [<base>_H<h>_W<w><ext>], written with the decimal texts of [h] and [w]
    and without the letter H in [base] and [ext], under the base path
    [<base>.png]: the path joins the list of base paths unless it is there
    already. *)
Theorem base_labels_of_formatted_name (base ext : string) (h w : Z)
    (base_label_list rest : list string) :
  Forall (fun c => (c =? "H") = false) (String.list_ascii_of_string base) ->
  Forall (fun c => (c =? "H") = false) (String.list_ascii_of_string ext) ->
  no_digit_ahead (String.list_ascii_of_string ext) ->
  base_labels base_label_list
    ((base +:+ "_H" +:+ PyStr.of_int h +:+ "_W" +:+ PyStr.of_int w +:+ ext) :: rest)
  = base_labels (if bool_decide (base +:+ ".png" ∈ base_label_list)
                 then base_label_list
                 else base_label_list ++ [base +:+ ".png"]) rest.
Proof.
  intros Hbase Hext Hahead. cbn [base_labels].
  rewrite (extract_h_w_formatted base ext h w Hbase Hext Hahead).
  cbn [mbind result_bind fst snd].
  set (pat := "_H" +:+ PyStr.of_int h +:+ "_W" +:+ PyStr.of_int w).
  set (name := base +:+ "_H" +:+ PyStr.of_int h +:+ "_W" +:+ PyStr.of_int w +:+ ext).
  assert (Hname : name = base +:+ pat +:+ ext).
  { unfold name, pat. now rewrite !append_assoc. }
  assert (Hfind : PyStr.find name pat = Z.of_nat (String.length base)).
  { unfold PyStr.find. rewrite Hname.
    rewrite (index_after_clean_prefix base pat ext "_" "H"
               (PyStr.of_int h +:+ "_W" +:+ PyStr.of_int w)); [reflexivity..| |].
    - discriminate.
    - eapply Forall_impl; [exact Hbase|]. intros c Hc ->. discriminate. }
  assert (Hslice : PyStr.slice_to name (PyStr.find name pat) = base).
  { rewrite Hfind. unfold PyStr.slice_to, PyStr.clamp.
    destruct (Z.ltb_spec (Z.of_nat (String.length base)) 0) as [Hneg|_]; [lia|].
    rewrite Hname at 1. rewrite length_append, Z.min_l, Nat2Z.id by lia.
    rewrite Hname. apply substring_of_prefix. }
  rewrite Hslice. now destruct (bool_decide _).
Qed.

Lemma base_labels_of_formatted_name_witness :
  base_labels [] [("out/pred_patches/TCGA-A7" +:+ "_H" +:+ PyStr.of_int 0 +:+ "_W" +:+
                   PyStr.of_int 32 +:+ ".png");
                  ("out/pred_patches/TCGA-A7" +:+ "_H" +:+ PyStr.of_int (-5) +:+ "_W" +:+
                   PyStr.of_int 0 +:+ ".png")]
  = Ok ["out/pred_patches/TCGA-A7.png"%string].
Proof.
  rewrite (base_labels_of_formatted_name "out/pred_patches/TCGA-A7" ".png" 0 32 [] _
             ltac:(vm_compute; repeat constructor) ltac:(vm_compute; repeat constructor)
             ltac:(reflexivity)).
  vm_compute. reflexivity.
Defined.

(** X9.  When the text [_H<h>_W<w>] of the offsets read from a name does
    not occur in the name, as for offsets written with leading zeros or
    without the underscore before the H, the base path is the name without
    its last character, followed by [.png]. *)
Theorem base_labels_when_offsets_text_is_missing (name : string) (h w : Z)
    (base_label_list rest : list string) :
  extract_h_w name = Ok (h, w) ->
  PyStr.contains ("_H" +:+ PyStr.of_int h +:+ "_W" +:+ PyStr.of_int w) name = false ->
  let base_label_path :=
    String.substring 0 (String.length name - 1) name +:+ ".png" in
  base_labels base_label_list (name :: rest)
  = base_labels (if bool_decide (base_label_path ∈ base_label_list)
                 then base_label_list
                 else base_label_list ++ [base_label_path]) rest.
Proof.
  intros Hhw Hmissing. cbn [base_labels]. rewrite Hhw. cbn [mbind result_bind fst snd].
  assert (Hfind : PyStr.find name ("_H" +:+ PyStr.of_int h +:+ "_W" +:+ PyStr.of_int w) = -1).
  { unfold PyStr.find. unfold PyStr.contains in Hmissing.
    now destruct (String.index 0 _ name). }
  rewrite Hfind. unfold PyStr.slice_to, PyStr.clamp. cbn [Z.ltb Z.compare].
  replace (Z.to_nat (Z.max (-1 + Z.of_nat (String.length name)) 0))
    with (String.length name - 1)%nat by lia.
  cbv zeta. now destruct (bool_decide _).
Qed.

Lemma base_labels_when_offsets_text_is_missing_witness :
  base_labels [] ["out/pred_patches/img_H05_W1.png"%string]
  = Ok ["out/pred_patches/img_H05_W1.pn.png"%string].
Proof.
  rewrite (base_labels_when_offsets_text_is_missing "out/pred_patches/img_H05_W1.png" 5 1 [] []
             ltac:(reflexivity) ltac:(reflexivity)).
  reflexivity.
Defined.

End FileNameFacts.

(** ** More on the stitcher *)

Module StitcherFacts.
Import ExtractHW Stitch StitchFacts STFacts Infer InferFacts LoopFacts.

Lemma broadcast_dim_raises (d1 d2 : Z) :
  d1 <> d2 -> d1 <> 1 -> d2 <> 1 ->
  broadcast_dim d1 d2 = Raise (ValueError "operands could not be broadcast together").
Proof.
  intros H12 H1 H2. unfold broadcast_dim.
  apply Z.eqb_neq in H12, H1, H2. now rewrite H12, H1, H2.
Qed.

Lemma contains_infix (stem pre post : string) :
  PyStr.contains stem (pre +:+ stem +:+ post) = true.
Proof.
  unfold PyStr.contains.
  destruct (String.index 0 stem (pre +:+ stem +:+ post)) as [m|] eqn:E; [reflexivity|].
  exfalso. destruct stem as [|c stem].
  { destruct (pre +:+ "" +:+ post); discriminate. }
  apply (String.index_correct3 0 (String.length pre) _ _ E); [discriminate|lia|].
  now rewrite FileNameFacts.substring_after_prefix, FileNameFacts.substring_of_prefix.
Qed.

(** X10.  The patches of a base path are picked by substring: every file of
    the folder whose path holds the base path without its [.png] somewhere
    is stitched onto the canvas of that base, also when it is a patch of
    another image whose name extends it. *)
Theorem label_patch_list_takes_every_path_with_the_stem (label_list : list string)
    (base_label_path stem pre post : string) :
  PyStr.replace base_label_path ".png" "" = stem ->
  (pre +:+ stem +:+ post) ∈ label_list ->
  (pre +:+ stem +:+ post) ∈ label_patch_list label_list base_label_path.
Proof.
  intros Hstem Hin. unfold label_patch_list. apply list_elem_of_filter.
  split; [|assumption]. rewrite Hstem. apply contains_infix.
Qed.

Lemma label_patch_list_takes_every_path_with_the_stem_witness :
  "out/pred_patches/img10_H0_W0.png"
    ∈ label_patch_list ["out/pred_patches/img10_H0_W0.png"; "out/pred_patches/img1_H0_W0.png"]
                       "out/pred_patches/img1.png".
Proof.
  apply (label_patch_list_takes_every_path_with_the_stem
           ["out/pred_patches/img10_H0_W0.png"; "out/pred_patches/img1_H0_W0.png"]
           "out/pred_patches/img1.png" "out/pred_patches/img1" "" "0_H0_W0.png").
  - vm_compute. reflexivity.
  - apply list_elem_of_In. vm_compute. tauto.
Defined.

(** A loop keeps what its body keeps for the elements of its list. *)
Lemma keeps_forM_in {X Y : Type} (R : relation world) `{!PreOrder R} (l : list X)
    (f : X -> IO Y) :
  (forall x, x ∈ l -> keeps R (f x)) -> keeps R (forM l f).
Proof.
  induction l as [|x l IH]; intros Hf; cbn [forM].
  - now apply keeps_mret.
  - apply keeps_bind; [assumption|apply Hf; now left|]. intros y.
    apply keeps_bind; [assumption|apply IH; intros z Hz; apply Hf; now right|].
    intros ys. now apply keeps_mret.
Qed.

Section Stitcher.
Variable bgr2gray : Z * Z * Z -> Z.
Variable glob : gmap string image -> string -> list string.
Implicit Types (fs : gmap string image) (canvas : ndarray) (path : string).

(** X11.  A patch whose row offset puts it off the canvas is not always
    skipped.  With a canvas of [H] rows and patches of 32 rows, an offset
    from 1 to 30 rows past the bottom edge, or from 33 to [H + 30] rows
    above the top edge, makes the loop body raise [ValueError] at its
    [np.maximum]; an offset of 31 rows or more past the bottom edge, with
    the columns in range, leaves the canvas as it is. *)
Theorem stitch_one_rows_off_canvas fs (H W : Z) canvas path (h w : Z) label_patch :
  nrows canvas = H -> ncols canvas = W -> 0 <= H -> 0 <= W ->
  extract_h_w path = Ok (h, w) ->
  imread_grayscale bgr2gray fs path = Some label_patch ->
  nrows label_patch = imsize -> ncols label_patch = imsize ->
  (H < h <= H + 30 \/ - H - 30 <= h < - imsize ->
   stitch_one bgr2gray fs (H, W) canvas path
     = Raise (ValueError "operands could not be broadcast together")) /\
  (H + 31 <= h -> - imsize <= w <= W ->
   exists canvas', stitch_one bgr2gray fs (H, W) canvas path = Ok canvas' /\
                   nrows canvas' = H /\ ncols canvas' = W /\
                   forall r c, at_ canvas' r c = at_ canvas r c).
Proof.
  intros HH HW H0 W0 Hhw Hread Hn Hm. unfold stitch_one. rewrite Hhw. rsimpl.
  rewrite Hread. rsimpl. split.
  - intros Hh. unfold np_maximum.
    match goal with
    | |- context [broadcast_dim (nrows ?a) (nrows ?b)] =>
        rewrite (broadcast_dim_raises (nrows a) (nrows b))
    end; [reflexivity|..];
      unfold crop, slice2, place; cbn [nrows ncols fst snd offset_h start_h end_h actual_height];
      rewrite ?HH, ?Hn; unfold PyStr.clamp, imsize in *;
      repeat match goal with
             | |- context [?a <? ?b] => destruct (Z.ltb_spec a b)
             end; lia.
  - intros Hh Hw.
    pose proof (axis_fits W w W0 Hw) as Hcols. cbv zeta in Hcols.
    assert (Hrows_new :
      nrows (crop (place (H, W) h w) label_patch) = 0 \/
      nrows (crop (place (H, W) h w) label_patch) = 1).
    { unfold crop, slice2, place; cbn [nrows fst snd offset_h start_h end_h actual_height].
      rewrite Hn. unfold PyStr.clamp, imsize in *.
      repeat match goal with
             | |- context [?a <? ?b] => destruct (Z.ltb_spec a b)
             end; lia. }
    assert (Hr0 : PyStr.clamp H (start_h (place (H, W) h w)) = H).
    { unfold place; cbn [start_h]. unfold PyStr.clamp.
      destruct (Z.ltb_spec (Z.max 0 h) 0); lia. }
    assert (Hr1 : PyStr.clamp H (end_h (place (H, W) h w)) = H).
    { unfold place; cbn [end_h fst]. unfold PyStr.clamp, imsize.
      repeat match goal with
             | |- context [?a <? ?b] => destruct (Z.ltb_spec a b)
             end; lia. }
    assert (Hc_new : ncols (crop (place (H, W) h w) label_patch)
                     = Z.max 0 (PyStr.clamp W (end_w (place (H, W) h w))
                                - PyStr.clamp W (start_w (place (H, W) h w)))).
    { unfold crop, slice2, place;
        cbn [ncols fst snd offset_w start_w end_w actual_width]. rewrite Hm. exact Hcols. }
    unfold np_maximum.
    assert (Hb1 : exists d, broadcast_dim
              (nrows (slice2 canvas (start_h (place (H, W) h w)) (end_h (place (H, W) h w))
                             (start_w (place (H, W) h w)) (end_w (place (H, W) h w))))
              (nrows (crop (place (H, W) h w) label_patch)) = Ok d).
    { unfold slice2 at 1. cbn [nrows]. rewrite HH, Hr0, Hr1, Z.sub_diag.
      change (Z.max 0 0) with 0. unfold broadcast_dim.
      destruct Hrows_new as [-> | ->]; cbn; now eexists. }
    destruct Hb1 as [d ->]. rsimpl.
    assert (Hb2 : exists d, broadcast_dim
              (ncols (slice2 canvas (start_h (place (H, W) h w)) (end_h (place (H, W) h w))
                             (start_w (place (H, W) h w)) (end_w (place (H, W) h w))))
              (ncols (crop (place (H, W) h w) label_patch)) = Ok d).
    { unfold slice2 at 1. cbn [ncols]. rewrite HW, Hc_new. unfold broadcast_dim.
      rewrite Z.eqb_refl. now eexists. }
    destruct Hb2 as [d' ->]. rsimpl.
    unfold set_slice2. rewrite HH, HW, Hr0, Hr1, Hc_new.
    rewrite Z.sub_diag. change (Z.max 0 0) with 0.
    rewrite (Z.eqb_refl (Z.max 0 _)).
    replace ((nrows (crop (place (H, W) h w) label_patch) =? 0)
             || (nrows (crop (place (H, W) h w) label_patch) =? 1)) with true
      by (destruct Hrows_new as [-> | ->]; reflexivity).
    cbn [andb orb]. eexists. split; [reflexivity|]. cbn [nrows ncols at_].
    split; [reflexivity|]. split; [reflexivity|]. intros r c.
    destruct (Z.leb_spec H r), (Z.ltb_spec r H); cbn [andb]; try reflexivity; lia.
Qed.

Lemma extract_h_w_raises path e : extract_h_w path = Raise e -> e = AssertionError.
Proof.
  unfold extract_h_w.
  destruct (length (findall (String.list_ascii_of_string path)) =? 1)%nat;
    cbn [py_assert mbind result_bind]; [|now intros [= <-]].
  destruct (findall (String.list_ascii_of_string path)); [now intros [= <-]|discriminate].
Qed.

Lemma base_labels_raises (label_list : list string) :
  (exists p, p ∈ label_list /\ forall hw, extract_h_w p <> Ok hw) ->
  forall base_label_list, base_labels base_label_list label_list = Raise AssertionError.
Proof.
  induction label_list as [|q l IH]; intros (p & Hp & Hbad) acc.
  { now apply elem_of_nil in Hp. }
  cbn [base_labels]. destruct (extract_h_w q) as [hw|e] eqn:Hq.
  - rsimpl. apply elem_of_cons in Hp as [-> | Hp]; [now destruct (Hbad hw)|].
    destruct (bool_decide _); apply IH; now exists p.
  - rsimpl. now rewrite (extract_h_w_raises q e Hq).
Qed.

Lemma base_labels_NoDup (label_list : list string) :
  forall acc bases, NoDup acc -> base_labels acc label_list = Ok bases -> NoDup bases.
Proof.
  induction label_list as [|q l IH]; intros acc bases Hacc; cbn [base_labels].
  { now intros [= <-]. }
  destruct (extract_h_w q) as [hw|e]; [|discriminate]. rsimpl.
  destruct (bool_decide_reflect
              (PyStr.slice_to q
                 (PyStr.find q ("_H" +:+ PyStr.of_int (fst hw) +:+ "_W" +:+ PyStr.of_int (snd hw)))
               +:+ ".png" ∈ acc)) as [Hin|Hnin].
  - now apply IH.
  - apply IH. apply NoDup_app. split; [assumption|]. split; [|apply NoDup_singleton].
    intros x Hx Hx'. apply list_elem_of_singleton in Hx'. now subst x.
Qed.

Lemma stitch_base_shape fs (H W : Z) label_list base canvas :
  stitch_base bgr2gray fs (H, W) label_list base = Ok canvas ->
  nrows canvas = H /\ ncols canvas = W.
Proof.
  unfold stitch_base, np_zeros. cbn [fst snd].
  destruct (Z.ltb_spec H 0); [discriminate|]. destruct (Z.ltb_spec W 0); [discriminate|].
  cbn [orb]. rsimpl. intros Hloop.
  now destruct (stitch_loop_inv bgr2gray fs H W _ (mk_ndarray H W (fun _ _ => 0)) _
                  eq_refl eq_refl ltac:(lia) ltac:(lia) Hloop)
    as (? & ? & _).
Qed.


(** X12.  [stitch_patches] checks every file name before it writes: when one
    of the files of the folder has a name without exactly one offset pair,
    it raises [AssertionError] and no file has been written. *)
Theorem stitch_patches_checks_names_first (pred_label_folder : string) (stitched_size : Z * Z)
    (w : world) :
  (exists p, p ∈ glob (files w) (pred_label_folder +:+ "/*.png") /\
             forall hw, extract_h_w p <> Ok hw) ->
  exists w', stitch_patches bgr2gray glob pred_label_folder stitched_size w
               = (w', Raise AssertionError) /\
             files w' = files w.
Proof.
  intros (p & Hp & Hbad).
  assert (Hraise : base_labels [] (PyStr.sorted (glob (files w) (pred_label_folder +:+ "/*.png")))
                   = Raise AssertionError).
  { apply base_labels_raises. exists p. split; [|assumption].
    now rewrite PyStrFacts.sorted_permutation. }
  unfold stitch_patches, mbind, ST_bind, emit, lift. cbn [files events].
  rewrite Hraise. eexists. split; reflexivity.
Qed.

(** X13.  When [stitch_patches] returns, it returns one canvas for each
    distinct base path of the folder, each of the size asked for; for a
    folder without files it returns no canvas and writes no file. *)
Theorem stitch_patches_one_canvas_per_base (pred_label_folder : string) (H W : Z)
    (w w' : world) canvases stitched_folder :
  stitch_patches bgr2gray glob pred_label_folder (H, W) w = (w', Ok (canvases, stitched_folder)) ->
  (exists base_label_list,
     base_labels [] (PyStr.sorted (glob (files w) (pred_label_folder +:+ "/*.png")))
       = Ok base_label_list /\
     NoDup base_label_list /\
     length canvases = length base_label_list /\
     Forall (fun canvas => nrows canvas = H /\ ncols canvas = W) canvases) /\
  (glob (files w) (pred_label_folder +:+ "/*.png") = [] ->
   canvases = [] /\ files w' = files w).
Proof.
  unfold stitch_patches. intros Hrun.
  apply bind_Ok in Hrun as (w1 & [] & H1 & Hrun).
  apply bind_Ok in Hrun as (w2 & [] & H2 & Hrun).
  apply bind_Ok in Hrun as (w3 & [] & H3 & Hrun).
  apply bind_Ok in Hrun as (w4 & label_list & H4 & Hrun).
  apply bind_Ok in Hrun as (w5 & base_label_list & H5 & Hrun).
  apply bind_Ok in Hrun as (w6 & l & Hloop & Hrun).
  apply bind_Ok in Hrun as (w7 & [] & Hlog & Hrun).
  apply mret_run in Hrun as [-> [= -> ->]].
  unfold emit in H1, H2, H3, Hlog. injection H1 as <-. injection H2 as <-.
  injection H3 as <-. injection Hlog as <-. injection H4 as <- <-.
  apply lift_run in H5 as [-> H5]. cbn [files] in H5. symmetry in H5.
  split.
  - exists base_label_list. split; [assumption|].
    split; [exact (base_labels_NoDup _ [] _ (NoDup_nil_2) H5)|].
    eapply (forM_results (fun canvas => nrows canvas = H /\ ncols canvas = W));
      [|exact Hloop].
    intros base v v' y Hbody.
    apply bind_Ok in Hbody as (v1 & canvas & [= <- Hbase] & Hbody).
    apply bind_Ok in Hbody as (v2 & [] & _ & Hbody).
    apply bind_Ok in Hbody as (v3 & [] & _ & Hbody).
    apply mret_run in Hbody as [_ [= ->]].
    exact (stitch_base_shape _ _ _ _ _ _ Hbase).
  - intros Hempty. rewrite Hempty in H5. cbn in H5. injection H5 as <-.
    cbn [forM] in Hloop. apply mret_run in Hloop as [-> [= ->]]. now split.
Qed.

(** X14.  [stitch_patches] deletes no file and changes none but its own
    outputs: after a run, returned or raised, a path holds what it held
    before unless it is the path of the stitched canvas, or of its coloured
    version, of one of the base paths of the folder. *)
Theorem stitch_patches_touches_only_its_outputs (pred_label_folder : string)
    (stitched_size : Z * Z) (w w' : world) r :
  stitch_patches bgr2gray glob pred_label_folder stitched_size w = (w', r) ->
  forall path,
    files w' !! path = files w !! path \/
    exists base_label_list base_label_path,
      base_labels [] (PyStr.sorted (glob (files w) (pred_label_folder +:+ "/*.png")))
        = Ok base_label_list /\
      base_label_path ∈ base_label_list /\
      (path = PyStr.replace base_label_path pred_label_folder
                (PyStr.replace pred_label_folder "pred_patches" "stitched_labels") \/
       path = PyStr.replace base_label_path pred_label_folder
                (PyStr.replace pred_label_folder "pred_patches" "colored_stitched_labels")).
Proof.
  set (out := fun path : string =>
         exists base_label_list base_label_path,
           base_labels [] (PyStr.sorted (glob (files w) (pred_label_folder +:+ "/*.png")))
             = Ok base_label_list /\
           base_label_path ∈ base_label_list /\
           (path = PyStr.replace base_label_path pred_label_folder
                     (PyStr.replace pred_label_folder "pred_patches" "stitched_labels") \/
            path = PyStr.replace base_label_path pred_label_folder
                     (PyStr.replace pred_label_folder "pred_patches"
                                    "colored_stitched_labels"))).
  set (R := fun v v' : world => forall path, files v' !! path = files v !! path \/ out path).
  assert (HR : PreOrder R).
  { split.
    - intros v path. now left.
    - intros v1 v2 v3 H12 H23 path.
      destruct (H23 path) as [E23 | Hout]; [|now right].
      destruct (H12 path) as [E12 | Hout]; [|now right].
      left. congruence. }
  assert (Hwrite : forall path img, out path -> keeps R (imwrite path img)).
  { intros path img Hout v v' r'. unfold imwrite. intros [= <- _] q. cbn [files].
    destruct (decide (path = q)) as [<- | Hne]; [now right|].
    left. now apply lookup_insert_ne. }
  intros Hrun. change (R w w'). revert Hrun. unfold stitch_patches.
  intros Hrun.
  apply bind_run in Hrun as [(e & [=] & _) | (w1 & [] & [= <-] & Hrun)].
  apply bind_run in Hrun as [(e & [=] & _) | (w2 & [] & [= <-] & Hrun)].
  apply bind_run in Hrun as [(e & [=] & _) | (w3 & [] & [= <-] & Hrun)].
  apply bind_run in Hrun as [(e & [=] & _) | (w4 & label_list & [= <- <-] & Hrun)].
  cbn [files] in Hrun.
  apply bind_run in Hrun as [(e & H5 & _) | (w5 & base_label_list & H5 & Hrun)];
    apply lift_run in H5 as [-> H5]; [intros path; now left|].
  symmetry in H5.
  match type of Hrun with
  | ?c ?v = _ =>
      assert (Hk : keeps R c);
        [|transitivity v; [intros path; now left|exact (Hk _ _ _ Hrun)]]
  end.
  clear Hrun.
  apply keeps_bind; [assumption| |].
  - apply keeps_forM_in; [assumption|]. intros base Hbase.
    apply keeps_bind; [assumption|now apply keeps_read|]. intros canvas.
    apply keeps_bind; [assumption| |].
    { apply Hwrite. exists base_label_list, base. now split; [|split; [|left]]. }
    intros [].
    apply keeps_bind; [assumption| |intros []; now apply keeps_mret].
    apply Hwrite. exists base_label_list, base. now split; [|split; [|right]].
  - intros l. apply keeps_bind; [assumption| |intros []; now apply keeps_mret].
    intros v v' r'. unfold emit. intros [= <- _] path. now left.
Qed.
End Stitcher.
(** A folder with one patch of ones, and a folder with a file that has no
    offsets in its name. *)
Lemma stitch_one_rows_off_canvas_witness :
  stitch_one (fun _ => 0)
    {[ "out/pred_patches/TCGA_H1010_W0.png" := Gray (mk_ndarray 32 32 (fun _ _ => 1)) ]}
    (1000, 1000) (mk_ndarray 1000 1000 (fun _ _ => 0)) "out/pred_patches/TCGA_H1010_W0.png"
  = Raise (ValueError "operands could not be broadcast together").
Proof.
  apply (proj1 (stitch_one_rows_off_canvas (fun _ => 0)
                  {[ "out/pred_patches/TCGA_H1010_W0.png" :=
                       Gray (mk_ndarray 32 32 (fun _ _ => 1)) ]}
                  1000 1000 (mk_ndarray 1000 1000 (fun _ _ => 0))
                  "out/pred_patches/TCGA_H1010_W0.png" 1010 0 (mk_ndarray 32 32 (fun _ _ => 1))
                  eq_refl eq_refl ltac:(lia) ltac:(lia) ltac:(reflexivity) ltac:(reflexivity)
                  eq_refl eq_refl)).
  left. lia.
Defined.

Lemma stitch_patches_checks_names_first_witness :
  let w := mk_world {[ "out/pred_patches/notes.png" := Gray (mk_ndarray 32 32 (fun _ _ => 1)) ]}
                    [] in
  exists w', stitch_patches (fun _ => 0) (glob example_env) "out/pred_patches" (1000, 1000) w
               = (w', Raise AssertionError) /\
             files w' = files w.
Proof.
  intros w.
  apply (stitch_patches_checks_names_first (fun _ => 0) (glob example_env)
           "out/pred_patches" (1000, 1000) w).
  exists "out/pred_patches/notes.png". split.
  - apply list_elem_of_In. vm_compute. tauto.
  - intros hw Hhw. vm_compute in Hhw. discriminate.
Defined.

Lemma stitch_patches_one_canvas_per_base_witness :
  let w := mk_world {[ "out/pred_patches/a_H0_W0.png" := Gray (mk_ndarray 32 32 (fun _ _ => 1)) ]}
                    [] in
  let run := stitch_patches (fun _ => 0) (glob example_env) "out/pred_patches" (64, 64) w in
  exists canvases stitched_folder,
    snd run = Ok (canvases, stitched_folder) /\
    exists base_label_list,
      base_labels [] (PyStr.sorted (glob example_env (files w) "out/pred_patches/*.png"))
        = Ok base_label_list /\
      NoDup base_label_list /\
      length canvases = length base_label_list /\
      Forall (fun canvas => nrows canvas = 64 /\ ncols canvas = 64) canvases.
Proof.
  intros w run.
  destruct (snd run) as [[canvases stitched_folder]|e] eqn:Hs; [|vm_compute in Hs; discriminate].
  exists canvases, stitched_folder. split; [reflexivity|].
  apply (proj1 (stitch_patches_one_canvas_per_base (fun _ => 0) (glob example_env)
                  "out/pred_patches" 64 64 w (fst run) canvases stitched_folder
                  ltac:(rewrite <- Hs; apply surjective_pairing))).
Defined.

Lemma stitch_patches_touches_only_its_outputs_witness :
  let w := mk_world {[ "out/pred_patches/a_H0_W0.png" := Gray (mk_ndarray 32 32 (fun _ _ => 1)) ]}
                    [] in
  let run := stitch_patches (fun _ => 0) (glob example_env) "out/pred_patches" (64, 64) w in
  let path := "out/stitched_labels/a.png" in
  files (fst run) !! path = files w !! path \/
  exists base_label_list base_label_path,
    base_labels [] (PyStr.sorted (glob example_env (files w) "out/pred_patches/*.png"))
      = Ok base_label_list /\
    base_label_path ∈ base_label_list /\
    (path = PyStr.replace base_label_path "out/pred_patches"
              (PyStr.replace "out/pred_patches" "pred_patches" "stitched_labels") \/
     path = PyStr.replace base_label_path "out/pred_patches"
              (PyStr.replace "out/pred_patches" "pred_patches" "colored_stitched_labels")).
Proof.
  intros w run path.
  apply (stitch_patches_touches_only_its_outputs (fun _ => 0) (glob example_env)
           "out/pred_patches" (64, 64) w (fst run) (snd run) (surjective_pairing _) path).
Defined.

End StitcherFacts.

(** ** More on the trainer *)

Module TrainRunFacts.
Import PyFloat Tensor Train STFacts TrainFacts.

Section Trainer.
Context {TS Weights ES : Type} (env : collaborators TS Weights ES).

Lemma epoch_runs_frame path prev es epochs new (ck ck' : gmap string Weights) r :
  epoch_runs path (es_step env) prev es epochs new ck ck' r ->
  forall p, p <> path -> ck' !! p = ck !! p.
Proof.
  induction 1 as [| | prev es ep rest body v vf vc name refs segs w ck Hbody Hstop
                  | prev es ep rest body v vf vc name refs segs w tr ck ck' r Hbody Hgo Hrest IH];
    intros p Hp; try reflexivity.
  - destruct (ltb v (running_best prev)); [|reflexivity]. now apply lookup_insert_ne.
  - rewrite (IH p Hp). destruct (ltb v (running_best prev)); [|reflexivity].
    now apply lookup_insert_ne.
Qed.

(** X15.  A run of [train], returned or raised, writes no checkpoint but the
    one at [config.DiffeoMappingNet_model_save_path]: every other checkpoint
    file is what it was before. *)
Theorem train_writes_only_its_checkpoint cfg (s s' : estate TS Weights) (r : result unit) :
  train env cfg s = (s', r) ->
  forall path, path <> DiffeoMappingNet_model_save_path cfg ->
    checkpoints s' !! path = checkpoints s !! path.
Proof.
  unfold train. intros H path Hpath.
  apply bind_run in H as [(e & H1 & ->) | (s1 & [] & H1 & H)]; unfold build_model in H1;
    destruct (init_model env cfg) as [m|]; try discriminate.
  - now injection H1 as <-.
  - injection H1 as <-. change inf with (running_best []) in H.
    apply train_epochs_runs in H as (new & _ & Hruns). cbn [checkpoints] in Hruns.
    exact (epoch_runs_frame _ _ _ _ _ _ _ _ Hruns path Hpath).
Qed.

Lemma train_batches_without_input cfg (plot_freq epoch_idx iter_idx : Z) b rest acc
    (s s' : estate TS Weights) r :
  debugger s = [] ->
  train_batches env cfg plot_freq epoch_idx iter_idx (b :: rest) acc s = (s', r) ->
  exists e, r = Raise e.
Proof.
  intros Hdbg. cbn [train_batches]. intros H.
  apply bind_run in H as [(e & _ & ->) | (s1 & x & H1 & _)]; [now exists e|].
  exfalso. unfold run_batch in H1.
  destruct (train_iteration env cfg plot_freq epoch_idx iter_idx _ b _) as [bs rb] eqn:Hit.
  injection H1 as _ ->.
  apply train_iteration_Ok in Hit as (_ & _ & _ & Hc & _). cbn [dbg] in Hc.
  rewrite Hdbg in Hc. discriminate.
Qed.

Lemma train_phase_without_input cfg (epoch_idx : Z) (s s' : estate TS Weights) r :
  debugger s = [] ->
  train_phase env cfg epoch_idx None s = (s', r) ->
  exists e, r = Raise e.
Proof.
  intros Hdbg. unfold train_phase. intros H.
  apply bind_run in H as [(e & _ & ->) | (s1 & plot_freq & H1 & H)]; [now exists e|].
  apply lift_run in H1 as [-> _].
  apply bind_run in H as [(e & _ & ->) | (s2 & tot & H2 & H)]; [now exists e|].
  destruct (train_loader env epoch_idx) as [|b rest].
  - cbn [train_batches] in H2. apply mret_run in H2 as [-> [= ->]].
    apply bind_run in H as [(e & _ & ->) | (s3 & ? & _ & H)]; [now exists e|].
    apply bind_run in H as [(e & _ & ->) | (s4 & ? & _ & H)]; [now exists e|].
    apply bind_run in H as [(e & _ & ->) | (s5 & ? & _ & H)]; [now exists e|].
    apply bind_run in H as [(e & _ & ->) | (s6 & ? & _ & H)]; [now exists e|].
    apply bind_run in H as [(e & _ & ->) | (s7 & ? & H7 & _)]; [now exists e|].
    apply lift_run in H7 as [_ H7]. discriminate.
  - destruct (train_batches_without_input _ _ _ _ _ _ _ _ _ _ Hdbg H2) as [e He].
    discriminate.
Qed.

(** X16.  Without debugger input, [train] does not get through its first
    epoch: for [max_epochs] of 1 or more and an empty debugger input it
    raises, and it leaves the checkpoint files as they were. *)
Theorem train_without_debugger_input_raises cfg (s s' : estate TS Weights) (r : result unit) :
  debugger s = [] ->
  0 < max_epochs cfg ->
  train env cfg s = (s', r) ->
  (exists e, r = Raise e) /\ checkpoints s' = checkpoints s.
Proof.
  intros Hdbg Hmax. unfold train. intros H.
  apply bind_run in H as [(e & H1 & ->) | (s1 & [] & H1 & H)]; unfold build_model in H1;
    destruct (init_model env cfg) as [m|]; try discriminate.
  { injection H1 as <-. split; [now eexists|reflexivity]. }
  injection H1 as <-.
  assert (Hr : exists rest, range (max_epochs cfg) = 0 :: rest).
  { unfold range. destruct (Z.to_nat (max_epochs cfg)) as [|n] eqn:Hn; [lia|].
    cbn. now eexists. }
  destruct Hr as [rest Hr]. rewrite Hr in H. cbn [train_epochs] in H.
  apply bind_run in H as [(e & H1 & ->) | (s2 & x & H1 & _)].
  - split; [now eexists|]. now apply run_epoch_run in H1 as [-> _].
  - exfalso. unfold run_epoch in H1.
    apply bind_Ok in H1 as (s3 & tot & H1 & _).
    apply train_phase_without_input in H1 as [e He]; [discriminate|assumption].
Qed.

(** X17.  With fewer batches in the train loader than
    [config.n_plot_per_epoch], the plot frequency is 0 and the first batch of
    the first epoch raises [ZeroDivisionError] where it asks whether to
    plot: nothing has been predicted, logged or saved by then. *)
Theorem train_with_more_plots_than_batches cfg (s : estate TS Weights) m b rest :
  init_model env cfg = Some m ->
  0 < max_epochs cfg ->
  train_loader env 0 = b :: rest ->
  Z.of_nat (length (b :: rest)) < n_plot_per_epoch cfg ->
  shape_1 (image_n_view b) = 2%nat ->
  train env cfg s
  = (mk_estate m (debugger s) (trace s) (checkpoints s), Raise ZeroDivisionError).
Proof.
  intros Hm Hmax Hloader Hfew Hshape. unfold train, build_model, mbind, ST_bind. rewrite Hm.
  assert (Hr : exists epochs, range (max_epochs cfg) = 0 :: epochs).
  { unfold range. destruct (Z.to_nat (max_epochs cfg)) as [|n] eqn:Hn; [lia|].
    cbn. now eexists. }
  destruct Hr as [epochs ->]. cbn [train_epochs].
  unfold run_epoch, train_phase, mbind, ST_bind, lift, floordiv. rewrite Hloader.
  assert (Hn0 : (n_plot_per_epoch cfg =? 0) = false) by (apply Z.eqb_neq; lia).
  rewrite Hn0, Z.div_small by (split; [apply Nat2Z.is_nonneg|assumption]).
  cbn [train_batches]. unfold mbind, ST_bind, run_batch, train_iteration.
  unfold mbind, ST_bind, lift. rewrite Hshape. cbn [Nat.eqb py_assert].
  unfold shall_plot_at. cbn [Z.eqb]. cbn [model debugger trace checkpoints ts dbg btrace map].
  now rewrite app_nil_r.
Qed.

Lemma test_iteration_Ok (plot_freq iter_idx : Z) b (s s' : bstate TS) x :
  test_iteration env plot_freq iter_idx b s = (s', Ok x) ->
  shall_plot_at iter_idx plot_freq = Ok false.
Proof.
  unfold test_iteration. intros H.
  apply bind_Ok in H as (s1 & shall_plot & H1 & H). apply lift_run in H1 as [_ H1].
  apply bind_Ok in H as (s2 & w & _ & H).
  apply bind_Ok in H as (s3 & metrics & _ & H).
  apply bind_Ok in H as (s4 & [] & H4 & _).
  destruct shall_plot; [|now symmetry].
  apply lift_run in H4 as [_ H4]. discriminate.
Qed.

Lemma test_batches_Ok (plot_freq : Z) (batches : list test_batch) :
  forall (iter_idx : Z) acc (s s' : estate TS Weights) x,
    test_batches env plot_freq iter_idx batches acc s = (s', Ok x) ->
    forall (k : nat) b, batches !! k = Some b ->
      shall_plot_at (iter_idx + Z.of_nat k) plot_freq = Ok false.
Proof.
  induction batches as [|b0 batches IH]; intros iter_idx acc s s' x H k b Hk.
  { discriminate. }
  cbn [test_batches] in H.
  apply bind_Ok in H as (s1 & r & H1 & H).
  destruct k as [|k].
  - rewrite Z.add_0_r. unfold run_batch in H1.
    destruct (test_iteration env plot_freq iter_idx b0 _) as [bs rb] eqn:Hit.
    injection H1 as _ ->. exact (test_iteration_Ok _ _ _ _ _ _ Hit).
  - replace (iter_idx + Z.of_nat (S k)) with (iter_idx + 1 + Z.of_nat k) by lia.
    exact (IH _ _ _ _ _ H k b Hk).
Qed.

Lemma test_batches_checkpoints (plot_freq : Z) (batches : list test_batch) :
  forall (iter_idx : Z) acc (s s' : estate TS Weights) r,
    test_batches env plot_freq iter_idx batches acc s = (s', r) ->
    checkpoints s' = checkpoints s.
Proof.
  induction batches as [|b0 batches IH]; intros iter_idx acc s s' r H; cbn [test_batches] in H.
  { now apply mret_run in H as [-> _]. }
  assert (Hb : forall (v v' : estate TS Weights) rb,
            run_batch TestPhase 0 iter_idx (test_iteration env plot_freq iter_idx b0) v
              = (v', rb) -> checkpoints v' = checkpoints v).
  { intros v v' rb. unfold run_batch. destruct (test_iteration _ _ _ _ _).
    now intros [= <- _]. }
  apply bind_run in H as [(e & H1 & _) | (s1 & x & H1 & H)]; [exact (Hb _ _ _ H1)|].
  rewrite (IH _ _ _ _ _ H). exact (Hb _ _ _ H1).
Qed.

(** X18.  [test] does not return: called without [n_plot_per_epoch], or
    with one that is not negative, it raises, at the latest where it first
    plots or, for an empty test set, where it averages its losses; it
    leaves the checkpoint files as they were. *)
Theorem test_never_returns cfg (n_plot_per_epoch : option Z) (s s' : estate TS Weights)
    (r : result unit) :
  (forall n, n_plot_per_epoch = Some n -> 0 <= n) ->
  test env cfg n_plot_per_epoch s = (s', r) ->
  (exists e, r = Raise e) /\ checkpoints s' = checkpoints s.
Proof.
  intros Hn H. split.
  - destruct r as [[]|e]; [exfalso|now exists e].
    unfold test in H.
    apply bind_Ok in H as (s1 & [] & _ & H).
    apply bind_Ok in H as (s2 & [] & _ & H).
    apply bind_Ok in H as (s3 & plot_freq & Hpf & H).
    apply bind_Ok in H as (s4 & tot & Hbatches & H).
    apply bind_Ok in H as (s5 & [] & Hne & _).
    destruct (test_set env) as [|b0 rest] eqn:Hset.
    { apply lift_run in Hne as [_ Hne]. discriminate. }
    pose proof (test_batches_Ok _ _ _ _ _ _ _ Hbatches) as Hplots.
    destruct n_plot_per_epoch as [n|].
    + apply lift_run in Hpf as [_ Hpf]. unfold floordiv in Hpf.
      destruct (Z.eqb_spec n 0) as [|Hn0]; [discriminate|]. injection Hpf as Hpf.
      specialize (Hn n eq_refl).
      assert (Hq : 0 <= plot_freq <= Z.of_nat (length (b0 :: rest))).
      { rewrite Hpf. split; [apply Z.div_pos; lia|].
        apply Z.div_le_upper_bound; [lia|]. cbn [length]. nia. }
      destruct (Z.eq_dec plot_freq 0) as [Hz|Hnz].
      * specialize (Hplots 0%nat b0 eq_refl). rewrite Hz in Hplots.
        unfold shall_plot_at in Hplots. discriminate.
      * destruct (lookup_lt_is_Some_2 (b0 :: rest) (Z.to_nat (plot_freq - 1))) as [b Hb].
        { lia. }
        specialize (Hplots _ b Hb). rewrite Z2Nat.id, Z.add_0_l in Hplots by lia.
        unfold shall_plot_at in Hplots.
        destruct (Z.eqb_spec plot_freq 0); [contradiction|].
        rewrite Z.mod_small, Z.eqb_refl in Hplots by lia. discriminate.
    + apply mret_run in Hpf as [_ [= ->]].
      specialize (Hplots 0%nat b0 eq_refl). discriminate.
  - unfold test in H.
    assert (Hbuild : forall (v v' : estate TS Weights) rb,
              build_model env cfg v = (v', rb) -> checkpoints v' = checkpoints v).
    { intros v v' rb. unfold build_model. destruct (init_model env cfg); now intros [= <- _]. }
    assert (Hload : forall (v v' : estate TS Weights) rb,
              load_weights env (DiffeoMappingNet_model_save_path cfg) v = (v', rb) ->
              checkpoints v' = checkpoints v).
    { intros v v' rb. unfold load_weights. destruct (checkpoints v !! _); now intros [= <- _]. }
    apply bind_run in H as [(e & H1 & _) | (s1 & [] & H1 & H)]; [exact (Hbuild _ _ _ H1)|].
    rewrite <- (Hbuild _ _ _ H1).
    apply bind_run in H as [(e & H2 & _) | (s2 & [] & H2 & H)]; [exact (Hload _ _ _ H2)|].
    rewrite <- (Hload _ _ _ H2).
    apply bind_run in H as [(e & H3 & _) | (s3 & plot_freq & H3 & H)].
    { destruct n_plot_per_epoch; [now apply lift_run in H3 as [-> _]|
                                  now apply mret_run in H3 as [-> _]]. }
    assert (E3 : s3 = s2).
    { destruct n_plot_per_epoch; [now apply lift_run in H3 as [-> _]|
                                  now apply mret_run in H3 as [-> _]]. }
    subst s3.
    apply bind_run in H as [(e & H4 & _) | (s4 & tot & H4 & H)];
      [exact (test_batches_checkpoints _ _ _ _ _ _ _ H4)|].
    rewrite <- (test_batches_checkpoints _ _ _ _ _ _ _ H4).
    apply bind_run in H as [(e & H5 & _) | (s5 & [] & H5 & H)].
    { destruct (test_set env); [now apply lift_run in H5 as [-> _]|
                                now apply mret_run in H5 as [-> _]]. }
    assert (E5 : s5 = s4).
    { destruct (test_set env); [now apply lift_run in H5 as [-> _]|
                                now apply mret_run in H5 as [-> _]]. }
    subst s5.
    apply bind_run in H as [(e & H6 & _) | (s6 & ? & H6 & H)];
      [now apply lift_run in H6 as [-> _]|]. apply lift_run in H6 as [-> _].
    apply bind_run in H as [(e & H7 & _) | (s7 & ? & H7 & H)];
      [now apply lift_run in H7 as [-> _]|]. apply lift_run in H7 as [-> _].
    apply bind_run in H as [(e & H8 & _) | (s8 & ? & H8 & H)];
      [now apply lift_run in H8 as [-> _]|]. apply lift_run in H8 as [-> _].
    now apply eemit_run in H as (_ & _ & ->).
Qed.

Lemma keeps_model_lift {A : Type} (r : result A) : keeps_model (TS := TS) (lift r).
Proof. intros s s' r' H. now apply lift_run in H as [-> _]. Qed.

Lemma keeps_model_mret {A : Type} (a : A) : keeps_model (TS := TS) (mret a).
Proof. intros s s' r' H. now apply mret_run in H as [-> _]. Qed.

Lemma keeps_model_bemit (e : bevent) : keeps_model (TS := TS) (bemit e).
Proof. intros s s' r'. unfold bemit. now intros [= <- _]. Qed.

Lemma keeps_model_get_ts : keeps_model (TS := TS) get_ts.
Proof. intros s s' r'. unfold get_ts. now intros [= <- _]. Qed.

Lemma keeps_model_bind {A C : Type} (c : ST (bstate TS) A) (k : A -> ST (bstate TS) C) :
  keeps_model c -> (forall a, keeps_model (k a)) -> keeps_model (c ≫= k).
Proof.
  intros Hc Hk s s' r H.
  apply bind_run in H as [(e & H1 & ->) | (s1 & a & H1 & H)].
  - exact (Hc _ _ _ H1).
  - rewrite (Hk a _ _ _ H). exact (Hc _ _ _ H1).
Qed.

Lemma keeps_model_call {A : Type} (e : bevent) (r : result A) : keeps_model (TS := TS) (call e r).
Proof.
  unfold call. apply keeps_model_bind; [apply keeps_model_bemit|].
  intros _. apply keeps_model_lift.
Qed.

Lemma keeps_model_forM {X Y : Type} (l : list X) (f : X -> ST (bstate TS) Y) :
  (forall x, keeps_model (f x)) -> keeps_model (forM l f).
Proof.
  intros Hf. induction l as [|x l IH]; cbn [forM].
  - apply keeps_model_mret.
  - apply keeps_model_bind; [apply Hf|]. intros y.
    apply keeps_model_bind; [apply IH|]. intros ys. apply keeps_model_mret.
Qed.

Lemma keeps_model_if {A : Type} (b : bool) (c1 c2 : ST (bstate TS) A) :
  keeps_model c1 -> keeps_model c2 -> keeps_model (if b then c1 else c2).
Proof. now destruct b. Qed.

Ltac models :=
  repeat first
    [ apply keeps_model_lift
    | apply keeps_model_mret
    | apply keeps_model_get_ts
    | apply keeps_model_call
    | apply keeps_model_bemit
    | apply keeps_model_if
    | apply keeps_model_forM; intros ?
    | apply keeps_model_bind; [|intros ?] ].

Lemma val_iteration_keeps_model cfg (plot_freq epoch_idx iter_idx : Z) permuted_idx b :
  keeps_model (val_iteration env cfg plot_freq epoch_idx iter_idx permuted_idx b).
Proof. unfold val_iteration, predict_and_warp, compute_metrics, compute_loss. models. Qed.

Lemma val_batches_keep cfg (plot_freq epoch_idx : Z) (batches : list batch) :
  forall iter_idx acc (s s' : estate TS Weights) r,
    val_batches env cfg plot_freq epoch_idx iter_idx batches acc s = (s', r) ->
    model s' = model s /\ debugger s' = debugger s /\ checkpoints s' = checkpoints s.
Proof.
  induction batches as [|b batches IH]; intros iter_idx acc s s' r H; cbn [val_batches] in H.
  { now apply mret_run in H as [-> _]. }
  assert (Hb : forall (v v' : estate TS Weights) rb,
            run_batch ValPhase epoch_idx iter_idx
              (val_iteration env cfg plot_freq epoch_idx iter_idx
                 (np_random_permutation env ValPhase epoch_idx iter_idx
                    (length (image_n_view b))) b) v = (v', rb) ->
            model v' = model v /\ debugger v' = debugger v /\ checkpoints v' = checkpoints v).
  { intros v v' rb. unfold run_batch.
    destruct (val_iteration _ _ _ _ _ _ _ _) as [bs rb'] eqn:Hit. intros [= <- _].
    cbn [model debugger checkpoints].
    pose proof (val_iteration_keeps_model _ _ _ _ _ _ _ _ _ Hit) as Hts.
    destruct (val_iteration_emits env _ _ _ _ _ _ _ _ _ Hit) as (evs & [Hdbg _] & _).
    cbn [ts dbg] in Hts, Hdbg. now rewrite Hts, Hdbg. }
  apply bind_run in H as [(e & H1 & _) | (s1 & x & H1 & H)]; [exact (Hb _ _ _ H1)|].
  destruct (Hb _ _ _ H1) as (M1 & D1 & C1). destruct (IH _ _ _ _ _ H) as (M2 & D2 & C2).
  repeat split; congruence.
Qed.

(** X19.  The validation phase of an epoch, returned or raised, changes
    neither the model nor the checkpoint files, and takes nothing from the
    debugger input. *)
Theorem validation_changes_nothing cfg (epoch_idx : Z) name (s s' : estate TS Weights)
    (r : result validation) :
  val_phase env cfg epoch_idx name s = (s', r) ->
  model s' = model s /\ debugger s' = debugger s /\ checkpoints s' = checkpoints s.
Proof.
  unfold val_phase. intros H.
  apply bind_run in H as [(e & H1 & _) | (s1 & plot_freq & H1 & H)];
    [now apply lift_run in H1 as [-> _]|]. apply lift_run in H1 as [-> _].
  apply bind_run in H as [(e & H2 & _) | (s2 & vtot & H2 & H)];
    [exact (val_batches_keep _ _ _ _ _ _ _ _ _ H2)|].
  destruct (val_batches_keep _ _ _ _ _ _ _ _ _ H2) as (M & D & C).
  rewrite <- M, <- D, <- C.
  apply bind_run in H as [(e & H3 & _) | (s3 & ? & H3 & H)];
    [now apply lift_run in H3 as [-> _]|]. apply lift_run in H3 as [-> _].
  apply bind_run in H as [(e & H4 & _) | (s4 & ? & H4 & H)];
    [now apply lift_run in H4 as [-> _]|]. apply lift_run in H4 as [-> _].
  apply bind_run in H as [(e & H5 & _) | (s5 & ? & H5 & H)];
    [now apply lift_run in H5 as [-> _]|]. apply lift_run in H5 as [-> _].
  apply bind_run in H as [(e & H6 & _) | (s6 & ? & H6 & H)];
    [now apply lift_run in H6 as [-> _]|]. apply lift_run in H6 as [-> _].
  now apply mret_run in H as [-> _].
Qed.

End Trainer.
Lemma train_writes_only_its_checkpoint_witness :
  let env := example_env
               (fun _ => [example_batch [FNum (inject_Z 2)] [FNum (inject_Z 3)] [0; 1] [1; 0]])
               (fun _ => [example_batch [FNum (inject_Z 2)] [FNum (inject_Z 3)] [0; 1] [1; 0]]) in
  let s := mk_estate O [Continue; Continue; Continue] [] ({[ "other.ckpt" := 7%nat ]}) in
  checkpoints (fst (train env example_config s)) !! "other.ckpt"
  = checkpoints s !! "other.ckpt".
Proof.
  intros env s.
  apply (train_writes_only_its_checkpoint env example_config s
           (fst (train env example_config s)) (snd (train env example_config s))
           (surjective_pairing _) "other.ckpt").
  vm_compute. discriminate.
Defined.

Lemma train_without_debugger_input_raises_witness :
  let env := example_env
               (fun _ => [example_batch [FNum (inject_Z 2)] [FNum (inject_Z 3)] [0; 1] [1; 0]])
               (fun _ => []) in
  let s := mk_estate O [] [] ∅ in
  (exists e, snd (train env example_config s) = Raise e) /\
  checkpoints (fst (train env example_config s)) = checkpoints s.
Proof.
  intros env s.
  apply (train_without_debugger_input_raises env example_config s
           (fst (train env example_config s)) (snd (train env example_config s))).
  - reflexivity.
  - reflexivity.
  - apply surjective_pairing.
Defined.

Lemma train_with_more_plots_than_batches_witness :
  let b := example_batch [FNum (inject_Z 2)] [FNum (inject_Z 3)] [0; 1] [1; 0] in
  let env := example_env (fun _ => [b]) (fun _ => [b]) in
  let cfg := mk_config false 3 2 50 "UNet" "checkpoints/DiffeoMappingNet.ckpt" in
  let s := mk_estate 5%nat [Continue] [] ∅ in
  train env cfg s = (mk_estate O [Continue] [] ∅, Raise ZeroDivisionError).
Proof.
  intros b env cfg s.
  apply (train_with_more_plots_than_batches env cfg s O b []).
  - reflexivity.
  - reflexivity.
  - reflexivity.
  - reflexivity.
  - reflexivity.
Defined.

Lemma test_never_returns_witness :
  let env := example_env (fun _ => []) (fun _ => []) in
  let s := mk_estate O [] [] ({[ "checkpoints/DiffeoMappingNet.ckpt" := 3%nat ]}) in
  (exists e, snd (test env example_config None s) = Raise e) /\
  checkpoints (fst (test env example_config None s)) = checkpoints s.
Proof.
  intros env s.
  apply (test_never_returns env example_config None s
           (fst (test env example_config None s)) (snd (test env example_config None s))).
  - intros n Hn. discriminate.
  - apply surjective_pairing.
Defined.

Lemma validation_changes_nothing_witness :
  let b := example_batch [FNum (inject_Z 2)] [FNum (inject_Z 3)] [0; 1] [1; 0] in
  let env := example_env (fun _ => [b]) (fun _ => [b]) in
  let s := mk_estate 4%nat [Quit] [] ∅ in
  model (fst (val_phase env example_config 0 None s)) = 4%nat /\
  debugger (fst (val_phase env example_config 0 None s)) = [Quit] /\
  checkpoints (fst (val_phase env example_config 0 None s)) = ∅.
Proof.
  intros b env s.
  apply (validation_changes_nothing env example_config 0 None s
           (fst (val_phase env example_config 0 None s))
           (snd (val_phase env example_config 0 None s))).
  apply surjective_pairing.
Defined.

End TrainRunFacts.

(** ** More on inference *)

Module InferRunFacts.
Import Tensor Infer STFacts InferFacts.

Lemma sorted_nil (l : list string) : PyStr.sorted l = [] -> l = [].
Proof.
  intros H. pose proof (PyStrFacts.sorted_permutation l) as Hp. rewrite H in Hp.
  symmetry. now apply Permutation_nil_l.
Qed.

Lemma chunks_nil {X : Type} (n : nat) (l : list X) : chunks (length l) n l = [] -> l = [].
Proof. destruct l; [reflexivity|discriminate]. Qed.

Lemma read_run {A : Type} (f : world -> result A) (w w' : world) r :
  read f w = (w', r) -> w' = w /\ r = f w.
Proof. unfold read. now intros [= <- <-]. Qed.

Section Inference.
Context {Model : Type} (env : collaborators Model) (g : namespace Model).

(** X20.  [eval_stitched] reads and prints: whether it returns or raises, it
    leaves every file as it was, and all it adds to the output are printed
    lines. *)
Theorem eval_stitched_only_reads (pred_folder true_folder : string) (organ : option string)
    (dataset_name : gvalue Model) (w w' : world) r :
  eval_stitched env pred_folder true_folder organ dataset_name w = (w', r) ->
  files w' = files w /\
  exists new, events w' = events w ++ new /\ Forall (fun e => exists msg, e = Print msg) new.
Proof.
  set (R := fun v v' : world =>
         files v' = files v /\
         exists new, events v' = events v ++ new /\
                     Forall (fun e => exists msg, e = Print msg) new).
  assert (HR : PreOrder R).
  { split.
    - intros v. split; [reflexivity|]. exists []. now rewrite app_nil_r.
    - intros v1 v2 v3 [F12 (n1 & E1 & P1)] [F23 (n2 & E2 & P2)]. split; [congruence|].
      exists (n1 ++ n2). split; [rewrite E2, E1; now rewrite app_assoc|now apply Forall_app]. }
  assert (Hemit : forall msg, keeps R (emit (Print msg))).
  { intros msg v v' r'. unfold emit. intros [= <- _]. split; [reflexivity|].
    exists [Print msg]. split; [reflexivity|]. constructor; [now eexists|constructor]. }
  intros Hrun. apply (fun H => H w w' r Hrun). clear Hrun.
  change (keeps R (eval_stitched env pred_folder true_folder organ dataset_name)).
  unfold eval_stitched, read.
  repeat first
    [ apply keeps_lift; [apply _]
    | apply keeps_mret; [apply _]
    | apply keeps_read; [apply _]
    | apply Hemit
    | apply keeps_forM; [apply _|intros ?]
    | apply keeps_bind; [apply _| |intros ?] ].
Qed.

(** X21.  [eval_stitched] returns no empty result: when it returns, the
    prediction folder held at least one [png] file; for a folder without
    one it raises. *)
Theorem eval_stitched_needs_predictions (pred_folder true_folder : string)
    (organ : option string) (dataset_name : gvalue Model) (w w' : world) results :
  eval_stitched env pred_folder true_folder organ dataset_name w = (w', Ok results) ->
  glob env (files w) (pred_folder +:+ "/*.png") <> [].
Proof.
  unfold eval_stitched. intros H Hempty.
  apply bind_Ok in H as (w1 & pred_list & Hp & H). apply read_run in Hp as [-> [= ->]].
  apply bind_Ok in H as (w2 & true_list & Ht & H). apply read_run in Ht as [-> _].
  apply bind_Ok in H as (w3 & file_ids & _ & H).
  apply bind_Ok in H as (w4 & true_list' & _ & H).
  apply bind_Ok in H as (w5 & [] & _ & H).
  apply bind_Ok in H as (w6 & [] & _ & H).
  apply bind_Ok in H as (w7 & [] & _ & H).
  apply bind_Ok in H as (w8 & metric_list & Hloop & H).
  apply bind_Ok in H as (w9 & first & Hfirst & _).
  rewrite Hempty in Hloop. cbn [zip zip_with forM] in Hloop.
  apply mret_run in Hloop as [_ [= ->]].
  apply lift_run in Hfirst as [_ Hfirst]. discriminate.
Qed.

(** X22.  With a [dataset_name] that is neither ['MoNuSeg'] nor ['GLySAC'],
    [eval_stitched] has no file identifiers to filter with: for a ground
    truth folder that holds a [png] file it raises [NameError] for
    [file_ids], before it prints anything. *)
Theorem eval_stitched_unknown_dataset (pred_folder true_folder : string)
    (organ : option string) (dataset_name : gvalue Model) (w : world) :
  is_str dataset_name "MoNuSeg" = false ->
  is_str dataset_name "GLySAC" = false ->
  glob env (files w) (true_folder +:+ "/*.png") <> [] ->
  eval_stitched env pred_folder true_folder organ dataset_name w
  = (w, Raise (NameError "file_ids")).
Proof.
  intros H1 H2 Hne. unfold eval_stitched, read, mbind, ST_bind, lift. rewrite H1, H2.
  destruct (PyStr.sorted (glob env (files w) (true_folder +:+ "/*.png"))) eqn:Hs;
    [now apply sorted_nil in Hs|reflexivity].
Qed.

(** X23.  With [dataset_name] unbound in the global namespace of the module,
    [infer] does not return: every call raises. *)
Theorem infer_does_not_return cfg (w : world) :
  g !! "dataset_name" = None -> snd (infer env g cfg w) <> Ok tt.
Proof. apply infer_never_returns. Qed.

(** X24.  [infer] gets to the evaluation of the stitched labels only with the
    names [model_name] and [load_match_pairs] bound in the global namespace
    and with the attributes [output_save_root] and [groudtruth_folder] on
    the configuration. *)
Theorem infer_reaches_evaluation_only_with cfg (w w1 : world) (s : stitched) :
  before_evaluation env g cfg w = (w1, Ok s) ->
  is_Some (g !! "model_name") /\ is_Some (g !! "load_match_pairs") /\
  (exists root, output_save_root cfg = Has root) /\
  (exists folder, groudtruth_folder cfg = Has folder).
Proof. apply evaluation_reached_only_with. Qed.

Lemma TensorDataset_nil (mp : match_pairs) : TensorDataset mp = Ok [] -> closest_images mp = [].
Proof.
  unfold TensorDataset.
  destruct (closest_images mp) as [|ci cis]; [reflexivity|]. intros H. exfalso.
  destruct (test_images mp) as [|ti tis]; [discriminate H|].
  destruct (closest_labels mp) as [|cl cls].
  { cbn [length Nat.eqb] in H. rewrite andb_false_r in H. discriminate H. }
  destruct (test_labels mp) as [[|tl tls]|].
  - cbn [length Nat.eqb] in H. rewrite andb_false_r in H. discriminate H.
  - destruct (py_assert _) in H; [|discriminate H]. cbn in H. discriminate H.
  - destruct (py_assert _) in H; [|discriminate H]. cbn in H. discriminate H.
Qed.

(** X25.  With labels for the test images, [infer] does not get past its
    first batch: the inference loop returns only when the loader of matched
    pairs gave no labels for the test images or no image at all.  Up to
    there [infer] writes no file. *)
Theorem infer_with_test_labels_stops_at_first_batch cfg (w w1 : world) (p : predicted) :
  predict env g cfg w = (w1, Ok p) ->
  (test_labels (pairs p) = None \/ closest_images (pairs p) = []) /\
  forall path img, files w1 !! path = Some img -> files w !! path = Some img.
Proof.
  unfold predict. intros H.
  apply bind_Ok in H as (v1 & [] & H1 & H). apply lift_run in H1 as [-> _].
  apply bind_Ok in H as (v2 & root & H2 & H). apply lift_run in H2 as [-> _].
  apply bind_Ok in H as (v3 & model_name & H3 & H). apply lift_run in H3 as [-> _].
  apply bind_Ok in H as (v4 & folder & H4 & H). apply lift_run in H4 as [-> _].
  apply bind_Ok in H as (v5 & there & H5 & H). apply read_run in H5 as [-> _].
  apply bind_Ok in H as (v6 & [] & H6 & H).
  assert (Hfiles : forall path img, files v6 !! path = Some img -> files w !! path = Some img).
  { destruct there.
    - apply bind_Ok in H6 as (v & [] & Hrm & Hmk). unfold rmtree in Hrm. injection Hrm as <-.
      unfold emit in Hmk. injection Hmk as <-. cbn [files]. intros path img Hl.
      now apply map_lookup_filter_Some in Hl as [Hl _].
    - unfold emit in H6. injection H6 as <-. now intros path img Hl. }
  apply bind_Ok in H as (v7 & m & H7 & H). apply lift_run in H7 as [-> _].
  apply bind_Ok in H as (v8 & m' & H8 & H). apply lift_run in H8 as [-> _].
  apply bind_Ok in H as (v9 & loader & H9 & H). apply lift_run in H9 as [-> _].
  apply bind_Ok in H as (v10 & pair_root & H10 & H). apply lift_run in H10 as [-> _].
  apply bind_Ok in H as (v11 & mp & H11 & H). apply lift_run in H11 as [-> _].
  apply bind_Ok in H as (v12 & [] & H12 & H). unfold emit in H12. injection H12 as <-.
  apply bind_Ok in H as (v13 & dataset & H13 & H). apply lift_run in H13 as [-> H13].
  apply bind_Ok in H as (v14 & dataloader & H14 & H). apply lift_run in H14 as [-> H14].
  apply bind_Ok in H as (v15 & [] & H15 & H). unfold emit in H15. injection H15 as <-.
  apply bind_Ok in H as (v16 & preds & H16 & H). apply lift_run in H16 as [-> H16].
  apply bind_Ok in H as (v17 & [] & H17 & H). unfold emit in H17. injection H17 as <-.
  apply mret_run in H as [-> [= ->]]. cbn [pairs files]. split; [|exact Hfiles].
  destruct (test_labels mp) as [tl|] eqn:Htl; [right|now left].
  rewrite bool_decide_true in H16 by (now eexists).
  symmetry in H16. apply infer_batches_with_test_labels in H16. subst dataloader.
  unfold DataLoader in H14. destruct (batch_size cfg <=? 0); [discriminate|].
  injection H14 as H14. symmetry in H14. apply chunks_nil in H14. subst dataset.
  symmetry in H13. now apply TensorDataset_nil.
Qed.

(** X26.  [infer] starts from an empty folder of predicted patches: when the
    folder exists, every file below it is gone by the end of the inference
    loop. *)
Theorem infer_clears_the_patch_folder cfg (w w1 : world) (p : predicted) :
  predict env g cfg w = (w1, Ok p) ->
  path_exists env w (pred_label_folder p) = true ->
  forall path, String.prefix (pred_label_folder p +:+ "/") path = true ->
    files w1 !! path = None.
Proof.
  unfold predict. intros H.
  apply bind_Ok in H as (v1 & [] & H1 & H). apply lift_run in H1 as [-> _].
  apply bind_Ok in H as (v2 & root & H2 & H). apply lift_run in H2 as [-> _].
  apply bind_Ok in H as (v3 & model_name & H3 & H). apply lift_run in H3 as [-> _].
  apply bind_Ok in H as (v4 & folder & H4 & H). apply lift_run in H4 as [-> _].
  apply bind_Ok in H as (v5 & there & H5 & H). apply read_run in H5 as [-> [= Hthere]].
  apply bind_Ok in H as (v6 & [] & H6 & H).
  apply bind_Ok in H as (v7 & m & H7 & H). apply lift_run in H7 as [-> _].
  apply bind_Ok in H as (v8 & m' & H8 & H). apply lift_run in H8 as [-> _].
  apply bind_Ok in H as (v9 & loader & H9 & H). apply lift_run in H9 as [-> _].
  apply bind_Ok in H as (v10 & pair_root & H10 & H). apply lift_run in H10 as [-> _].
  apply bind_Ok in H as (v11 & mp & H11 & H). apply lift_run in H11 as [-> _].
  apply bind_Ok in H as (v12 & [] & H12 & H). unfold emit in H12. injection H12 as <-.
  apply bind_Ok in H as (v13 & dataset & H13 & H). apply lift_run in H13 as [-> _].
  apply bind_Ok in H as (v14 & dataloader & H14 & H). apply lift_run in H14 as [-> _].
  apply bind_Ok in H as (v15 & [] & H15 & H). unfold emit in H15. injection H15 as <-.
  apply bind_Ok in H as (v16 & preds & H16 & H). apply lift_run in H16 as [-> _].
  apply bind_Ok in H as (v17 & [] & H17 & H). unfold emit in H17. injection H17 as <-.
  apply mret_run in H as [-> [= ->]]. cbn [pred_label_folder files].
  intros Hexists path Hprefix. subst there. rewrite Hexists in H6.
  apply bind_Ok in H6 as (v & [] & Hrm & Hmk). unfold rmtree in Hrm. injection Hrm as <-.
  unfold emit in Hmk. injection Hmk as <-. cbn [files].
  apply map_lookup_filter_None. right. intros img _. cbn [fst]. now rewrite Hprefix.
Qed.

End Inference.
Lemma eval_stitched_only_reads_witness :
  let w := mk_world {[ "stitched/img.png" := Gray (mk_ndarray 1 1 (fun _ _ => 1));
                       "labels/img.png" := Gray (mk_ndarray 1 1 (fun _ _ => 1)) ]} [] in
  let run := eval_stitched example_env_with_files "stitched" "labels" None (GStr "MoNuSeg") w in
  files (fst run) = files w /\
  exists new, events (fst run) = events w ++ new /\
              Forall (fun e => exists msg, e = Print msg) new.
Proof.
  intros w run.
  apply (eval_stitched_only_reads example_env_with_files "stitched" "labels" None
           (GStr "MoNuSeg") w (fst run) (snd run)).
  apply surjective_pairing.
Defined.

Lemma eval_stitched_needs_predictions_witness :
  let w := mk_world {[ "stitched/img.png" := Gray (mk_ndarray 1 1 (fun _ _ => 1));
                       "labels/img.png" := Gray (mk_ndarray 1 1 (fun _ _ => 1)) ]} [] in
  snd (eval_stitched example_env_with_files "stitched" "labels" None (GStr "MoNuSeg") w)
    = Ok [("iou", PyFloat.one)] /\
  glob example_env_with_files (files w) "stitched/*.png" <> [].
Proof.
  intros w. split; [vm_compute; reflexivity|].
  apply (eval_stitched_needs_predictions example_env_with_files "stitched" "labels" None
           (GStr "MoNuSeg") w
           (fst (eval_stitched example_env_with_files "stitched" "labels" None
                               (GStr "MoNuSeg") w))
           [("iou", PyFloat.one)]).
  vm_compute. reflexivity.
Defined.

Lemma eval_stitched_unknown_dataset_witness :
  let w := mk_world {[ "labels/img.png" := Gray (mk_ndarray 1 1 (fun _ _ => 1)) ]} [] in
  eval_stitched example_env_with_files "stitched" "labels" None (GStr "A28+axis") w
  = (w, Raise (NameError "file_ids")).
Proof.
  intros w.
  apply (eval_stitched_unknown_dataset example_env_with_files "stitched" "labels" None
           (GStr "A28+axis") w).
  - reflexivity.
  - reflexivity.
  - vm_compute. discriminate.
Defined.

Lemma infer_does_not_return_witness :
  snd (infer example_env example_globals example_config (mk_world ∅ [])) <> Ok tt.
Proof.
  apply (infer_does_not_return example_env example_globals example_config (mk_world ∅ [])).
  reflexivity.
Defined.

Lemma infer_reaches_evaluation_only_with_witness :
  is_Some (example_globals !! "model_name") /\
  is_Some (example_globals !! "load_match_pairs") /\
  (exists root, output_save_root example_config = Has root) /\
  (exists folder, groudtruth_folder example_config = Has folder).
Proof.
  destruct (snd (before_evaluation example_env example_globals example_config (mk_world ∅ [])))
    as [s|e] eqn:Hs; [|vm_compute in Hs; discriminate].
  apply (infer_reaches_evaluation_only_with example_env example_globals example_config
           (mk_world ∅ [])
           (fst (before_evaluation example_env example_globals example_config (mk_world ∅ [])))
           s).
  rewrite <- Hs. apply surjective_pairing.
Defined.

Lemma infer_with_test_labels_stops_at_first_batch_witness :
  let w := mk_world {[ "results/run/pred_patches/old_H0_W0.png" :=
                         Gray (mk_ndarray 1 1 (fun _ _ => 1)) ]} [] in
  exists p,
    snd (predict example_env_with_files example_globals example_config w) = Ok p /\
    (test_labels (pairs p) = None \/ closest_images (pairs p) = []) /\
    forall path img,
      files (fst (predict example_env_with_files example_globals example_config w)) !! path
        = Some img ->
      files w !! path = Some img.
Proof.
  intros w.
  destruct (snd (predict example_env_with_files example_globals example_config w))
    as [p|e] eqn:Hs; [|vm_compute in Hs; discriminate].
  exists p. split; [reflexivity|].
  apply (infer_with_test_labels_stops_at_first_batch example_env_with_files example_globals
           example_config w).
  rewrite <- Hs. apply surjective_pairing.
Defined.

Lemma infer_clears_the_patch_folder_witness :
  let w := mk_world {[ "results/run/pred_patches/old_H0_W0.png" :=
                         Gray (mk_ndarray 1 1 (fun _ _ => 1)) ]} [] in
  files (fst (predict example_env_with_files example_globals example_config w))
    !! "results/run/pred_patches/old_H0_W0.png" = None.
Proof.
  intros w.
  apply (infer_clears_the_patch_folder example_env_with_files example_globals example_config w
           (fst (predict example_env_with_files example_globals example_config w))
           (mk_predicted "results/run/pred_patches" example_pairs [[[[PyFloat.one]]]])).
  - vm_compute. reflexivity.
  - vm_compute. reflexivity.
  - vm_compute. reflexivity.
Defined.

End InferRunFacts.
